(** * simpleproxy: a SOCKS5 relay (main.go)

    Shallow embedding of the wire-level code of [main.go] and the
    properties of its specification.

    Conventions.
    - A Go [byte] is [Byte.byte]; a [[]byte] and a Go [string] are
      [list byte]; a Go [int] is [Z]; a [uint16] is a [Z] reduced modulo
      [2^16] where the code converts to it.
    - Indexing and slicing are checked: an access outside the slice is
      the run-time panic of Go, kept as an outcome of its own.
    - The network is explicit state: what the peer has sent, what the
      server wrote, and which calls failed. *)

From Stdlib Require Import ZArith NArith List Bool Lia.
From Stdlib Require Import Strings.Byte.
Import ListNotations.

Open Scope Z_scope.

(* ================================================================== *)
(** ** Go bytes and slices *)

Module GoBytes.

(** [int(b)] for a byte [b]. *)
Definition byte_to_Z (b : byte) : Z := Z.of_N (Byte.to_N b).

(** [byte(x)]: conversion of an integer to a byte keeps the low 8 bits. *)
Definition byte_of_Z (x : Z) : byte :=
  match Byte.of_N (Z.to_N (x mod 256)) with
  | Some b => b
  | None => x00
  end.

(** [len(s)]. *)
Definition len {A : Type} (s : list A) : Z := Z.of_nat (length s).

(** [make([]byte, n)]. *)
Definition zeros (n : Z) : list byte := repeat x00 (Z.to_nat n).

(** [s[lo:hi]] without the bounds check. *)
Definition sub (s : list byte) (lo hi : Z) : list byte :=
  firstn (Z.to_nat (hi - lo)) (skipn (Z.to_nat lo) s).

(** [binary.BigEndian.Uint16] on a two-byte slice. *)
Definition be_uint16 (hi lo : byte) : Z :=
  Z.lor (byte_to_Z lo) (Z.shiftl (byte_to_Z hi) 8).

(** [binary.BigEndian.PutUint16(b, v)] into a fresh two-byte slice. *)
Definition putUint16 (v : Z) : list byte :=
  [byte_of_Z (Z.shiftr v 8); byte_of_Z v].

(** [uint16(x)]. *)
Definition uint16 (x : Z) : Z := x mod 65536.

End GoBytes.
Import GoBytes.

(* ================================================================== *)
(** ** Constants of main.go *)

Definition socks5Version : byte := x05.
Definition noAuth        : byte := x00.
Definition connectCmd    : byte := x01.
Definition udpAssociate  : byte := x03.
Definition ipv4Address   : byte := x01.
Definition domainName    : byte := x03.
Definition ipv6Address   : byte := x04.

(* ================================================================== *)
(** ** The textual form of IP addresses

    [main.go] keeps a decoded address as the Go string produced by
    [net.IP.String] and turns it back into bytes with [net.ParseIP]
    followed by [To4] or [To16].  These functions belong to Go's
    standard library (packages [net] and [net/netip]); they are modelled
    here after that library: dotted decimal for IPv4 and IPv4-mapped
    addresses, and the RFC 5952 form for IPv6 (lower-case hexadecimal,
    no leading zeros, the leftmost longest run of two or more zero
    groups written as a double colon). *)

Module NetIP.

Definition chDot   : byte := x2e.   (* '.' *)
Definition chColon : byte := x3a.   (* ':' *)
Definition chPct   : byte := x25.   (* '%' *)
Definition chQuest : byte := x3f.   (* '?' *)

(** ["0123456789abcdef"] *)
Definition digits : list byte :=
  [x30; x31; x32; x33; x34; x35; x36; x37; x38; x39;
   x61; x62; x63; x64; x65; x66].

Definition digit (n : Z) : byte := nth (Z.to_nat n) digits x30.

(** [appendDecimal]: a [uint8] in decimal, no leading zero. *)
Definition appendDecimal (x : Z) : list byte :=
  (if 100 <=? x then [digit (x / 100)] else []) ++
  (if 10 <=? x then [digit (x / 10 mod 10)] else []) ++
  [digit (x mod 10)].

(** [appendHex]: a [uint16] in lower-case hexadecimal, no leading zero. *)
Definition appendHex (x : Z) : list byte :=
  (if 4096 <=? x then [digit (Z.shiftr x 12)] else []) ++
  (if 256 <=? x then [digit (Z.land (Z.shiftr x 8) 15)] else []) ++
  (if 16 <=? x then [digit (Z.land (Z.shiftr x 4) 15)] else []) ++
  [digit (Z.land x 15)].

(** [hexString], used for slices that are not addresses. *)
Definition hexString (b : list byte) : list byte :=
  flat_map (fun c => [digit (Z.shiftr (byte_to_Z c) 4);
                      digit (Z.land (byte_to_Z c) 15)]) b.

Definition v4InV6Prefix : list byte :=
  [x00; x00; x00; x00; x00; x00; x00; x00; x00; x00; xff; xff].

Definition allZero (b : list byte) : bool :=
  forallb (fun c => Byte.eqb c x00) b.

(** [IP.To4]: the 4-byte form, or nil. *)
Definition To4 (ip : list byte) : list byte :=
  if len ip =? 4 then ip
  else if (len ip =? 16) && allZero (sub ip 0 10)
          && Byte.eqb (nth 10 ip x00) xff && Byte.eqb (nth 11 ip x00) xff
       then sub ip 12 16
       else [].

(** [IP.To16]: the 16-byte form, or nil. *)
Definition To16 (ip : list byte) : list byte :=
  if len ip =? 4 then v4InV6Prefix ++ ip
  else if len ip =? 16 then ip
  else [].

(** Dotted decimal of a 4-byte address. *)
Definition string4 (p : list byte) : list byte :=
  appendDecimal (byte_to_Z (nth 0 p x00)) ++ [chDot] ++
  appendDecimal (byte_to_Z (nth 1 p x00)) ++ [chDot] ++
  appendDecimal (byte_to_Z (nth 2 p x00)) ++ [chDot] ++
  appendDecimal (byte_to_Z (nth 3 p x00)).

(** The [i]-th 16-bit group of a 16-byte address. *)
Definition v6u16 (ip : list byte) (i : nat) : Z :=
  be_uint16 (nth (2 * i) ip x00) (nth (2 * i + 1) ip x00).

(** [for j < 8 && v6u16(j) == 0 { j++ }], [n] bounding the iterations. *)
Fixpoint zeroRunEnd (ip : list byte) (n : nat) (j : nat) : nat :=
  match n with
  | O => j
  | S n' =>
      if (j <? 8)%nat && (v6u16 ip j =? 0) then zeroRunEnd ip n' (S j) else j
  end.

(** The first loop of [appendTo6]: the leftmost longest run of at
    least two zero groups, as [(zeroStart, zeroEnd)]; [(255, 255)]
    when there is none. *)
Definition longestZeroRun (ip : list byte) : nat * nat :=
  fold_left
    (fun (st : nat * nat) (i : nat) =>
       let '(zeroStart, zeroEnd) := st in
       let j := zeroRunEnd ip 8 i in
       let l := (j - i)%nat in
       if (2 <=? l)%nat && (zeroEnd - zeroStart <? l)%nat then (i, j) else st)
    (seq 0 8) (255%nat, 255%nat).

(** The second loop of [appendTo6], from group [i] on. *)
Fixpoint groupsFrom (ip : list byte) (zeroStart zeroEnd : nat)
                    (n : nat) (i : nat) : list byte :=
  match n with
  | O => []
  | S n' =>
      if (8 <=? i)%nat then []
      else if (i =? zeroStart)%nat then
        [chColon; chColon] ++
        (if (8 <=? zeroEnd)%nat then []
         else appendHex (v6u16 ip zeroEnd)
              ++ groupsFrom ip zeroStart zeroEnd n' (S zeroEnd))
      else
        (if (0 <? i)%nat then [chColon] else []) ++
        appendHex (v6u16 ip i) ++ groupsFrom ip zeroStart zeroEnd n' (S i)
  end.

Definition string6 (ip : list byte) : list byte :=
  let '(zeroStart, zeroEnd) := longestZeroRun ip in
  groupsFrom ip zeroStart zeroEnd 8 0.

(** [net.IP.String]. *)
Definition String (ip : list byte) : list byte :=
  if len ip =? 0 then [x3c; x6e; x69; x6c; x3e]            (* "<nil>" *)
  else if negb (len ip =? 4) && negb (len ip =? 16)
       then chQuest :: hexString ip
  else if len (To4 ip) =? 4 then string4 (To4 ip)
  else string6 ip.

(** *** Parsing *)

Definition isDigit (c : byte) : bool :=
  (48 <=? byte_to_Z c) && (byte_to_Z c <=? 57).

(** [parseIPv4Fields]: state [val], [pos], [digLen] and the fields
    already stored; [prevDot] is [s[i-1] == '.'] and [first] is
    [i == 0]. *)
Fixpoint parseIPv4Loop (s : list byte) (first prevDot : bool)
         (val : Z) (pos : nat) (digLen : Z) (fields : list byte)
  : option (list byte) :=
  match s with
  | [] => if (pos <? 3)%nat then None
          else Some (fields ++ [byte_of_Z val])
  | c :: s' =>
      if isDigit c then
        if (digLen =? 1) && (val =? 0) then None
        else
          let val' := val * 10 + byte_to_Z c - 48 in
          if 255 <? val' then None
          else parseIPv4Loop s' false false val' pos (digLen + 1) fields
      else if Byte.eqb c chDot then
        if first || (match s' with [] => true | _ => false end) || prevDot
        then None
        else if (pos =? 3)%nat then None
        else parseIPv4Loop s' false true 0 (S pos) 0
                           (fields ++ [byte_of_Z val])
      else None
  end.

Definition parseIPv4Fields (s : list byte) : option (list byte) :=
  parseIPv4Loop s true false 0 0%nat 0 [].

Definition hexVal (c : byte) : option Z :=
  let v := byte_to_Z c in
  if (48 <=? v) && (v <=? 57) then Some (v - 48)
  else if (97 <=? v) && (v <=? 102) then Some (v - 97 + 10)
  else if (65 <=? v) && (v <=? 70) then Some (v - 65 + 10)
  else None.

(** The inner loop of [parseIPv6]: the hexadecimal number at the head
    of [s]; the result is [(acc, off, s[off:])]. *)
Fixpoint scanHex (s : list byte) (off : nat) (acc : Z)
  : option (Z * nat * list byte) :=
  match s with
  | [] => Some (acc, off, [])
  | c :: s' =>
      match hexVal c with
      | None => Some (acc, off, s)
      | Some v =>
          let acc' := Z.shiftl acc 4 + v in
          if (3 <? off)%nat then None
          else if 65535 <? acc' then None
          else scanHex s' (S off) acc'
      end
  end.

(** The end of [parseIPv6]: the whole string was used; expand the
    ellipsis when fewer than 16 bytes were parsed. *)
Definition finish6 (ip : list byte) (ellipsis : option nat)
  : option (list byte) :=
  let i := length ip in
  if (i <? 16)%nat then
    match ellipsis with
    | None => None
    | Some e => Some (firstn e ip ++ repeat x00 (16 - i) ++ skipn e ip)
    end
  else
    match ellipsis with
    | None => Some ip
    | Some _ => None
    end.

(** The main loop of [parseIPv6]: [ip] holds the bytes parsed so far
    ([i] is its length), [n] bounds the iterations ([i < 16], two
    bytes at least per iteration). *)
Fixpoint parseIPv6Loop (n : nat) (s : list byte) (ip : list byte)
         (ellipsis : option nat) : option (list byte) :=
  match n with
  | O => match s with [] => finish6 ip ellipsis | _ => None end
  | S n' =>
      if (16 <=? length ip)%nat then
        match s with [] => finish6 ip ellipsis | _ => None end
      else
      match scanHex s 0 0 with
      | None => None
      | Some (acc, off, rest) =>
          if (off =? 0)%nat then None
          else
            match rest with
            | c :: _ =>
                if Byte.eqb c chDot then
                  (* trailing IPv4 *)
                  if (match ellipsis with None => true | _ => false end)
                     && negb (length ip =? 12)%nat then None
                  else if (16 <? length ip + 4)%nat then None
                  else
                    match parseIPv4Fields s with
                    | None => None
                    | Some f => finish6 (ip ++ f) ellipsis
                    end
                else
                  let ip' := ip ++ [byte_of_Z (Z.shiftr acc 8); byte_of_Z acc] in
                  if negb (Byte.eqb c chColon) then None
                  else
                    match rest with
                    | [_] => None
                    | _ :: c2 :: rest2 =>
                        if Byte.eqb c2 chColon then
                          match ellipsis with
                          | Some _ => None
                          | None =>
                              match rest2 with
                              | [] => finish6 ip' (Some (length ip'))
                              | _ => parseIPv6Loop n' rest2 ip'
                                                   (Some (length ip'))
                              end
                          end
                        else parseIPv6Loop n' (c2 :: rest2) ip' ellipsis
                    | [] => None
                    end
            | [] =>
                finish6 (ip ++ [byte_of_Z (Z.shiftr acc 8); byte_of_Z acc])
                        ellipsis
            end
      end
  end.

(** [parseIPv6] for the use of [ParseIP], which refuses zones. *)
Definition parseIPv6 (s : list byte) : option (list byte) :=
  if existsb (fun c => Byte.eqb c chPct) s then None
  else
    match s with
    | c1 :: c2 :: s' =>
        if Byte.eqb c1 chColon && Byte.eqb c2 chColon then
          match s' with
          | [] => Some (repeat x00 16)
          | _ => parseIPv6Loop 8 s' [] (Some 0%nat)
          end
        else parseIPv6Loop 8 s [] None
    | _ => parseIPv6Loop 8 s [] None
    end.

(** [netip.ParseAddr]: the first ['.'], [':'] or ['%'] selects the
    parser. *)
Fixpoint parseAddrScan (all s : list byte) : option (list byte) :=
  match s with
  | [] => None
  | c :: s' =>
      if Byte.eqb c chDot then
        option_map (fun f => v4InV6Prefix ++ f) (parseIPv4Fields all)
      else if Byte.eqb c chColon then parseIPv6 all
      else if Byte.eqb c chPct then None
      else parseAddrScan all s'
  end.

(** [net.ParseIP]: a 16-byte address, or nil. *)
Definition ParseIP (s : list byte) : list byte :=
  match parseAddrScan s s with
  | Some ip => ip
  | None => []
  end.

(** *** Vocabulary of the proofs about the text form *)

(** A character that is none of [':'], ['.'] and ['%']. *)
Definition plainChar (c : byte) : Prop :=
  Byte.eqb c chColon = false /\ Byte.eqb c chDot = false /\
  Byte.eqb c chPct = false.

Definition nibble (d : Z) : Prop := 0 <= d < 16.

(** The number written by hexadecimal digits, most significant first. *)
Definition hexDigitsValue (ds : list Z) (acc : Z) : Z :=
  fold_left (fun a d => a * 16 + d) ds acc.

(** A text that does not go on with a hexadecimal digit. *)
Definition stopsHex (tail : list byte) : Prop :=
  match tail with
  | [] => True
  | c :: _ => hexVal c = None
  end.

Definition noPercent (s : list byte) : Prop :=
  existsb (fun c => Byte.eqb c chPct) s = false.

(** The run chosen by [appendTo6]: none, or two groups at least, all
    of them zero. *)
Definition zeroRun (ip : list byte) (st : nat * nat) : Prop :=
  st = (255%nat, 255%nat) \/
  ((fst st + 2 <= snd st)%nat /\ (snd st <= 8)%nat /\
   forall k, (fst st <= k < snd st)%nat -> v6u16 ip k = 0).

End NetIP.

(* ================================================================== *)
(** ** Outcomes of code that can return early or panic *)

(** [Done a]: the block ran to its end with [a]; [Dropped]: the
    function returned early (the packet is dropped); [Panic]: an index
    or a slice bound was outside the slice. *)
Inductive outcome (A : Type) : Type :=
| Done (a : A)
| Dropped
| Panic.
Arguments Done {A} a.
Arguments Dropped {A}.
Arguments Panic {A}.

Definition obind {A B : Type} (m : outcome A) (f : A -> outcome B) : outcome B :=
  match m with
  | Done a => f a
  | Dropped => Dropped
  | Panic => Panic
  end.

Declare Scope outcome_scope.
Delimit Scope outcome_scope with outcome.
Notation "x <- m ;; k" := (obind m (fun x => k))
  (at level 61, m at next level, right associativity) : outcome_scope.
Notation "' pat <- m ;; k" := (obind m (fun x => match x with pat => k end))
  (at level 61, pat pattern, m at next level, right associativity) : outcome_scope.

(** [data[i]], with Go's bounds check. *)
Definition index (data : list byte) (i : Z) : outcome byte :=
  if (0 <=? i) && (i <? len data)
  then Done (nth (Z.to_nat i) data x00)
  else Panic.

(** [data[lo:hi]]; reading beyond [len(data)] counts as out of bounds. *)
Definition slice (data : list byte) (lo hi : Z) : outcome (list byte) :=
  if (0 <=? lo) && (lo <=? hi) && (hi <=? len data)
  then Done (sub data lo hi)
  else Panic.

(** [data[lo:]]. *)
Definition sliceFrom (data : list byte) (lo : Z) : outcome (list byte) :=
  slice data lo (len data).

(** [binary.BigEndian.Uint16(b)]: reads [b[1]] and [b[0]]. *)
Definition Uint16 (b : list byte) : outcome Z :=
  (lo <- index b 1 ;;
   hi <- index b 0 ;;
   Done (be_uint16 hi lo))%outcome.

(** [%d] of a non-negative integer. *)
Fixpoint decimalAux (fuel : nat) (n : Z) (acc : list byte) : list byte :=
  match fuel with
  | O => acc
  | S fuel' =>
      let acc' := NetIP.digit (n mod 10) :: acc in
      if n <? 10 then acc' else decimalAux fuel' (n / 10) acc'
  end.

Definition decimal (n : Z) : list byte := decimalAux 20 n [].

(** [fmt.Sprintf("%s:%d", targetAddr, port)]. *)
Definition hostPort (targetAddr : list byte) (port : Z) : list byte :=
  targetAddr ++ [NetIP.chColon] ++ decimal port.

(* ================================================================== *)
(** ** The datagram relay: processUDPPacket and buildUDPReply *)

Module UDP.

Local Open Scope outcome_scope.

(** [*net.UDPAddr] of the sender of a datagram. *)
Record UDPAddr : Type := mkUDPAddr { IP : list byte; Port : Z }.

(** What the parsing part of [processUDPPacket] leaves in its local
    variables. *)
Record header : Type := mkHeader {
  addrType   : byte;
  targetAddr : list byte;
  headerLen  : Z;
  targetPort : Z;
  payload    : list byte
}.

(** main.go 300-316: length, RSV and FRAG checks. *)
Definition checkEnvelope (data : list byte) : outcome unit :=
  if len data <? 10 then Dropped
  else
    d0 <- index data 0 ;;
    if negb (Byte.eqb d0 x00) then Dropped
    else
      d1 <- index data 1 ;;
      if negb (Byte.eqb d1 x00) then Dropped
      else
        frag <- index data 2 ;;
        if negb (Byte.eqb frag x00) then Dropped
        else Done tt.

(** main.go 322-351: the switch on the address type, giving
    [targetAddr] and [headerLen]. *)
Definition decodeAddress (data : list byte) (addrType : byte)
  : outcome (list byte * Z) :=
  if Byte.eqb addrType ipv4Address then
    if len data <? 10 then Dropped
    else
      a <- slice data 4 8 ;;
      Done (NetIP.String a, 10)
  else if Byte.eqb addrType domainName then
    if len data <? 5 then Dropped
    else
      d4 <- index data 4 ;;
      let domainLen := byte_to_Z d4 in
      if len data <? 7 + domainLen then Dropped
      else
        s <- slice data 5 (5 + domainLen) ;;
        Done (s, 7 + domainLen)
  else if Byte.eqb addrType ipv6Address then
    if len data <? 22 then Dropped
    else
      a <- slice data 4 20 ;;
      Done (NetIP.String a, 22)
  else Dropped.

(** main.go 318-358: address type, address, port and payload. *)
Definition decodeTarget (data : list byte) : outcome header :=
  addrType <- index data 3 ;;
  '(targetAddr, headerLen) <- decodeAddress data addrType ;;
  let portOffset := headerLen - 2 in
  pb <- slice data portOffset (portOffset + 2) ;;
  targetPort <- Uint16 pb ;;
  payload <- sliceFrom data headerLen ;;
  Done (mkHeader addrType targetAddr headerLen targetPort payload).

(** main.go 300-358: everything [processUDPPacket] does before it
    touches the network. *)
Definition parseUDPPacket (data : list byte) : outcome header :=
  _ <- checkEnvelope data ;;
  decodeTarget data.

(** main.go 406-433. *)
Definition buildUDPReply (targetAddr : list byte) (targetPort : Z)
           (addrType : byte) (payload : list byte) : list byte :=
  let reply := [x00; x00; x00] in
  let reply := reply ++ [addrType] in
  let reply :=
    if Byte.eqb addrType ipv4Address then
      reply ++ NetIP.To4 (NetIP.ParseIP targetAddr)
    else if Byte.eqb addrType domainName then
      (reply ++ [byte_of_Z (len targetAddr)]) ++ targetAddr
    else if Byte.eqb addrType ipv6Address then
      reply ++ NetIP.To16 (NetIP.ParseIP targetAddr)
    else reply in
  let reply := reply ++ putUint16 targetPort in
  reply ++ payload.

(** The network as [processUDPPacket] meets it: which calls succeed
    for a destination, and the datagram the destination sends back
    before the read deadline, if any. *)
Record UDPNet : Type := mkUDPNet {
  resolveUDPAddr : list byte -> bool;
  dialUDP        : list byte -> bool;
  tempWrite      : list byte -> list byte -> bool;
  tempRead       : list byte -> list byte -> option (list byte);
  writeToUDP     : list byte -> UDPAddr -> bool
}.

(** Calls on sockets, in program order. *)
Inductive event : Type :=
| EvDialUDP (target : list byte)
| EvWrite (target payload : list byte)
| EvSetReadDeadline (target : list byte) (seconds : Z)
| EvRead (target : list byte)
| EvWriteToUDP (reply : list byte) (clientAddr : UDPAddr)
| EvClose (target : list byte).

(** main.go 360-403: forwarding, the bounded wait and the reply.  The
    deferred [tempConn.Close()] ends every path after the dial. *)
Definition forward (net : UDPNet) (h : header) (clientAddr : UDPAddr)
  : list event :=
  let target := hostPort (targetAddr h) (targetPort h) in
  if negb (resolveUDPAddr net target) then []
  else if negb (dialUDP net target) then [EvDialUDP target]
  else
    let opened := [EvDialUDP target; EvWrite target (payload h)] in
    if negb (tempWrite net target (payload h))
    then opened ++ [EvClose target]
    else
      let waited := opened ++ [EvSetReadDeadline target 5; EvRead target] in
      match tempRead net target (payload h) with
      | None => waited ++ [EvClose target]
      | Some datagram =>
          let replyBuf := firstn (Z.to_nat 65535) datagram in
          let reply := buildUDPReply (targetAddr h) (targetPort h)
                                     (addrType h) replyBuf in
          waited ++ [EvWriteToUDP reply clientAddr; EvClose target]
      end.

(** [processUDPPacket]: [Done evs] when it returns having made the
    calls [evs]; a dropped packet makes none. *)
Definition processUDPPacket (net : UDPNet) (data : list byte)
           (clientAddr : UDPAddr) : outcome (list event) :=
  match parseUDPPacket data with
  | Done h => Done (forward net h clientAddr)
  | Dropped => Done []
  | Panic => Panic
  end.

(** The datagrams sent back on the shared relay socket. *)
Definition repliesTo (evs : list event) : list (list byte * UDPAddr) :=
  flat_map (fun e => match e with
                     | EvWriteToUDP r c => [(r, c)]
                     | _ => []
                     end) evs.

(** *** The address codec of the datagram path *)

(** A destination address as the envelope carries it: the four bytes of
    an IPv4 address, the sixteen bytes of an IPv6 address, or the bytes
    of a domain name. *)
Inductive TargetAddress : Type :=
| IPv4 (a : list byte)
| IPv6 (a : list byte)
| Domain (name : list byte).

Definition wellFormed (ta : TargetAddress) : Prop :=
  match ta with
  | IPv4 a => length a = 4%nat
  | IPv6 a => length a = 16%nat
  | Domain name => len name <= 255
  end.

(** The address-type byte of an address. *)
Definition tagOf (ta : TargetAddress) : byte :=
  match ta with
  | IPv4 _ => ipv4Address
  | IPv6 _ => ipv6Address
  | Domain _ => domainName
  end.

(** The Go string [processUDPPacket] keeps in [targetAddr]. *)
Definition textOf (ta : TargetAddress) : list byte :=
  match ta with
  | IPv4 a => NetIP.String a
  | IPv6 a => NetIP.String a
  | Domain name => name
  end.

(** The address field of the envelope. *)
Definition wireOf (ta : TargetAddress) : list byte :=
  match ta with
  | IPv4 a => a
  | IPv6 a => a
  | Domain name => byte_of_Z (len name) :: name
  end.


(** Encoding is [buildUDPReply] on the variables of the address. *)
Definition encode (ta : TargetAddress) (port : Z) (payload : list byte)
  : list byte :=
  buildUDPReply (textOf ta) port (tagOf ta) payload.

End UDP.

(* ================================================================== *)
(** ** Control connections: handshake, request, relay *)

Module TCP.

(** The errors the functions of main.go return, one per message. *)
Inductive error : Type :=
| ErrReadHandshake                      (* failed to read handshake *)
| ErrVersion (version : byte)           (* unsupported SOCKS version *)
| ErrReadMethods                        (* failed to read methods *)
| ErrReadRequest                        (* failed to read request *)
| ErrUnsupportedCommand (cmd : byte)    (* unsupported command *)
| ErrReadIPv4                           (* failed to read IPv4 address *)
| ErrReadDomainLength                   (* failed to read domain length *)
| ErrReadDomain                         (* failed to read domain *)
| ErrReadIPv6                           (* failed to read IPv6 address *)
| ErrUnsupportedAddressType (addrType : byte) (* unsupported address type *)
| ErrReadPort                           (* failed to read port *)
| ErrConnect (target : list byte)       (* failed to connect to target *)
| ErrWrite                              (* the error of conn.Write, as is *)
| ErrUDPAssociateReply.                 (* failed to send UDP ASSOCIATE reply *)

(** The two connections of a session. *)
Inductive connId : Type := Control | Target.

(** What [handleRequest] returns as [targetConn]: the dialed
    connection, or [&dummyConn{conn}] around the control connection. *)
Inductive targetConn : Type :=
| RealTarget (target : list byte)
| DummyConn.

(** Calls on the connections, in the order they happen. *)
Inductive event : Type :=
| EvWrite (c : connId) (b : list byte) (ok : bool)
| EvDial (target : list byte) (ok : bool)
| EvClose (c : connId).

(** One end of a connection as the server sees it: the bytes the peer
    has sent and the server has not read, whether the peer has closed
    its sending side, and whether the successive [Write] calls fail
    ([true] is an error; when the list is used up they succeed). *)
Record ConnState : Type := mkConn {
  pending   : list byte;
  eof       : bool;
  writeErrs : list bool
}.

Record World : Type := mkWorld {
  control : ConnState;
  target  : ConnState;
  dialOK  : list byte -> bool;   (* does net.Dial("tcp", target) succeed *)
  udpPort : Z;                   (* the port of udpConn.LocalAddr() *)
  trace   : list event
}.

Definition getConn (c : connId) (w : World) : ConnState :=
  match c with Control => control w | Target => target w end.

Definition setConn (c : connId) (s : ConnState) (w : World) : World :=
  match c with
  | Control => mkWorld s (target w) (dialOK w) (udpPort w) (trace w)
  | Target => mkWorld (control w) s (dialOK w) (udpPort w) (trace w)
  end.

Definition emit (e : event) (w : World) : World :=
  mkWorld (control w) (target w) (dialOK w) (udpPort w) (trace w ++ [e]).

(** A call returns a value, returns an error, or never returns. *)
Inductive result (A : Type) : Type :=
| Ok (a : A)
| Err (e : error)
| Blocked.
Arguments Ok {A} a.
Arguments Err {A} e.
Arguments Blocked {A}.

Definition M (A : Type) : Type := World -> result A * World.

Definition ret {A : Type} (a : A) : M A := fun w => (Ok a, w).

Definition fail {A : Type} (e : error) : M A := fun w => (Err e, w).

Definition bind {A B : Type} (m : M A) (f : A -> M B) : M B :=
  fun w =>
    match m w with
    | (Ok a, w') => f a w'
    | (Err e, w') => (Err e, w')
    | (Blocked, w') => (Blocked, w')
    end.

(** The [error] a call returns, as a value ([None] is [nil]). *)
Definition errOf {A : Type} (m : M A) : M (option error) :=
  fun w =>
    match m w with
    | (Ok _, w') => (Ok None, w')
    | (Err e, w') => (Ok (Some e), w')
    | (Blocked, w') => (Blocked, w')
    end.

Declare Scope conn_scope.
Delimit Scope conn_scope with conn.
Notation "x <- m ;; k" := (bind m (fun x => k))
  (at level 61, m at next level, right associativity) : conn_scope.
Notation "' pat <- m ;; k" := (bind m (fun x => match x with pat => k end))
  (at level 61, pat pattern, m at next level, right associativity) : conn_scope.
Notation "m ;;; k" := (bind m (fun _ => k))
  (at level 61, right associativity) : conn_scope.
Local Open Scope conn_scope.

(** [io.ReadFull(conn, make([]byte, n))]: the buffer and whether the
    error is non-nil.  With [n] bytes pending they are taken; at end
    of stream what is pending is taken, the rest of the buffer keeps
    its zeros and the call fails; otherwise the call waits for ever.
    A buffer of length zero returns at once. *)
Definition readFull (c : connId) (n : Z) : M (list byte * bool) :=
  fun w =>
    let s := getConn c w in
    if n <=? len (pending s) then
      (Ok (firstn (Z.to_nat n) (pending s), false),
       setConn c (mkConn (skipn (Z.to_nat n) (pending s)) (eof s) (writeErrs s)) w)
    else if eof s then
      (Ok (pending s ++ zeros (n - len (pending s)), true),
       setConn c (mkConn [] (eof s) (writeErrs s)) w)
    else (Blocked, w).

(** [if _, err := io.ReadFull(conn, buf); err != nil { return e }]. *)
Definition readOr (e : error) (c : connId) (n : Z) : M (list byte) :=
  '(buf, failed) <- readFull c n ;;
  if failed : bool then fail e else ret buf.

(** [conn.Write(b)] on a real connection: [true] when it failed. *)
Definition connWrite (c : connId) (b : list byte) : M bool :=
  fun w =>
    let s := getConn c w in
    let failed := match writeErrs s with [] => false | f :: _ => f end in
    (Ok failed,
     emit (EvWrite c b (negb failed))
          (setConn c (mkConn (pending s) (eof s) (tl (writeErrs s))) w)).

(** [_, err := conn.Write(b); return err]. *)
Definition writeOr (e : error) (c : connId) (b : list byte) : M unit :=
  failed <- connWrite c b ;;
  if failed : bool then fail e else ret tt.

Definition connClose (c : connId) : M unit :=
  fun w => (Ok tt, emit (EvClose c) w).

Definition dial (target : list byte) : M bool :=
  fun w => (Ok (dialOK w target), emit (EvDial target (dialOK w target)) w).

Definition getUDPPort : M Z := fun w => (Ok (udpPort w), w).

(** main.go 86-109. *)
Definition handshake : M unit :=
  buf <- readOr ErrReadHandshake Control 2 ;;
  let version := nth 0 buf x00 in
  let nMethods := nth 1 buf x00 in
  if negb (Byte.eqb version socks5Version) then fail (ErrVersion version)
  else
    readOr ErrReadMethods Control (byte_to_Z nMethods) ;;;
    writeOr ErrWrite Control [socks5Version; noAuth].

(** main.go 197-209. *)
Definition sendReply (rep : byte) : M unit :=
  let reply := [socks5Version; rep; x00; x01; x00; x00; x00; x00; x00; x00] in
  writeOr ErrWrite Control reply.

(** main.go 230-271.  The results of the reads are not looked at. *)
Definition handleUDPAssociate (addrType : byte) : M targetConn :=
  (if Byte.eqb addrType ipv4Address then
     readFull Control 4 ;;; ret tt
   else if Byte.eqb addrType domainName then
     '(lenBuf, _) <- readFull Control 1 ;;
     readFull Control (byte_to_Z (nth 0 lenBuf x00)) ;;; ret tt
   else if Byte.eqb addrType ipv6Address then
     readFull Control 16 ;;; ret tt
   else ret tt) ;;;
  readFull Control 2 ;;;
  port <- getUDPPort ;;
  let reply := [socks5Version; x00; x00; x01] in
  let reply := reply ++ [x00; x00; x00; x00] in
  let portBytes := putUint16 (uint16 port) in
  let reply := reply ++ portBytes in
  writeOr ErrUDPAssociateReply Control reply ;;;
  ret DummyConn.

(** main.go 111-195. *)
Definition handleRequest : M targetConn :=
  buf <- readOr ErrReadRequest Control 4 ;;
  let version := nth 0 buf x00 in
  let cmd := nth 1 buf x00 in
  let addrType := nth 3 buf x00 in
  if negb (Byte.eqb version socks5Version) then fail (ErrVersion version)
  else
    (* the switch on the command: [None] goes on with CONNECT *)
    returned <-
      (if Byte.eqb cmd connectCmd then ret None
       else if Byte.eqb cmd udpAssociate then
         c <- handleUDPAssociate addrType ;; ret (Some c)
       else
         errOf (sendReply x07) ;;; fail (ErrUnsupportedCommand cmd)) ;;
    match returned with
    | Some c => ret c
    | None =>
        targetAddr <-
          (if Byte.eqb addrType ipv4Address then
             addr <- readOr ErrReadIPv4 Control 4 ;;
             ret (NetIP.String addr)
           else if Byte.eqb addrType domainName then
             lenBuf <- readOr ErrReadDomainLength Control 1 ;;
             domain <- readOr ErrReadDomain Control
                              (byte_to_Z (nth 0 lenBuf x00)) ;;
             ret domain
           else if Byte.eqb addrType ipv6Address then
             addr <- readOr ErrReadIPv6 Control 16 ;;
             ret (NetIP.String addr)
           else
             errOf (sendReply x08) ;;;
             fail (ErrUnsupportedAddressType addrType)) ;;
        portBuf <- readOr ErrReadPort Control 2 ;;
        let port := be_uint16 (nth 0 portBuf x00) (nth 1 portBuf x00) in
        let target := hostPort targetAddr port in
        connected <- dial target ;;
        if negb connected then
          errOf (sendReply x05) ;;; fail (ErrConnect target)
        else
          err <- errOf (sendReply x00) ;;
          match err with
          | Some e => connClose Target ;;; fail e
          | None => ret (RealTarget target)
          end
    end.

(** *** relay and the session *)

(** [c.Read(buf)] of [io.Copy], whose buffer holds 32 KiB. *)
Inductive readResult : Type :=
| ReadData (b : list byte)
| ReadEOF
| ReadWait.                       (* nothing to read yet: no return *)

Definition connRead (c : connId) (w : World) : readResult * World :=
  let s := getConn c w in
  match pending s with
  | [] => ((if eof s then ReadEOF else ReadWait), w)
  | _ :: _ =>
      (ReadData (firstn (Z.to_nat 32768) (pending s)),
       setConn c (mkConn (skipn (Z.to_nat 32768) (pending s))
                         (eof s) (writeErrs s)) w)
  end.

(** main.go 277-280: [dummyConn.Read] reads the embedded connection. *)
Definition targetRead (t : targetConn) : World -> readResult * World :=
  match t with
  | RealTarget _ => connRead Target
  | DummyConn => connRead Control
  end.

(** [Write] as [io.Copy] uses it: the count written and whether the
    error is non-nil. *)
Definition copyWrite (c : connId) (b : list byte) (w : World)
  : (Z * bool) * World :=
  match connWrite c b w with
  | (Ok failed, w') => ((if failed then 0 else len b, failed), w')
  | (_, w') => ((0, true), w')
  end.

(** main.go 282-284: [dummyConn.Write] is [return 0, nil]. *)
Definition targetWrite (t : targetConn) (b : list byte) (w : World)
  : (Z * bool) * World :=
  match t with
  | RealTarget _ => copyWrite Target b w
  | DummyConn => ((0, false), w)
  end.

(** [targetConn.Close()]; [dummyConn] has the [Close] of the
    connection it embeds. *)
Definition targetClose (t : targetConn) : M unit :=
  match t with
  | RealTarget _ => connClose Target
  | DummyConn => connClose Control
  end.

(** One turn of the loop of [io.Copy]: a [Read], and a [Write] of
    what was read.  The loop ends ([true]) at end of stream, on a
    write error, and on a short write. *)
Definition copyTurn (read : World -> readResult * World)
           (write : list byte -> World -> (Z * bool) * World)
           (w : World) : bool * World :=
  match read w with
  | (ReadWait, w') => (false, w')
  | (ReadEOF, w') => (true, w')
  | (ReadData b, w') =>
      match write b w' with
      | ((nw, failed), w'') =>
          if failed : bool then (true, w'')
          else if negb (nw =? len b) then (true, w'')
          else (false, w'')
      end
  end.

(** What happens while [relay] runs, in order: the peers send or
    close, each of the two goroutines takes a turn of its [io.Copy],
    and [relay] itself receives from [done]. *)
Inductive action : Type :=
| ClientSends (b : list byte)
| ClientCloses
| TargetSends (b : list byte)
| TargetCloses
| CopyToTarget          (* io.Copy(target, client) *)
| CopyToClient          (* io.Copy(client, target) *)
| Receive.              (* <-done *)

Definition peerSends (c : connId) (b : list byte) (w : World) : World :=
  let s := getConn c w in
  if eof s then w
  else setConn c (mkConn (pending s ++ b) (eof s) (writeErrs s)) w.

Definition peerCloses (c : connId) (w : World) : World :=
  let s := getConn c w in
  setConn c (mkConn (pending s) true (writeErrs s)) w.

(** main.go 211-228, under a schedule.  [toTargetDone] and
    [toClientDone] say that the goroutine has sent on [done].  A
    schedule that ends before [relay] receives leaves it waiting. *)
Fixpoint relayRun (sched : list action) (t : targetConn)
         (toTargetDone toClientDone : bool) (w : World)
  : result unit * World :=
  match sched with
  | [] => (Blocked, w)
  | a :: sched' =>
      match a with
      | ClientSends b =>
          relayRun sched' t toTargetDone toClientDone (peerSends Control b w)
      | ClientCloses =>
          relayRun sched' t toTargetDone toClientDone (peerCloses Control w)
      | TargetSends b =>
          relayRun sched' t toTargetDone toClientDone (peerSends Target b w)
      | TargetCloses =>
          relayRun sched' t toTargetDone toClientDone (peerCloses Target w)
      | CopyToTarget =>
          if toTargetDone then relayRun sched' t toTargetDone toClientDone w
          else
            let '(fin, w') := copyTurn (connRead Control) (targetWrite t) w in
            relayRun sched' t fin toClientDone w'
      | CopyToClient =>
          if toClientDone then relayRun sched' t toTargetDone toClientDone w
          else
            let '(fin, w') := copyTurn (targetRead t) (copyWrite Control) w in
            relayRun sched' t toTargetDone fin w'
      | Receive =>
          if toTargetDone || toClientDone then (Ok tt, w)
          else relayRun sched' t toTargetDone toClientDone w
      end
  end.

Definition relay (sched : list action) (t : targetConn) : M unit :=
  relayRun sched t false false.

(** A call with its two results, [(value, nil)] or [(nil, err)]. *)
Definition attempt {A : Type} (m : M A) : M (A + error) :=
  fun w =>
    match m w with
    | (Ok a, w') => (Ok (inl a), w')
    | (Err e, w') => (Ok (inr e), w')
    | (Blocked, w') => (Blocked, w')
    end.

(** main.go 65-84.  The deferred calls run when the function returns:
    [targetConn.Close()] first, once it is registered, and
    [conn.Close()] last. *)
Definition handleConnection (sched : list action) : M unit :=
  err <- errOf handshake ;;
  match err with
  | Some _ => connClose Control
  | None =>
      r <- attempt handleRequest ;;
      match r with
      | inr _ => connClose Control
      | inl t =>
          relay sched t ;;;
          targetClose t ;;;
          connClose Control
      end
  end.

(** The byte strings written on a connection, in order. *)
Definition writesOn (c : connId) (evs : list event) : list (list byte) :=
  flat_map (fun e => match e with
                     | EvWrite Control b _ =>
                         match c with Control => [b] | Target => [] end
                     | EvWrite Target b _ =>
                         match c with Control => [] | Target => [b] end
                     | _ => []
                     end) evs.

(** A world where the client has sent [input] and nothing has
    happened yet. *)
Definition start (input : list byte) (closed : bool) (port : Z)
           (reachable : list byte -> bool) : World :=
  mkWorld (mkConn input closed []) (mkConn [] false []) reachable port [].

(** *** The return paths of handleRequest *)

(** The connection reply of the wire protocol:
    [version, reply code, reserved, address type IPv4], the bind
    address and the bind port. *)
Definition connectionReply (rep : byte) (bindAddr : list byte) (bindPort : Z)
  : list byte :=
  [socks5Version; rep; x00; ipv4Address] ++ bindAddr ++ putUint16 bindPort.

Definition zeroAddr : list byte := [x00; x00; x00; x00].

(** The errors that come from a failed [io.ReadFull]. *)
Definition readFailure (e : error) : Prop :=
  match e with
  | ErrReadRequest | ErrReadIPv4 | ErrReadDomainLength | ErrReadDomain
  | ErrReadIPv6 | ErrReadPort => True
  | _ => False
  end.

(** Every way [handleRequest] can end, for a request with command
    [cmd] and address type [addrType] when the relay socket listens on
    [port]: what it returns and the calls it made, in order. *)
Inductive requestPath (cmd addrType : byte) (port : Z)
  : result targetConn -> list event -> Prop :=
| PathWaiting :
    requestPath cmd addrType port Blocked []
| PathReadFailed (e : error) :
    readFailure e ->
    cmd <> udpAssociate \/ e = ErrReadRequest ->
    requestPath cmd addrType port (Err e) []
| PathVersion (v : byte) :
    v <> socks5Version ->
    requestPath cmd addrType port (Err (ErrVersion v)) []
| PathCommand (ok : bool) :
    cmd <> connectCmd -> cmd <> udpAssociate ->
    requestPath cmd addrType port (Err (ErrUnsupportedCommand cmd))
      [EvWrite Control (connectionReply x07 zeroAddr 0) ok]
| PathAddressType (ok : bool) :
    cmd = connectCmd ->
    addrType <> ipv4Address -> addrType <> domainName ->
    addrType <> ipv6Address ->
    requestPath cmd addrType port (Err (ErrUnsupportedAddressType addrType))
      [EvWrite Control (connectionReply x08 zeroAddr 0) ok]
| PathRefused (t : list byte) (ok : bool) :
    cmd = connectCmd ->
    requestPath cmd addrType port (Err (ErrConnect t))
      [EvDial t false; EvWrite Control (connectionReply x05 zeroAddr 0) ok]
| PathConnected (t : list byte) :
    cmd = connectCmd ->
    requestPath cmd addrType port (Ok (RealTarget t))
      [EvDial t true; EvWrite Control (connectionReply x00 zeroAddr 0) true]
| PathReplyLost (t : list byte) :
    cmd = connectCmd ->
    requestPath cmd addrType port (Err ErrWrite)
      [EvDial t true; EvWrite Control (connectionReply x00 zeroAddr 0) false;
       EvClose Target]
| PathAssociated :
    cmd = udpAssociate ->
    requestPath cmd addrType port (Ok DummyConn)
      [EvWrite Control (connectionReply x00 zeroAddr (uint16 port)) true]
| PathAssociateLost :
    cmd = udpAssociate ->
    requestPath cmd addrType port (Err ErrUDPAssociateReply)
      [EvWrite Control (connectionReply x00 zeroAddr (uint16 port)) false].

(** Reading changes neither the calls made so far nor the relay port. *)
Definition quiet (w w' : World) : Prop :=
  trace w' = trace w /\ udpPort w' = udpPort w /\ dialOK w' = dialOK w.

(** The events that are writes. *)
Definition isWrite (e : event) : Prop :=
  match e with
  | EvWrite _ _ _ => True
  | _ => False
  end.

(** A schedule in which the client sends nothing. *)
Definition clientSilent (sched : list action) : Prop :=
  Forall (fun a => match a with ClientSends _ => False | _ => True end) sched.

End TCP.

(* ================================================================== *)
(** ** Host and port of a dial target: net.SplitHostPort

    [net.Dial] and [net.ResolveUDPAddr] take the string built by
    [fmt.Sprintf("%s:%d", targetAddr, port)] apart with
    [net.SplitHostPort] of Go's standard library, modelled here after
    that library. *)

Module NetAddr.

Definition chOpen  : byte := x5b.   (* '[' *)
Definition chClose : byte := x5d.   (* ']' *)

Inductive addrError : Type :=
| MissingPort            (* missing port in address *)
| TooManyColons          (* too many colons in address *)
| MissingBracket         (* missing ']' in address *)
| UnexpectedOpen         (* unexpected '[' in address *)
| UnexpectedClose.       (* unexpected ']' in address *)

(** [bytealg.IndexByteString]. *)
Fixpoint indexByte (c : byte) (s : list byte) : option nat :=
  match s with
  | [] => None
  | x :: s' => if Byte.eqb x c then Some 0%nat
               else option_map S (indexByte c s')
  end.

(** [bytealg.LastIndexByteString]. *)
Fixpoint lastIndexByte (c : byte) (s : list byte) : option nat :=
  match s with
  | [] => None
  | x :: s' =>
      match lastIndexByte c s' with
      | Some i => Some (S i)
      | None => if Byte.eqb x c then Some 0%nat else None
      end
  end.

(** The first part of [SplitHostPort]: the host, and the positions
    [j] and [k] before which no bracket is looked for. *)
Definition splitHost (hostport : list byte) (i : nat)
  : (list byte * nat * nat) + addrError :=
  if Byte.eqb (nth 0 hostport x00) chOpen then
    match indexByte chClose hostport with
    | None => inr MissingBracket
    | Some e =>
        if (e + 1 =? length hostport)%nat then inr MissingPort
        else if (e + 1 =? i)%nat then
          inl (firstn (e - 1) (skipn 1 hostport), 1%nat, (e + 1)%nat)
        else if Byte.eqb (nth (e + 1) hostport x00) NetIP.chColon
             then inr TooManyColons
             else inr MissingPort
    end
  else
    let host := firstn i hostport in
    match indexByte NetIP.chColon host with
    | Some _ => inr TooManyColons
    | None => inl (host, 0%nat, 0%nat)
    end.

(** [net.SplitHostPort]: host and port, or the error. *)
Definition SplitHostPort (hostport : list byte)
  : (list byte * list byte) + addrError :=
  match lastIndexByte NetIP.chColon hostport with
  | None => inr MissingPort
  | Some i =>
      match splitHost hostport i with
      | inr e => inr e
      | inl (host, j, k) =>
          match indexByte chOpen (skipn j hostport) with
          | Some _ => inr UnexpectedOpen
          | None =>
              match indexByte chClose (skipn k hostport) with
              | Some _ => inr UnexpectedClose
              | None => inl (host, skipn (S i) hostport)
              end
          end
      end
  end.

End NetAddr.

(* ================================================================== *)
(** ** The receive loop of the datagram relay: handleUDPRelay *)

Module UDPRelay.

Import UDP.

(** [make([]byte, 65535)]. *)
Definition newBuffer : list byte := zeros 65535.

(** A goroutine started by [go processUDPPacket(buffer[:n], clientAddr)]
    and not run yet: its number, the length [n] of its slice of the
    shared buffer, and the sender. *)
Record task : Type := mkTask {
  taskId   : nat;
  taskLen  : nat;
  taskAddr : UDPAddr
}.

(** The loop and its goroutines: the one buffer all slices alias, the
    number of goroutines started, those that have not run, what the
    others did, in the order they ran, and whether a goroutine has
    panicked, which ends the program. *)
Record loopState : Type := mkLoop {
  buffer  : list byte;
  started : nat;
  waiting : list task;
  handled : list (nat * outcome (list event));
  crashed : bool
}.

Definition initial : loopState := mkLoop newBuffer 0 [] [] false.

(** What happens around the loop, in order: a datagram arrives and
    [ReadFromUDP] returns it, [ReadFromUDP] returns an error, or the
    goroutine with a given number runs [processUDPPacket]. *)
Inductive step : Type :=
| Arrives (datagram : list byte) (from : UDPAddr)
| ReadFails
| Runs (id : nat).

(** [udpConn.ReadFromUDP(buffer)]: the datagram is copied over the
    start of the buffer, cut at the length of the buffer. *)
Definition readFromUDP (buf datagram : list byte) : nat * list byte :=
  let n := Nat.min (length datagram) (length buf) in
  (n, firstn n datagram ++ skipn n buf).

Fixpoint takeTask (id : nat) (ts : list task) : option (task * list task) :=
  match ts with
  | [] => None
  | t :: ts' =>
      if (taskId t =? id)%nat then Some (t, ts')
      else match takeTask id ts' with
           | Some (t', rest) => Some (t', t :: rest)
           | None => None
           end
  end.

(** One turn.  A goroutine reads its slice [buffer[:n]] when it runs:
    it sees the buffer as it is then.  After a panic nothing runs. *)
Definition turn (net : UDPNet) (st : loopState) (a : step) : loopState :=
  if crashed st then st
  else
    match a with
    | Arrives datagram from =>
        let '(n, buf) := readFromUDP (buffer st) datagram in
        mkLoop buf (S (started st))
               (waiting st ++ [mkTask (started st) n from]) (handled st)
               false
    | ReadFails => st
    | Runs id =>
        match takeTask id (waiting st) with
        | None => st
        | Some (t, rest) =>
            let r := processUDPPacket net (firstn (taskLen t) (buffer st))
                                      (taskAddr t) in
            mkLoop (buffer st) (started st) rest
                   (handled st ++ [(taskId t, r)])
                   (match r with Panic => true | _ => false end)
        end
    end.

(** main.go 286-297, along a schedule. *)
Definition handleUDPRelay (net : UDPNet) (sched : list step) : loopState :=
  fold_left (turn net) sched initial.

(** The schedule in which every datagram is handled before the next
    one is read. *)
Fixpoint prompt (from : nat) (packets : list (list byte * UDPAddr)) : list step :=
  match packets with
  | [] => []
  | (d, c) :: rest => Arrives d c :: Runs from :: prompt (S from) rest
  end.

End UDPRelay.

(* ================================================================== *)
(** ** The dispatcher before UDP ASSOCIATE

    The second source file of the repository is main.go without the
    datagram relay; its [handshake], [sendReply], [relay] and
    [handleConnection] are those above, its [handleRequest] knows one
    command. *)

Module TcpOnly.

Import TCP.
Local Open Scope conn_scope.

(** [handleRequest] of the stream-only file (part_000, lines 181-258). *)
Definition handleRequest : M targetConn :=
  buf <- readOr ErrReadRequest Control 4 ;;
  let version := nth 0 buf x00 in
  let cmd := nth 1 buf x00 in
  let addrType := nth 3 buf x00 in
  if negb (Byte.eqb version socks5Version) then fail (ErrVersion version)
  else if negb (Byte.eqb cmd connectCmd) then
    errOf (sendReply x07) ;;; fail (ErrUnsupportedCommand cmd)
  else
    targetAddr <-
      (if Byte.eqb addrType ipv4Address then
         addr <- readOr ErrReadIPv4 Control 4 ;;
         ret (NetIP.String addr)
       else if Byte.eqb addrType domainName then
         lenBuf <- readOr ErrReadDomainLength Control 1 ;;
         domain <- readOr ErrReadDomain Control
                          (byte_to_Z (nth 0 lenBuf x00)) ;;
         ret domain
       else if Byte.eqb addrType ipv6Address then
         addr <- readOr ErrReadIPv6 Control 16 ;;
         ret (NetIP.String addr)
       else
         errOf (sendReply x08) ;;;
         fail (ErrUnsupportedAddressType addrType)) ;;
    portBuf <- readOr ErrReadPort Control 2 ;;
    let port := be_uint16 (nth 0 portBuf x00) (nth 1 portBuf x00) in
    let target := hostPort targetAddr port in
    connected <- dial target ;;
    if negb connected then
      errOf (sendReply x05) ;;; fail (ErrConnect target)
    else
      err <- errOf (sendReply x00) ;;
      match err with
      | Some e => connClose Target ;;; fail e
      | None => ret (RealTarget target)
      end.

End TcpOnly.

(* ================================================================== *)
(** ** Vocabulary of the further properties *)

Module Streams.

Import TCP.

(** The bytes the client sends during a schedule, in order. *)
Definition clientBytes (sched : list action) : list byte :=
  flat_map (fun a => match a with ClientSends b => b | _ => [] end) sched.

(** The bytes the destination sends during a schedule, in order. *)
Definition targetBytes (sched : list action) : list byte :=
  flat_map (fun a => match a with TargetSends b => b | _ => [] end) sched.

(** The bytes handed to [Write] on a connection, in order. *)
Definition written (c : connId) (evs : list event) : list byte :=
  concat (writesOn c evs).

(** No [Write] is set to fail. *)
Definition writesSucceed (w : World) : Prop :=
  writeErrs (control w) = [] /\ writeErrs (target w) = [].

(** The connections closed, in the order of the calls to [Close]. *)
Definition closes (evs : list event) : list connId :=
  flat_map (fun e => match e with EvClose c => [c] | _ => [] end) evs.

End Streams.

(* ================================================================== *)
(** * Properties *)

(** ** Bytes and 16-bit integers *)

Section ByteFacts.

Lemma byte_to_Z_range (b : byte) : 0 <= byte_to_Z b < 256.
Proof.
  unfold byte_to_Z. pose proof (Byte.to_N_bounded b). lia.
Qed.

Lemma byte_of_to_Z (b : byte) : byte_of_Z (byte_to_Z b) = b.
Proof.
  unfold byte_of_Z. pose proof (byte_to_Z_range b) as R.
  rewrite Z.mod_small by exact R.
  unfold byte_to_Z. rewrite N2Z.id, Byte.of_to_N. reflexivity.
Qed.

Lemma byte_to_of_Z (x : Z) : byte_to_Z (byte_of_Z x) = x mod 256.
Proof.
  unfold byte_of_Z, byte_to_Z.
  pose proof (Z.mod_pos_bound x 256 ltac:(lia)) as R.
  destruct (Byte.of_N (Z.to_N (x mod 256))) as [b|] eqn:E.
  - apply Byte.to_of_N in E. rewrite E. lia.
  - apply Byte.of_N_None_iff in E. lia.
Qed.

Lemma byte_to_Z_inj (a b : byte) : byte_to_Z a = byte_to_Z b -> a = b.
Proof.
  intros H. rewrite <- (byte_of_to_Z a), <- (byte_of_to_Z b), H. reflexivity.
Qed.

Lemma be_uint16_eq (hi lo : byte) :
  be_uint16 hi lo = byte_to_Z hi * 256 + byte_to_Z lo.
Proof.
  unfold be_uint16.
  pose proof (byte_to_Z_range hi). pose proof (byte_to_Z_range lo).
  rewrite Z.shiftl_mul_pow2 by lia. change (2 ^ 8) with 256.
  assert (L : Z.land (byte_to_Z lo) (byte_to_Z hi * 256) = 0).
  { apply Z.bits_inj'. intros n Hn. rewrite Z.land_spec, Z.bits_0.
    destruct (Z.ltb_spec n 8).
    - replace (byte_to_Z hi * 256) with (byte_to_Z hi * 2 ^ 8) by reflexivity.
      rewrite Z.mul_pow2_bits_low by lia. apply andb_false_r.
    - rewrite (Z.bits_above_log2 (byte_to_Z lo) n); [reflexivity | lia |].
      destruct (Z.eq_dec (byte_to_Z lo) 0) as [->|]; [simpl; lia|].
      apply Z.log2_lt_pow2; [lia|].
      apply Z.lt_le_trans with (2 ^ 8); [simpl; lia|].
      apply Z.pow_le_mono_r; lia. }
  pose proof (Z.add_lor_land (byte_to_Z lo) (byte_to_Z hi * 256)). lia.
Qed.

Lemma be_uint16_range (hi lo : byte) : 0 <= be_uint16 hi lo < 65536.
Proof.
  rewrite be_uint16_eq.
  pose proof (byte_to_Z_range hi). pose proof (byte_to_Z_range lo). lia.
Qed.

Lemma putUint16_be (hi lo : byte) : putUint16 (be_uint16 hi lo) = [hi; lo].
Proof.
  unfold putUint16. rewrite be_uint16_eq.
  pose proof (byte_to_Z_range hi). pose proof (byte_to_Z_range lo).
  rewrite Z.shiftr_div_pow2 by lia. change (2 ^ 8) with 256.
  f_equal; [|f_equal].
  - replace ((byte_to_Z hi * 256 + byte_to_Z lo) / 256) with (byte_to_Z hi).
    + apply byte_of_to_Z.
    + symmetry. rewrite Z.div_add_l by lia. rewrite Z.div_small by lia. lia.
  - apply byte_to_Z_inj. rewrite byte_to_of_Z.
    rewrite Z.add_comm, Z.mod_add by lia. rewrite Z.mod_small by lia.
    reflexivity.
Qed.

Lemma be_putUint16 (v : Z) :
  0 <= v < 65536 ->
  be_uint16 (byte_of_Z (Z.shiftr v 8)) (byte_of_Z v) = v.
Proof.
  intros R. rewrite be_uint16_eq, !byte_to_of_Z.
  rewrite Z.shiftr_div_pow2 by lia. change (2 ^ 8) with 256.
  rewrite (Z.mod_small (v / 256)).
  - pose proof (Z.div_mod v 256 ltac:(lia)). lia.
  - split; [apply Z.div_pos; lia|]. apply Z.div_lt_upper_bound; lia.
Qed.

End ByteFacts.

(** ** Checked accesses *)

Section SliceFacts.

Lemma len_nonneg {A : Type} (s : list A) : 0 <= len s.
Proof. unfold len. lia. Qed.

Lemma len_app {A : Type} (s t : list A) : len (s ++ t) = len s + len t.
Proof. unfold len. rewrite length_app. lia. Qed.

Lemma len_sub (s : list byte) (lo hi : Z) :
  0 <= lo -> lo <= hi -> hi <= len s -> len (sub s lo hi) = hi - lo.
Proof.
  unfold len, sub. intros. rewrite length_firstn, length_skipn. lia.
Qed.

Lemma index_ok (s : list byte) (i : Z) :
  0 <= i < len s -> index s i = Done (nth (Z.to_nat i) s x00).
Proof.
  intros H. unfold index.
  destruct (Z.leb_spec 0 i); [|lia].
  destruct (Z.ltb_spec i (len s)); [reflexivity|lia].
Qed.

Lemma slice_ok (s : list byte) (lo hi : Z) :
  0 <= lo -> lo <= hi -> hi <= len s -> slice s lo hi = Done (sub s lo hi).
Proof.
  intros. unfold slice.
  destruct (Z.leb_spec 0 lo); [|lia].
  destruct (Z.leb_spec lo hi); [|lia].
  destruct (Z.leb_spec hi (len s)); [reflexivity|lia].
Qed.

Lemma Uint16_ok (b : list byte) :
  len b = 2 -> Uint16 b = Done (be_uint16 (nth 0 b x00) (nth 1 b x00)).
Proof.
  intros H. unfold Uint16. rewrite !index_ok by lia. reflexivity.
Qed.

Lemma sub_app_skip (p s : list byte) (lo hi : Z) :
  len p <= lo -> lo <= hi ->
  sub (p ++ s) lo hi = sub s (lo - len p) (hi - len p).
Proof.
  unfold sub, len. intros.
  rewrite skipn_app.
  rewrite skipn_all2 by lia. simpl.
  replace (Z.to_nat lo - length p)%nat with (Z.to_nat (lo - Z.of_nat (length p))) by lia.
  f_equal. lia.
Qed.

Lemma sub_prefix (p s : list byte) : sub (p ++ s) 0 (len p) = p.
Proof.
  unfold sub, len. simpl. rewrite Z.sub_0_r, Nat2Z.id.
  rewrite firstn_app, Nat.sub_diag, firstn_all. simpl. apply app_nil_r.
Qed.

Lemma sub_suffix (p s : list byte) : sub (p ++ s) (len p) (len (p ++ s)) = s.
Proof.
  unfold sub, len. rewrite Nat2Z.id, skipn_app, Nat.sub_diag, skipn_all.
  simpl. rewrite length_app. 
  replace (Z.to_nat (Z.of_nat (length p + length s) - Z.of_nat (length p))) with (length s) by lia.
  apply firstn_all.
Qed.

End SliceFacts.

Section ParserBounds.
Import UDP.

(** The length, RSV and FRAG checks never index outside the packet. *)
Lemma checkEnvelope_cases (data : list byte) :
  checkEnvelope data = Dropped \/
  (checkEnvelope data = Done tt /\ 10 <= len data /\
   nth 0 data x00 = x00 /\ nth 1 data x00 = x00 /\ nth 2 data x00 = x00).
Proof.
  unfold checkEnvelope.
  destruct (Z.ltb_spec (len data) 10) as [|L]; [now left|].
  rewrite !index_ok by lia. cbn [obind].
  change (Z.to_nat 0) with 0%nat. change (Z.to_nat 1) with 1%nat.
  change (Z.to_nat 2) with 2%nat.
  destruct (Byte.eqb (nth 0 data x00) x00) eqn:E0; cbn [negb]; [|now left].
  destruct (Byte.eqb (nth 1 data x00) x00) eqn:E1; cbn [negb]; [|now left].
  destruct (Byte.eqb (nth 2 data x00) x00) eqn:E2; cbn [negb]; [|now left].
  right. repeat split; auto using Byte.byte_dec_bl.
Qed.

(** The switch on the address type, on a packet of ten bytes or more. *)
Lemma decodeAddress_cases (data : list byte) (t : byte) :
  5 <= len data ->
  decodeAddress data t = Dropped \/
  exists a hl, decodeAddress data t = Done (a, hl) /\ 7 <= hl <= len data.
Proof.
  intros L. unfold decodeAddress.
  destruct (Byte.eqb t ipv4Address).
  { destruct (Z.ltb_spec (len data) 10); [now left|].
    rewrite slice_ok by lia. right. do 2 eexists. split; [reflexivity|lia]. }
  destruct (Byte.eqb t domainName).
  { destruct (Z.ltb_spec (len data) 5); [now left|].
    rewrite index_ok by lia. cbn [obind].
    pose proof (byte_to_Z_range (nth (Z.to_nat 4) data x00)).
    destruct (Z.ltb_spec (len data) (7 + byte_to_Z (nth (Z.to_nat 4) data x00)));
      [now left|].
    rewrite slice_ok by lia. right. do 2 eexists. split; [reflexivity|lia]. }
  destruct (Byte.eqb t ipv6Address).
  { destruct (Z.ltb_spec (len data) 22); [now left|].
    rewrite slice_ok by lia. right. do 2 eexists. split; [reflexivity|lia]. }
  now left.
Qed.

Lemma decodeTarget_cases (data : list byte) :
  5 <= len data ->
  decodeTarget data = Dropped \/
  exists h, decodeTarget data = Done h /\
    7 <= headerLen h <= len data /\
    addrType h = nth 3 data x00 /\
    targetPort h = be_uint16 (nth (Z.to_nat (headerLen h - 2)) data x00)
                             (nth (Z.to_nat (headerLen h - 1)) data x00) /\
    payload h = skipn (Z.to_nat (headerLen h)) data.
Proof.
  intros L. unfold decodeTarget.
  rewrite index_ok by lia. cbn [obind].
  destruct (decodeAddress_cases data (nth (Z.to_nat 3) data x00) L)
    as [-> | (a & hl & -> & Hhl)]; [now left|].
  cbn [obind]. right.
  rewrite slice_ok by lia. cbn [obind].
  rewrite Uint16_ok by (rewrite len_sub; lia). cbn [obind].
  unfold sliceFrom. rewrite slice_ok by lia. cbn [obind].
  eexists. split; [reflexivity|]. cbn [headerLen addrType targetPort payload].
  repeat split; try lia.
  - unfold sub. rewrite !nth_firstn.
    replace (Z.to_nat (hl - 2 + 2 - (hl - 2))) with 2%nat by lia.
    cbn [Nat.ltb Nat.leb].
    rewrite !nth_skipn. f_equal; f_equal; lia.
  - unfold sub. rewrite firstn_all2; [reflexivity|].
    rewrite length_skipn. unfold len. lia.
Qed.

End ParserBounds.

(** ** The datagram parser *)

Section DatagramParser.
Import UDP.

Lemma parseUDPPacket_short (data : list byte) :
  len data < 10 -> parseUDPPacket data = Dropped.
Proof.
  intros H. unfold parseUDPPacket, checkEnvelope.
  destruct (Z.ltb_spec (len data) 10); [reflexivity|lia].
Qed.

(** The parser on any packet: dropped, or a header inside the packet. *)
Lemma parseUDPPacket_cases (data : list byte) :
  parseUDPPacket data = Dropped \/
  exists h, parseUDPPacket data = Done h /\
    10 <= len data /\
    7 <= headerLen h <= len data /\
    addrType h = nth 3 data x00 /\
    targetPort h = be_uint16 (nth (Z.to_nat (headerLen h - 2)) data x00)
                             (nth (Z.to_nat (headerLen h - 1)) data x00) /\
    payload h = skipn (Z.to_nat (headerLen h)) data.
Proof.
  unfold parseUDPPacket.
  destruct (checkEnvelope_cases data) as [-> | (-> & L & _)]; [now left|].
  cbn [obind].
  destruct (decodeTarget_cases data ltac:(lia)) as [-> | (h & -> & B)];
    [now left|].
  right. exists h. intuition.
Qed.

(** [processUDPPacket] returns on every packet. *)
Lemma processUDPPacket_no_panic (net : UDPNet) (data : list byte)
      (clientAddr : UDPAddr) :
  exists evs, processUDPPacket net data clientAddr = Done evs.
Proof.
  unfold processUDPPacket.
  destruct (parseUDPPacket_cases data) as [-> | (h & -> & _)]; eauto.
Qed.

(** C10.  Whatever bytes arrive, the parser of [processUDPPacket]
    either drops the packet or ends with a header length between 7 and
    the length of the packet, the packet holding ten bytes at least:
    the reserved bytes, the fragment byte, the address type, the
    address, the two port bytes at [headerLen-2] and the payload from
    [headerLen] on are all inside the packet.  Every index and slice
    bound is checked in [parseUDPPacket]; none is ever outside the
    packet. *)
Theorem parser_never_reads_out_of_bounds (data : list byte) :
  parseUDPPacket data = Dropped \/
  exists h, parseUDPPacket data = Done h /\
    10 <= len data /\
    7 <= headerLen h <= len data /\
    addrType h = nth 3 data x00 /\
    targetPort h = be_uint16 (nth (Z.to_nat (headerLen h - 2)) data x00)
                             (nth (Z.to_nat (headerLen h - 1)) data x00) /\
    payload h = skipn (Z.to_nat (headerLen h)) data.
Proof. exact (parseUDPPacket_cases data). Qed.

(** C5 (the code differs).  A domain-name envelope of 8 bytes (one
    letter, empty payload) and one of 9 bytes (two letters) have
    exactly the minimum size of their address type, and lines 318-358
    decode them; [processUDPPacket] drops both at its first test,
    [len(data) < 10], and nothing is forwarded. *)
Theorem short_domain_envelope_is_dropped (net : UDPNet) (clientAddr : UDPAddr) :
  let p8 := [x00; x00; x00; domainName; x01; x61; x00; x35] in
  let p9 := [x00; x00; x00; domainName; x02; x61; x62; x00; x35] in
  decodeTarget p8 = Done (mkHeader domainName [x61] 8 53 []) /\
  decodeTarget p9 = Done (mkHeader domainName [x61; x62] 9 53 []) /\
  parseUDPPacket p8 = Dropped /\
  parseUDPPacket p9 = Dropped /\
  processUDPPacket net p8 clientAddr = Done [] /\
  processUDPPacket net p9 clientAddr = Done [].
Proof.
  cbv zeta. repeat split; reflexivity.
Qed.

End DatagramParser.

(** ** Reads and writes of a session *)

Section SessionFacts.
Import TCP.
Local Open Scope conn_scope.

Lemma getConn_setConn (c : connId) (s : ConnState) (w : World) :
  getConn c (setConn c s w) = s.
Proof. destruct c; reflexivity. Qed.

Lemma trace_setConn (c : connId) (s : ConnState) (w : World) :
  trace (setConn c s w) = trace w.
Proof. destruct c; reflexivity. Qed.

Lemma udpPort_setConn (c : connId) (s : ConnState) (w : World) :
  udpPort (setConn c s w) = udpPort w.
Proof. destruct c; reflexivity. Qed.

(** [io.ReadFull] when the bytes are there. *)
Lemma readFull_take (c : connId) (w : World) (n : Z) (b rest : list byte) :
  pending (getConn c w) = b ++ rest ->
  len b = n ->
  readFull c n w =
    (Ok (b, false),
     setConn c (mkConn rest (eof (getConn c w)) (writeErrs (getConn c w))) w).
Proof.
  intros H <-. unfold readFull. rewrite H, len_app.
  pose proof (len_nonneg rest).
  destruct (Z.leb_spec (len b) (len b + len rest)); [|lia].
  unfold len. rewrite Nat2Z.id, firstn_app, Nat.sub_diag, firstn_all.
  rewrite skipn_app, Nat.sub_diag, skipn_all. simpl. rewrite app_nil_r.
  reflexivity.
Qed.

(** [io.ReadFull] at the end of the stream with too few bytes. *)
Lemma readFull_short (c : connId) (w : World) (n : Z) :
  len (pending (getConn c w)) < n ->
  eof (getConn c w) = true ->
  readFull c n w =
    (Ok (pending (getConn c w) ++ zeros (n - len (pending (getConn c w))), true),
     setConn c (mkConn [] true (writeErrs (getConn c w))) w).
Proof.
  intros H E. unfold readFull.
  destruct (Z.leb_spec n (len (pending (getConn c w)))); [lia|].
  rewrite E. reflexivity.
Qed.

Lemma readOr_take (e : error) (c : connId) (w : World) (n : Z)
      (b rest : list byte) :
  pending (getConn c w) = b ++ rest ->
  len b = n ->
  readOr e c n w =
    (Ok b,
     setConn c (mkConn rest (eof (getConn c w)) (writeErrs (getConn c w))) w).
Proof.
  intros H L. unfold readOr, bind. rewrite (readFull_take c w n b rest H L).
  reflexivity.
Qed.

Lemma readOr_short (e : error) (c : connId) (w : World) (n : Z) :
  len (pending (getConn c w)) < n ->
  eof (getConn c w) = true ->
  readOr e c n w =
    (Err e, setConn c (mkConn [] true (writeErrs (getConn c w))) w).
Proof.
  intros H E. unfold readOr, bind. rewrite (readFull_short c w n H E).
  reflexivity.
Qed.

(** [Write] on the control connection: one event, the bytes as given. *)
Lemma writeOr_control (e : error) (b : list byte) (w : World) :
  exists ok w',
    writeOr e Control b w = ((if ok : bool then Ok tt else Err e), w') /\
    trace w' = trace w ++ [EvWrite Control b ok] /\
    pending (control w') = pending (control w) /\
    eof (control w') = eof (control w) /\
    udpPort w' = udpPort w /\ dialOK w' = dialOK w /\ target w' = target w.
Proof.
  unfold writeOr, bind, connWrite. cbn [getConn].
  destruct (writeErrs (control w)) as [|[] l]; cbn.
  - exists true. eexists. split; [reflexivity|]. cbn. auto 10.
  - exists false. eexists. split; [reflexivity|]. cbn. auto 10.
  - exists true. eexists. split; [reflexivity|]. cbn. auto 10.
Qed.

End SessionFacts.

Section Negotiator.
Import TCP.
Local Open Scope conn_scope.

(** C8.  When the client has sent version 0x05, a method count and
    that many method bytes, [handshake] reads exactly these and writes
    the two bytes 0x05 0x00 ("no authentication") on the control
    connection, whatever the methods are and however many, none
    included; it returns nil unless that write fails. *)
Theorem handshake_selects_no_authentication
        (w : World) (nMethods : byte) (methods rest : list byte) :
  pending (control w) = socks5Version :: nMethods :: methods ++ rest ->
  len methods = byte_to_Z nMethods ->
  exists ok,
    fst (handshake w) = (if ok : bool then Ok tt else Err ErrWrite) /\
    trace (snd (handshake w)) = trace w ++ [EvWrite Control [x05; x00] ok] /\
    pending (control (snd (handshake w))) = rest.
Proof.
  intros Hp Hn.
  destruct (handshake w) as [r w1] eqn:E. cbn [fst snd].
  unfold handshake, bind in E.
  rewrite (readOr_take ErrReadHandshake Control w 2 [socks5Version; nMethods]
                       (methods ++ rest) Hp eq_refl) in E.
  cbn [nth] in E. change (Byte.eqb socks5Version socks5Version) with true in E.
  cbn [negb] in E.
  rewrite (readOr_take ErrReadMethods Control _ _ methods rest) in E
    by (rewrite ?getConn_setConn; auto).
  match type of E with context [writeOr ?e Control ?b ?w0] =>
    destruct (writeOr_control e b w0) as (ok & w' & Hw & Ht & Hpe & _)
  end.
  rewrite Hw in E. injection E as <- <-.
  exists ok. rewrite Ht, Hpe. cbn. auto.
Qed.

Lemma handshake_selects_no_authentication_witness :
  let w := start [x05; x02; x00; x02; x05; x01] false 1080 (fun _ => true) in
  exists ok,
    fst (handshake w) = (if ok : bool then Ok tt else Err ErrWrite) /\
    trace (snd (handshake w)) = trace w ++ [EvWrite Control [x05; x00] ok] /\
    pending (control (snd (handshake w))) = [x05; x01].
Proof.
  apply (handshake_selects_no_authentication _ x02 [x00; x02] [x05; x01]);
    reflexivity.
Defined.

End Negotiator.

(** ** The paths of a request *)

Section RequestPaths.
Import TCP.
Local Open Scope conn_scope.

Lemma quiet_refl (w : World) : quiet w w.
Proof. repeat split. Qed.

Lemma quiet_trans (w1 w2 w3 : World) : quiet w1 w2 -> quiet w2 w3 -> quiet w1 w3.
Proof. unfold quiet. intuition congruence. Qed.

Lemma quiet_setConn (c : connId) (s : ConnState) (w : World) :
  quiet w (setConn c s w).
Proof. destruct c; repeat split. Qed.

Lemma readFull_quiet (c : connId) (n : Z) (w : World) :
  quiet w (snd (readFull c n w)) /\
  ((exists b f, fst (readFull c n w) = Ok (b, f)) \/
   fst (readFull c n w) = Blocked).
Proof.
  unfold readFull.
  destruct (n <=? len (pending (getConn c w))); cbn [fst snd].
  - split; [apply quiet_setConn | left; eauto].
  - destruct (eof (getConn c w)); cbn [fst snd].
    + split; [apply quiet_setConn | left; eauto].
    + split; [apply quiet_refl | now right].
Qed.

(** The three ways a checked read ends. *)
Lemma readOr_cases (e : error) (c : connId) (n : Z) (w : World) :
  quiet w (snd (readOr e c n w)) /\
  (fst (readOr e c n w) = Ok (firstn (Z.to_nat n) (pending (getConn c w))) \/
   fst (readOr e c n w) = Err e \/
   fst (readOr e c n w) = Blocked).
Proof.
  unfold readOr, bind, readFull.
  destruct (n <=? len (pending (getConn c w))); cbn [fst snd].
  - split; [apply quiet_setConn | now left].
  - destruct (eof (getConn c w)); cbn [fst snd].
    + split; [apply quiet_setConn | right; now left].
    + split; [apply quiet_refl | right; now right].
Qed.

Lemma sendReply_event (rep : byte) (w : World) :
  exists ok w',
    sendReply rep w = ((if ok : bool then Ok tt else Err ErrWrite), w') /\
    trace w' = trace w ++ [EvWrite Control (connectionReply rep zeroAddr 0) ok] /\
    udpPort w' = udpPort w /\ dialOK w' = dialOK w.
Proof.
  unfold sendReply.
  destruct (writeOr_control ErrWrite
              [socks5Version; rep; x00; x01; x00; x00; x00; x00; x00; x00] w)
    as (ok & w' & H & Ht & _ & _ & Hu & Hd & _).
  exists ok, w'. auto.
Qed.

(** [handleUDPAssociate] never returns a read failure: it ends with its
    reply, or waits for bytes. *)
Lemma handleUDPAssociate_path (addrType : byte) (w : World)
      (r : result targetConn) (w' : World) :
  handleUDPAssociate addrType w = (r, w') ->
  exists new,
    trace w' = trace w ++ new /\
    udpPort w' = udpPort w /\
    ((r = Blocked /\ new = []) \/
     exists ok,
       r = (if ok : bool then Ok DummyConn else Err ErrUDPAssociateReply) /\
       new = [EvWrite Control (connectionReply x00 zeroAddr (uint16 (udpPort w))) ok]).
Proof.
  unfold handleUDPAssociate.
  set (discard :=
    (if Byte.eqb addrType ipv4Address then readFull Control 4;;; ret tt
     else if Byte.eqb addrType domainName then
       ' (lenBuf, _) <- readFull Control 1;;
       readFull Control (byte_to_Z (nth 0 lenBuf x00));;; ret tt
     else if Byte.eqb addrType ipv6Address then readFull Control 16;;; ret tt
     else ret tt)).
  assert (D : quiet w (snd (discard w)) /\
              (fst (discard w) = Ok tt \/ fst (discard w) = Blocked)).
  { subst discard.
    destruct (Byte.eqb addrType ipv4Address).
    { unfold bind, ret. destruct (readFull_quiet Control 4 w) as [Q [(b & f & R)|R]];
        destruct (readFull Control 4 w) as [[?| |] ?]; cbn in *;
        try discriminate; auto. }
    destruct (Byte.eqb addrType domainName).
    { unfold bind, ret. destruct (readFull_quiet Control 1 w) as [Q [(b & f & R)|R]];
        destruct (readFull Control 1 w) as [[[lb ?]| |] w1]; cbn in *;
        try discriminate; auto.
      destruct (readFull_quiet Control (byte_to_Z (nth 0 lb x00)) w1)
        as [Q' [(b' & f' & R')|R']];
        destruct (readFull Control (byte_to_Z (nth 0 lb x00)) w1) as [[?| |] ?];
        cbn in *; try discriminate; eauto using quiet_trans. }
    destruct (Byte.eqb addrType ipv6Address).
    { unfold bind, ret. destruct (readFull_quiet Control 16 w) as [Q [(b & f & R)|R]];
        destruct (readFull Control 16 w) as [[?| |] ?]; cbn in *;
        try discriminate; auto. }
    split; [apply quiet_refl | now left]. }
  clearbody discard. destruct D as [Q D].
  unfold bind, getUDPPort, ret. intros E.
  destruct (discard w) as [[[]| |] w1]; cbn [fst snd] in *.
  2:{ destruct D; discriminate. }
  2:{ injection E as <- <-. exists []. rewrite app_nil_r.
      destruct Q as (? & ? & ?). auto. }
  destruct (readFull_quiet Control 2 w1) as [Q2 [(b & f & R)|R]];
    destruct (readFull Control 2 w1) as [[?| |] w2]; cbn [fst snd] in *;
    try discriminate.
  2:{ injection E as <- <-.
      pose proof (quiet_trans _ _ _ Q Q2) as (? & ? & ?).
      exists []. rewrite app_nil_r. auto. }
  pose proof (quiet_trans _ _ _ Q Q2) as (Ht & Hu & Hd).
  match type of E with context [writeOr ?e Control ?b ?w0] =>
    destruct (writeOr_control e b w0) as (ok & w3 & Hw & Ht' & _ & _ & Hu' & _)
  end.
  rewrite Hw in E. rewrite Hu in *.
  eexists. destruct ok; injection E as <- <-; rewrite Ht', Ht, Hu';
    (split; [reflexivity|]); (split; [reflexivity|]); right;
    [exists true | exists false]; split; reflexivity.
Qed.

(** Every way [handleRequest] ends is one of the paths of
    [requestPath]. *)
Lemma handleRequest_path (w : World) (r : result targetConn) (w' : World) :
  handleRequest w = (r, w') ->
  exists new,
    trace w' = trace w ++ new /\
    requestPath (nth 1 (pending (control w)) x00)
                (nth 3 (pending (control w)) x00) (udpPort w) r new.
Proof.
  unfold handleRequest. unfold bind at 1.
  destruct (readOr_cases ErrReadRequest Control 4 w) as [Q R].
  destruct (readOr ErrReadRequest Control 4 w) as [[buf|e|] w1];
    cbn [fst snd] in *.
  2:{ intros E. injection E as <- <-. destruct Q as (-> & _).
      exists []. rewrite app_nil_r. split; [reflexivity|].
      destruct R as [R|[R|R]]; try discriminate. injection R as ->.
      apply PathReadFailed; [exact I | now right]. }

  2:{ intros E. injection E as <- <-. destruct Q as (-> & _).
      exists []. rewrite app_nil_r. split; [reflexivity|]. apply PathWaiting. }
  destruct R as [R|[R|R]]; try discriminate.
  assert (Hb : buf = firstn 4 (pending (control w)))
    by (injection R as R; exact R).
  clear R. subst buf.
  rewrite !nth_firstn. cbn [Nat.ltb Nat.leb].
  set (version := nth 0 (pending (control w)) x00).
  set (cmd := nth 1 (pending (control w)) x00).
  set (addrType := nth 3 (pending (control w)) x00).
  destruct Q as (Ht & Hu & Hd). rewrite <- Ht, <- Hu. clear Ht Hu Hd.
  destruct (Byte.eqb version socks5Version) eqn:Ev; cbn [negb].
  2:{ intros E. injection E as <- <-. exists []. rewrite app_nil_r.
      split; [reflexivity|]. apply PathVersion.
      intros Hv. rewrite Hv in Ev. discriminate. }
  unfold bind at 1.
  destruct (Byte.eqb cmd connectCmd) eqn:Ec.
  2:{ destruct (Byte.eqb cmd udpAssociate) eqn:Eu.
      - apply Byte.byte_dec_bl in Eu.
        unfold bind at 1.
        destruct (handleUDPAssociate addrType w1) as [ru wu] eqn:EU.
        destruct (handleUDPAssociate_path _ _ _ _ EU)
          as (new & Hn & Hp & [[-> ->]|(ok & -> & ->)]).
        + intros E. injection E as <- <-. exists []. split; [exact Hn|].
          apply PathWaiting.
        + destruct ok; unfold ret; intros E; injection E as <- <-;
            eexists; (split; [exact Hn|]);
            [apply PathAssociated | apply PathAssociateLost]; exact Eu.
      - unfold bind, errOf.
        destruct (sendReply_event x07 w1) as (ok & w2 & -> & Ht & _).
        intros E. exists [EvWrite Control (connectionReply x07 zeroAddr 0) ok].
        destruct ok; injection E as <- <-; (split; [exact Ht|]);
          apply PathCommand; intros Hc; rewrite Hc in *; discriminate. }
  apply Byte.byte_dec_bl in Ec.
  unfold ret at 1.
  unfold bind at 1.
  match goal with |- context [(?m w1)] =>
    match m with
    | (if _ then _ else _) => set (readAddr := m)
    end
  end.
  assert (A : (exists w2 a, readAddr w1 = (Ok a, w2) /\ quiet w1 w2) \/
              (exists w2 e, readAddr w1 = (Err e, w2) /\ quiet w1 w2 /\
                            readFailure e) \/
              (exists w2, readAddr w1 = (Blocked, w2) /\ quiet w1 w2) \/
              (exists w2 ok, readAddr w1 = (Err (ErrUnsupportedAddressType addrType), w2) /\
                 trace w2 = trace w1 ++ [EvWrite Control (connectionReply x08 zeroAddr 0) ok] /\
                 addrType <> ipv4Address /\ addrType <> domainName /\
                 addrType <> ipv6Address)).
  { subst readAddr.
    destruct (Byte.eqb addrType ipv4Address) eqn:E4.
    { unfold bind, ret.
      destruct (readOr_cases ErrReadIPv4 Control 4 w1) as [Q [R|[R|R]]];
        destruct (readOr ErrReadIPv4 Control 4 w1) as [[?|?|] w2];
        cbn [fst snd] in *; try discriminate.
      - left. eauto.
      - right; left. injection R as ->. exists w2, ErrReadIPv4. cbn. auto.
      - right; right; left. eauto. }
    destruct (Byte.eqb addrType domainName) eqn:E3.
    { unfold bind, ret.
      destruct (readOr_cases ErrReadDomainLength Control 1 w1) as [Q [R|[R|R]]];
        destruct (readOr ErrReadDomainLength Control 1 w1) as [[lb|?|] w2];
        cbn [fst snd] in *; try discriminate.
      - destruct (readOr_cases ErrReadDomain Control (byte_to_Z (nth 0 lb x00)) w2)
          as [Q' [R'|[R'|R']]];
          destruct (readOr ErrReadDomain Control (byte_to_Z (nth 0 lb x00)) w2)
            as [[?|?|] w3];
          cbn [fst snd] in *; try discriminate.
        + left. eauto using quiet_trans.
        + right; left. injection R' as ->. exists w3, ErrReadDomain. cbn.
          eauto using quiet_trans.
        + right; right; left. eauto using quiet_trans.
      - right; left. injection R as ->. exists w2, ErrReadDomainLength. cbn. auto.
      - right; right; left. eauto. }
    destruct (Byte.eqb addrType ipv6Address) eqn:E6.
    { unfold bind, ret.
      destruct (readOr_cases ErrReadIPv6 Control 16 w1) as [Q [R|[R|R]]];
        destruct (readOr ErrReadIPv6 Control 16 w1) as [[?|?|] w2];
        cbn [fst snd] in *; try discriminate.
      - left. eauto.
      - right; left. injection R as ->. exists w2, ErrReadIPv6. cbn. auto.
      - right; right; left. eauto. }
    right; right; right. unfold bind, errOf, fail.
    destruct (sendReply_event x08 w1) as (ok & w2 & -> & Ht & _).
    exists w2, ok. destruct ok; (split; [reflexivity|]); (split; [exact Ht|]);
      repeat split; intros Ha; rewrite Ha in *; discriminate. }
  clearbody readAddr.
  destruct A as [(w2 & a & -> & Q)|[(w2 & e & -> & Q & F)|[(w2 & -> & Q)|
                 (w2 & ok & -> & Ht & N4 & N3 & N6)]]].
  2:{ intros E. injection E as <- <-. destruct Q as (-> & _).
      exists []. rewrite app_nil_r. split; [reflexivity|].
      apply PathReadFailed; [exact F|]. left. rewrite Ec. discriminate. }
  2:{ intros E. injection E as <- <-. destruct Q as (-> & _).
      exists []. rewrite app_nil_r. split; [reflexivity|]. apply PathWaiting. }
  2:{ intros E. injection E as <- <-. eexists. split; [exact Ht|].
      apply PathAddressType; auto. }
  unfold bind at 1.
  destruct (readOr_cases ErrReadPort Control 2 w2) as [Q2 [R|[R|R]]];
    destruct (readOr ErrReadPort Control 2 w2) as [[pb|?|] w3];
    cbn [fst snd] in *; try discriminate.
  2:{ intros E. injection E as <- <-.
      destruct (quiet_trans _ _ _ Q Q2) as (-> & _).
      exists []. rewrite app_nil_r. split; [reflexivity|]. injection R as ->.
      apply PathReadFailed; [exact I|]. left. rewrite Ec. discriminate. }
  2:{ intros E. injection E as <- <-.
      destruct (quiet_trans _ _ _ Q Q2) as (-> & _).
      exists []. rewrite app_nil_r. split; [reflexivity|]. apply PathWaiting. }
  destruct (quiet_trans _ _ _ Q Q2) as (Ht & Hu & Hd).
  set (t := hostPort a (be_uint16 (nth 0 pb x00) (nth 1 pb x00))).
  unfold bind at 1, dial.
  destruct (dialOK w3 t); cbn [negb].
  - unfold bind at 1, errOf.
    destruct (sendReply_event x00 (emit (EvDial t true) w3))
      as (ok & w4 & -> & Ht4 & _).
    destruct ok.
    + unfold ret. intros E. injection E as <- <-.
      eexists. split; [rewrite Ht4; cbn; rewrite Ht, <- app_assoc; reflexivity|].
      apply PathConnected. exact Ec.
    + unfold bind, connClose, fail. intros E. injection E as <- <-.
      eexists. split; [cbn; rewrite Ht4; cbn; rewrite Ht, <- !app_assoc; reflexivity|].
      apply PathReplyLost. exact Ec.
  - unfold bind, errOf, fail.
    destruct (sendReply_event x05 (emit (EvDial t false) w3))
      as (ok & w4 & -> & Ht4 & _).
    intros E. exists [EvDial t false; EvWrite Control (connectionReply x05 zeroAddr 0) ok].
    destruct ok; injection E as <- <-;
      (split; [rewrite Ht4; cbn; rewrite Ht, <- app_assoc; reflexivity|]);
      apply PathRefused; exact Ec.
Qed.

End RequestPaths.

(** ** The request dispatcher *)

Section RequestDispatcher.
Import TCP.
Local Open Scope conn_scope.




(** The same request under UDP ASSOCIATE: [handleUDPAssociate] has no
    default case, the reply is a success. *)
Lemma udp_associate_with_bad_address_type_succeeds :
  let w := start [x05; x03; x00; x02; x00; x00] false 1080 (fun _ => true) in
  fst (handleRequest w) = Ok DummyConn /\
  writesOn Control (trace (snd (handleRequest w)))
    = [connectionReply x00 zeroAddr 1080].
Proof. split; reflexivity. Qed.

(** C4 (the code differs).  A UDP ASSOCIATE request that ends after one
    of its four address bytes: the reads of [handleUDPAssociate] fail,
    their errors are not looked at, and the success reply is written. *)
Theorem truncated_udp_associate_gets_success_reply :
  let w := start [x05; x03; x00; x01; x7f] true 1080 (fun _ => true) in
  fst (handleRequest w) = Ok DummyConn /\
  trace (snd (handleRequest w))
    = [EvWrite Control (connectionReply x00 zeroAddr 1080) true].
Proof. split; reflexivity. Qed.

(** No UDP ASSOCIATE request ever fails with a read failure past the
    four header bytes. *)
Lemma udp_associate_reports_no_truncation
      (w : World) (e : error) (w' : World) :
  nth 1 (pending (control w)) x00 = udpAssociate ->
  handleRequest w = (Err e, w') ->
  readFailure e -> e = ErrReadRequest.
Proof.
  intros Hc E F.
  destruct (handleRequest_path _ _ _ E) as (new & _ & P).
  inversion P; subst; try (cbn in F; contradiction); try tauto.
  all: match goal with H : _ = connectCmd |- _ => rewrite Hc in H; discriminate end.
Qed.

(** The CONNECT path does propagate it: with the stream ended before
    the address is complete the request fails with the read failure
    and nothing is written. *)
Lemma truncated_connect_fails (w : World) (rsv : byte) (addr : list byte) :
  pending (control w) = socks5Version :: connectCmd :: rsv :: ipv4Address :: addr ->
  len addr < 4 ->
  eof (control w) = true ->
  fst (handleRequest w) = Err ErrReadIPv4 /\
  trace (snd (handleRequest w)) = trace w.
Proof.
  intros Hp L Ee.
  destruct (handleRequest w) as [r w'] eqn:E. cbn [fst snd].
  unfold handleRequest in E. unfold bind at 1 in E.
  rewrite (readOr_take ErrReadRequest Control w 4
             [socks5Version; connectCmd; rsv; ipv4Address] addr Hp eq_refl) in E.
  cbn [nth] in E. change (Byte.eqb socks5Version socks5Version) with true in E.
  change (Byte.eqb connectCmd connectCmd) with true in E.
  change (Byte.eqb ipv4Address ipv4Address) with true in E.
  cbn [negb] in E. unfold bind at 1, ret at 1 in E.
  unfold bind at 1 in E. unfold bind at 1 in E.
  rewrite readOr_short in E by (rewrite ?getConn_setConn; auto).
  injection E as <- <-. cbn. auto.
Qed.



End RequestDispatcher.

(** ** Sessions *)

Section Sessions.
Import TCP.
Local Open Scope conn_scope.

Lemma writes_hold_no_dial (l : list event) (t : list byte) (ok : bool) :
  Forall isWrite l -> ~ In (EvDial t ok) l.
Proof.
  intros F H. rewrite Forall_forall in F. apply (F _ H).
Qed.

Lemma handshake_path (w : World) (r : result unit) (w' : World) :
  handshake w = (r, w') ->
  exists new, trace w' = trace w ++ new /\ Forall isWrite new.
Proof.
  unfold handshake. unfold bind at 1.
  destruct (readOr_cases ErrReadHandshake Control 2 w) as [Q R].
  destruct (readOr ErrReadHandshake Control 2 w) as [[buf|e|] w1];
    cbn [fst snd] in *.
  2,3: intros E; injection E as <- <-; destruct Q as (-> & _);
       exists []; rewrite app_nil_r; auto.
  destruct (negb (Byte.eqb (nth 0 buf x00) socks5Version)).
  { unfold fail. intros E. injection E as <- <-. destruct Q as (-> & _).
    exists []. rewrite app_nil_r. auto. }
  unfold bind at 1.
  destruct (readOr_cases ErrReadMethods Control (byte_to_Z (nth 1 buf x00)) w1)
    as [Q1 R1].
  destruct (readOr ErrReadMethods Control (byte_to_Z (nth 1 buf x00)) w1)
    as [[m|e|] w2]; cbn [fst snd] in *.
  2,3: intros E; injection E as <- <-;
       destruct (quiet_trans _ _ _ Q Q1) as (-> & _);
       exists []; rewrite app_nil_r; auto.
  destruct (writeOr_control ErrWrite [socks5Version; noAuth] w2)
    as (ok & w3 & -> & Ht & _).
  destruct (quiet_trans _ _ _ Q Q1) as (Hq & _).
  intros E. exists [EvWrite Control [socks5Version; noAuth] ok].
  destruct ok; injection E as <- <-; rewrite Ht, Hq; repeat constructor.
Qed.

Lemma connRead_quiet (c : connId) (w : World) :
  trace (snd (connRead c w)) = trace w.
Proof.
  unfold connRead. destruct (pending (getConn c w)); cbn [snd];
    rewrite ?trace_setConn; reflexivity.
Qed.

Lemma copyWrite_event (c : connId) (b : list byte) (w : World) :
  exists ok, trace (snd (copyWrite c b w)) = trace w ++ [EvWrite c b ok].
Proof.
  unfold copyWrite, connWrite. cbn. rewrite trace_setConn. eauto.
Qed.

(** One turn of [io.Copy] makes at most one call, a write. *)
Lemma copyTurn_writes (t : targetConn) (toTarget : bool) (w : World) :
  let turn := if toTarget
              then copyTurn (connRead Control) (targetWrite t) w
              else copyTurn (targetRead t) (copyWrite Control) w in
  exists new, trace (snd turn) = trace w ++ new /\ Forall isWrite new.
Proof.
  cbv zeta. unfold copyTurn.
  destruct toTarget.
  - pose proof (connRead_quiet Control w) as Q.
    destruct (connRead Control w) as [[b| |] w1]; cbn [snd] in *.
    2,3: exists []; rewrite app_nil_r; auto.
    destruct t as [tg|].
    + cbn [targetWrite]. destruct (copyWrite_event Target b w1) as (ok & Hw).
      destruct (copyWrite Target b w1) as [[nw f] w2]. cbn [snd] in Hw.
      exists [EvWrite Target b ok].
      destruct f; [|destruct (negb (nw =? len b))]; cbn [snd];
        rewrite Hw, Q; repeat constructor.
    + cbn [targetWrite]. exists []. rewrite app_nil_r.
      destruct (negb (0 =? len b)); cbn [snd]; auto.
  - assert (Q : trace (snd (targetRead t w)) = trace w)
      by (destruct t; apply connRead_quiet).
    destruct (targetRead t w) as [[b| |] w1]; cbn [snd] in *.
    2,3: exists []; rewrite app_nil_r; auto.
    destruct (copyWrite_event Control b w1) as (ok & Hw).
    destruct (copyWrite Control b w1) as [[nw f] w2]. cbn [snd] in Hw.
    exists [EvWrite Control b ok].
    destruct f; [|destruct (negb (nw =? len b))]; cbn [snd];
      rewrite Hw, Q; repeat constructor.
Qed.

Lemma trace_peerSends (c : connId) (b : list byte) (w : World) :
  trace (peerSends c b w) = trace w.
Proof.
  unfold peerSends. destruct (eof (getConn c w)); rewrite ?trace_setConn; auto.
Qed.

Lemma trace_peerCloses (c : connId) (w : World) :
  trace (peerCloses c w) = trace w.
Proof. unfold peerCloses. apply trace_setConn. Qed.

(** While [relay] runs the only calls are writes. *)
Lemma relayRun_writes (sched : list action) (t : targetConn) :
  forall (d1 d2 : bool) (w : World),
  exists new,
    trace (snd (relayRun sched t d1 d2 w)) = trace w ++ new /\
    Forall isWrite new /\
    (fst (relayRun sched t d1 d2 w) = Ok tt \/
     fst (relayRun sched t d1 d2 w) = Blocked).
Proof.
  induction sched as [|a sched IH]; intros d1 d2 w; cbn [relayRun].
  - exists []. rewrite app_nil_r. auto.
  - destruct a.
    + destruct (IH d1 d2 (peerSends Control b w)) as (new & Ht & F & R).
      exists new. rewrite Ht, trace_peerSends. auto.
    + destruct (IH d1 d2 (peerCloses Control w)) as (new & Ht & F & R).
      exists new. rewrite Ht, trace_peerCloses. auto.
    + destruct (IH d1 d2 (peerSends Target b w)) as (new & Ht & F & R).
      exists new. rewrite Ht, trace_peerSends. auto.
    + destruct (IH d1 d2 (peerCloses Target w)) as (new & Ht & F & R).
      exists new. rewrite Ht, trace_peerCloses. auto.
    + destruct d1; [apply IH|].
      destruct (copyTurn_writes t true w) as (n1 & H1 & F1). cbv zeta in H1.
      destruct (copyTurn (connRead Control) (targetWrite t) w) as [fin w1].
      cbn [snd] in H1.
      destruct (IH fin d2 w1) as (new & Ht & F & R).
      exists (n1 ++ new). rewrite Ht, H1, app_assoc.
      split; [reflexivity|]. split; [apply Forall_app; auto | exact R].
    + destruct d2; [apply IH|].
      destruct (copyTurn_writes t false w) as (n1 & H1 & F1). cbv zeta in H1.
      destruct (copyTurn (targetRead t) (copyWrite Control) w) as [fin w1].
      cbn [snd] in H1.
      destruct (IH d1 fin w1) as (new & Ht & F & R).
      exists (n1 ++ new). rewrite Ht, H1, app_assoc.
      split; [reflexivity|]. split; [apply Forall_app; auto | exact R].
    + destruct (d1 || d2); [|apply IH].
      exists []. rewrite app_nil_r. cbn. auto.
Qed.

(** C9.  Whenever [handleConnection] returns after a CONNECT request
    whose dial succeeded, the last two calls of the session are the
    close of the destination connection and the close of the control
    connection: both when [relay] returns, whichever direction ended
    it, and when the success reply could not be written. *)
Theorem connect_session_closes_both_connections
        (sched : list action) (w : World) (t : list byte) (new : list event) :
  fst (handleConnection sched w) = Ok tt ->
  trace (snd (handleConnection sched w)) = trace w ++ new ->
  In (EvDial t true) new ->
  exists before, new = before ++ [EvClose Target; EvClose Control].
Proof.
  destruct (handleConnection sched w) as [r w'] eqn:E. cbn [fst snd].
  intros -> Hn Hd.
  unfold handleConnection in E. unfold bind at 1, errOf in E.
  destruct (handshake w) as [rh w1] eqn:Eh.
  destruct (handshake_path _ _ _ Eh) as (nh & Hh & Fh).
  destruct rh as [[]|eh|]; [| |discriminate].
  2:{ unfold connClose in E. injection E as <-. cbn in Hn.
      rewrite Hh, <- app_assoc in Hn. apply app_inv_head in Hn. subst new.
      apply in_app_or in Hd. destruct Hd as [Hd|[Hd|[]]]; [|discriminate].
      destruct (writes_hold_no_dial _ _ _ Fh Hd). }
  unfold bind at 1, attempt in E.
  destruct (handleRequest w1) as [rr w2] eqn:Er.
  destruct (handleRequest_path _ _ _ Er) as (nr & Hr & P).
  destruct rr as [tc|er|]; [| |discriminate].
  2:{ unfold connClose in E. injection E as <-. cbn in Hn.
      rewrite Hr, Hh, <- !app_assoc in Hn. apply app_inv_head in Hn. subst new.
      apply in_app_or in Hd. destruct Hd as [Hd|Hd];
        [destruct (writes_hold_no_dial _ _ _ Fh Hd)|].
      inversion P; subst; cbn in Hd; intuition; try discriminate.
      eexists (nh ++ [_; _]). rewrite <- app_assoc. reflexivity. }
  unfold bind at 1, relay in E.
  destruct (relayRun_writes sched tc false false w2) as (nl & Hl & Fl & Rl).
  destruct (relayRun sched tc false false w2) as [rl w3]. cbn [fst snd] in *.
  destruct rl as [[]|el|]; [| destruct Rl; discriminate | discriminate].
  assert (Hc : tc = RealTarget t \/ exists t', tc = RealTarget t').
  { inversion P; subst; eauto.
    exfalso.
    unfold bind, targetClose, connClose in E. injection E as <-. cbn in Hn.
    rewrite Hl, Hr, Hh, <- !app_assoc in Hn. apply app_inv_head in Hn.
    subst new.
    apply in_app_or in Hd. destruct Hd as [Hd|Hd];
      [destruct (writes_hold_no_dial _ _ _ Fh Hd)|].
    cbn in Hd. destruct Hd as [Hd|Hd]; [discriminate|].
    apply in_app_or in Hd. destruct Hd as [Hd|Hd];
      [destruct (writes_hold_no_dial _ _ _ Fl Hd)|].
    cbn in Hd. intuition discriminate. }
  assert (Hc' : exists t', tc = RealTarget t') by (destruct Hc; eauto).
  destruct Hc' as (t' & ->).
  unfold bind, targetClose, connClose in E. injection E as <-. cbn in Hn.
  rewrite Hl, Hr, Hh, <- !app_assoc in Hn. apply app_inv_head in Hn.
  subst new. exists (nh ++ nr ++ nl). rewrite <- !app_assoc. reflexivity.
Qed.

Lemma connect_session_closes_both_connections_witness :
  let w := start [x05; x01; x00;
                  x05; x01; x00; x01; x5d; xb8; xd8; x22; x00; x50;
                  x47; x45; x54]
                 false 1080 (fun _ => true) in
  let sched := [CopyToTarget; TargetSends [x4f; x4b]; CopyToClient;
                TargetCloses; CopyToClient; Receive] in
  exists before,
    [EvWrite Control [x05; x00] true;
     EvDial [x39; x33; x2e; x31; x38; x34; x2e; x32; x31; x36; x2e; x33; x34;
             x3a; x38; x30] true;
     EvWrite Control (connectionReply x00 zeroAddr 0) true;
     EvWrite Target [x47; x45; x54] true;
     EvWrite Control [x4f; x4b] true;
     EvClose Target; EvClose Control]
    = before ++ [EvClose Target; EvClose Control].
Proof.
  cbv zeta.
  apply (connect_session_closes_both_connections
           [CopyToTarget; TargetSends [x4f; x4b]; CopyToClient;
            TargetCloses; CopyToClient; Receive]
           (start [x05; x01; x00;
                   x05; x01; x00; x01; x5d; xb8; xd8; x22; x00; x50;
                   x47; x45; x54]
                  false 1080 (fun _ => true))
           [x39; x33; x2e; x31; x38; x34; x2e; x32; x31; x36; x2e; x33; x34;
            x3a; x38; x30]).
  - reflexivity.
  - reflexivity.
  - cbn. auto.
Defined.


(** C2 (the code differs).  After a UDP ASSOCIATE the session runs
    [relay(conn, &dummyConn{conn})]: both goroutines read the control
    connection.  When the client sends a byte, either the copy towards
    the client takes it and writes it back on the control connection,
    or the copy towards [dummyConn] takes it, meets the short write of
    [dummyConn.Write], and the session closes the connection although
    the client has not closed it. *)
Theorem udp_association_control_connection_is_not_inert :
  let w := start [x05; x01; x00;
                  x05; x03; x00; x01; x00; x00; x00; x00; x00; x00]
                 false 1080 (fun _ => true) in
  let echoed := handleConnection [ClientSends [x78]; CopyToClient] w in
  let dropped := handleConnection [ClientSends [x78]; CopyToTarget; Receive] w in
  writesOn Control (trace (snd echoed))
    = [[x05; x00]; connectionReply x00 zeroAddr 1080; [x78]] /\
  fst dropped = Ok tt /\
  eof (control (snd dropped)) = false /\
  trace (snd dropped)
    = [EvWrite Control [x05; x00] true;
       EvWrite Control (connectionReply x00 zeroAddr 1080) true;
       EvClose Control; EvClose Control].
Proof. cbv zeta. repeat split; reflexivity. Qed.

(** What holds of the design: as long as the client sends nothing,
    [relay] on a [dummyConn] writes nothing, and it returns only once
    the client has closed the control connection. *)
Lemma idle_association_is_silent (sched : list action) :
  forall (d1 d2 : bool) (w : World),
  clientSilent sched ->
  pending (control w) = [] ->
  (d1 || d2 = true -> eof (control w) = true) ->
  trace (snd (relayRun sched DummyConn d1 d2 w)) = trace w /\
  (fst (relayRun sched DummyConn d1 d2 w) = Ok tt ->
   eof (control (snd (relayRun sched DummyConn d1 d2 w))) = true).
Proof.
  induction sched as [|a sched IH]; intros d1 d2 w S Hp Hd; cbn [relayRun].
  - cbn. split; [reflexivity | discriminate].
  - inversion S as [|? ? Ha S']; subst.
    destruct a; try contradiction.
    + destruct (IH d1 d2 (peerCloses Control w) S') as [Ht Hr]; cbn; auto.
    + assert (Hw : control (peerSends Target b w) = control w)
        by (unfold peerSends; destruct (eof (getConn Target w)); reflexivity).
      destruct (IH d1 d2 (peerSends Target b w) S') as [Ht Hr];
        rewrite ?Hw; auto.
      rewrite Ht, trace_peerSends. auto.
    + destruct (IH d1 d2 (peerCloses Target w) S') as [Ht Hr]; cbn; auto.
    + destruct d1; [apply IH; auto|].
      unfold copyTurn, connRead. cbn [getConn]. rewrite Hp.
      destruct (eof (control w)) eqn:Ee.
      * apply IH; auto.
      * apply IH; auto. rewrite Ee. exact Hd.
    + destruct d2; [apply IH; auto|].
      unfold copyTurn, targetRead, connRead. cbn [getConn]. rewrite Hp.
      destruct (eof (control w)) eqn:Ee.
      * apply IH; auto.
      * apply IH; auto. rewrite Ee. exact Hd.
    + destruct (d1 || d2) eqn:Ed.
      * cbn. auto.
      * apply IH; auto. rewrite Ed. discriminate.
Qed.

End Sessions.

(** ** The text form of addresses *)

Section HexText.
Import NetIP.

(** The characters of [digits] stand for their index. *)
Lemma hexVal_digit (n : Z) : 0 <= n < 16 -> hexVal (digit n) = Some n.
Proof.
  intros H. rewrite <- (Z2Nat.id n) by lia.
  assert (K : (Z.to_nat n < 16)%nat) by lia. revert K.
  generalize (Z.to_nat n) as k. intros k K.
  do 16 (destruct k as [|k]; [reflexivity|]). exfalso. lia.
Qed.

Lemma digit_plain (n : Z) : 0 <= n < 16 -> plainChar (digit n).
Proof.
  intros H. rewrite <- (Z2Nat.id n) by lia.
  assert (K : (Z.to_nat n < 16)%nat) by lia. revert K.
  generalize (Z.to_nat n) as k. intros k K.
  do 16 (destruct k as [|k]; [repeat split|]). exfalso. lia.
Qed.

End HexText.

Section HexGroups.
Import NetIP.

(** [appendHex] writes the hexadecimal digits of its argument, most
    significant first, one to four of them. *)
Lemma appendHex_digits (g : Z) :
  0 <= g < 65536 ->
  exists ds,
    appendHex g = map digit ds /\
    (1 <= length ds <= 4)%nat /\
    Forall nibble ds /\
    hexDigitsValue ds 0 = g.
Proof.
  intros R. unfold appendHex.
  rewrite !Z.shiftr_div_pow2 by lia.
  change 15 with (Z.ones 4). rewrite !Z.land_ones by lia.
  change (2 ^ 12) with 4096. change (2 ^ 8) with 256. change (2 ^ 4) with 16.
  assert (N0 : nibble (g mod 16)) by (unfold nibble; apply Z.mod_pos_bound; lia).
  assert (N1 : nibble (g / 16 mod 16)) by (unfold nibble; apply Z.mod_pos_bound; lia).
  assert (N2 : nibble (g / 256 mod 16)) by (unfold nibble; apply Z.mod_pos_bound; lia).
  assert (N3 : nibble (g / 4096)).
  { unfold nibble. split; [apply Z.div_pos; lia|].
    apply Z.div_lt_upper_bound; lia. }
  pose proof (Z.div_mod g 16 ltac:(lia)) as D0.
  pose proof (Z.div_mod (g / 16) 16 ltac:(lia)) as D1.
  pose proof (Z.div_mod (g / 256) 16 ltac:(lia)) as D2.
  assert (Q1 : g / 16 / 16 = g / 256) by (rewrite Z.div_div by lia; reflexivity).
  assert (Q2 : g / 256 / 16 = g / 4096) by (rewrite Z.div_div by lia; reflexivity).
  rewrite Q1 in D1. rewrite Q2 in D2.
  destruct (Z.leb_spec 4096 g).
  { destruct (Z.leb_spec 256 g); [|lia]. destruct (Z.leb_spec 16 g); [|lia].
    exists [g / 4096; g / 256 mod 16; g / 16 mod 16; g mod 16].
    split; [reflexivity|]. split; [cbn; lia|].
    split; [repeat (apply Forall_cons; [assumption|]); apply Forall_nil|].
    unfold hexDigitsValue. cbn. lia. }
  assert (Z3 : g / 4096 = 0) by (apply Z.div_small; lia).
  destruct (Z.leb_spec 256 g).
  { destruct (Z.leb_spec 16 g); [|lia].
    exists [g / 256 mod 16; g / 16 mod 16; g mod 16].
    split; [reflexivity|]. split; [cbn; lia|].
    split; [repeat (apply Forall_cons; [assumption|]); apply Forall_nil|].
    unfold hexDigitsValue. cbn. lia. }
  assert (Z2 : g / 256 = 0) by (apply Z.div_small; lia).
  destruct (Z.leb_spec 16 g).
  { exists [g / 16 mod 16; g mod 16].
    split; [reflexivity|]. split; [cbn; lia|].
    split; [repeat (apply Forall_cons; [assumption|]); apply Forall_nil|].
    unfold hexDigitsValue. cbn. rewrite Z2 in D1. cbn in D1. lia. }
  assert (Z1 : g / 16 = 0) by (apply Z.div_small; lia).
  exists [g mod 16].
  split; [reflexivity|]. split; [cbn; lia|].
  split; [repeat (apply Forall_cons; [assumption|]); apply Forall_nil|].
  unfold hexDigitsValue. cbn. lia.
Qed.

Lemma scanHex_stop (tail : list byte) (off : nat) (acc : Z) :
  stopsHex tail -> scanHex tail off acc = Some (acc, off, tail).
Proof.
  destruct tail as [|c tail]; cbn; [reflexivity|]. intros ->. reflexivity.
Qed.

Lemma scanHex_digits (ds : list Z) :
  forall (off : nat) (acc : Z) (tail : list byte),
  Forall nibble ds ->
  (off + length ds <= 4)%nat ->
  0 <= acc < 16 ^ Z.of_nat off ->
  stopsHex tail ->
  scanHex (map digit ds ++ tail) off acc
    = Some (hexDigitsValue ds acc, (off + length ds)%nat, tail).
Proof.
  induction ds as [|d ds IH]; intros off acc tail F L A St.
  - cbn. rewrite Nat.add_0_r. apply scanHex_stop, St.
  - inversion F as [|? ? Hd F']; subst. cbn [map app scanHex length] in *.
    rewrite (hexVal_digit d Hd).
    rewrite Z.shiftl_mul_pow2 by lia. change (2 ^ 4) with 16.
    destruct (Nat.ltb_spec 3 off); [exfalso; lia|].
    assert (B : 0 <= acc * 16 + d < 16 ^ Z.of_nat (S off)).
    { rewrite Nat2Z.inj_succ, Z.pow_succ_r by lia. unfold nibble in Hd. lia. }
    assert (16 ^ Z.of_nat (S off) <= 16 ^ 4)
      by (apply Z.pow_le_mono_r; lia).
    change (16 ^ 4) with 65536 in *.
    destruct (Z.ltb_spec 65535 (acc * 16 + d)); [exfalso; lia|].
    assert (L' : (S off + length ds <= 4)%nat) by lia.
    rewrite (IH (S off) (acc * 16 + d) tail F' L' B St).
    replace (off + S (length ds))%nat with (S off + length ds)%nat by lia.
    reflexivity.
Qed.

(** Scanning back what [appendHex] wrote. *)
Lemma scanHex_appendHex (g : Z) (tail : list byte) :
  0 <= g < 65536 ->
  stopsHex tail ->
  exists off,
    scanHex (appendHex g ++ tail) 0 0 = Some (g, S off, tail).
Proof.
  intros R St.
  destruct (appendHex_digits g R) as (ds & -> & L & F & V).
  rewrite (scanHex_digits ds 0 0 tail F) by (cbn; auto; lia).
  rewrite V. cbn [Nat.add].
  destruct (length ds) as [|k]; [lia|]. eauto.
Qed.

(** The first character of a group is neither a colon nor a dot. *)
Lemma appendHex_head (g : Z) :
  0 <= g < 65536 ->
  exists c tl, appendHex g = c :: tl /\ plainChar c /\
               Forall plainChar tl.
Proof.
  intros R. destruct (appendHex_digits g R) as (ds & -> & L & F & V).
  assert (P : Forall plainChar (map digit ds)).
  { clear L V. induction F as [|d ds Hd F IH]; cbn; constructor;
      [apply digit_plain, Hd | exact IH]. }
  destruct ds as [|d ds]; [cbn in L; lia|].
  cbn [map] in *. inversion P; subst. eauto.
Qed.

End HexGroups.

Section ParseSteps.
Import NetIP.

Lemma v6u16_range (ip : list byte) (j : nat) : 0 <= v6u16 ip j < 65536.
Proof. apply be_uint16_range. Qed.

Lemma putUint16_v6u16 (ip : list byte) (j : nat) :
  putUint16 (v6u16 ip j) = [nth (2 * j) ip x00; nth (2 * j + 1) ip x00].
Proof. apply putUint16_be. Qed.

Lemma v6u16_zero (ip : list byte) (j : nat) :
  v6u16 ip j = 0 -> nth (2 * j) ip x00 = x00 /\ nth (2 * j + 1) ip x00 = x00.
Proof.
  unfold v6u16. rewrite be_uint16_eq. intros H.
  pose proof (byte_to_Z_range (nth (2 * j) ip x00)).
  pose proof (byte_to_Z_range (nth (2 * j + 1) ip x00)).
  split; apply byte_to_Z_inj; change (byte_to_Z x00) with 0; lia.
Qed.

Lemma stopsHex_colon (rest : list byte) : stopsHex (chColon :: rest).
Proof. reflexivity. Qed.

(** A group followed by a colon and another group. *)
Lemma loop_step_colon (m : nat) (g g' : Z) (rest acc : list byte)
      (e : option nat) :
  0 <= g < 65536 -> 0 <= g' < 65536 -> (length acc < 16)%nat ->
  parseIPv6Loop (S m) (appendHex g ++ chColon :: appendHex g' ++ rest) acc e
    = parseIPv6Loop m (appendHex g' ++ rest) (acc ++ putUint16 g) e.
Proof.
  intros R R' L. cbn [parseIPv6Loop].
  destruct (Nat.leb_spec 16 (length acc)); [exfalso; lia|].
  destruct (scanHex_appendHex g (chColon :: appendHex g' ++ rest) R
                              (stopsHex_colon _)) as (off & ->).
  cbn [Nat.eqb].
  change (Byte.eqb chColon chDot) with false.
  change (Byte.eqb chColon chColon) with true. cbn [negb].
  destruct (appendHex_head g' R') as (c & tl & -> & (Hc & _) & _).
  cbn [app]. rewrite Hc. reflexivity.
Qed.

(** A group followed by the double colon and another group. *)
Lemma loop_step_ellipsis (m : nat) (g g' : Z) (rest acc : list byte) :
  0 <= g < 65536 -> 0 <= g' < 65536 -> (length acc < 16)%nat ->
  parseIPv6Loop (S m)
    (appendHex g ++ chColon :: chColon :: appendHex g' ++ rest) acc None
  = parseIPv6Loop m (appendHex g' ++ rest) (acc ++ putUint16 g)
                  (Some (length (acc ++ putUint16 g))).
Proof.
  intros R R' L. cbn [parseIPv6Loop].
  destruct (Nat.leb_spec 16 (length acc)); [exfalso; lia|].
  destruct (scanHex_appendHex g (chColon :: chColon :: appendHex g' ++ rest) R
                              (stopsHex_colon _)) as (off & ->).
  cbn [Nat.eqb].
  change (Byte.eqb chColon chDot) with false.
  change (Byte.eqb chColon chColon) with true. cbn [negb].
  destruct (appendHex_head g' R') as (c & tl & -> & _).
  reflexivity.
Qed.

(** A group followed by the double colon that ends the text. *)
Lemma loop_step_ellipsis_end (m : nat) (g : Z) (acc : list byte) :
  0 <= g < 65536 -> (length acc < 16)%nat ->
  parseIPv6Loop (S m) (appendHex g ++ [chColon; chColon]) acc None
  = finish6 (acc ++ putUint16 g) (Some (length (acc ++ putUint16 g))).
Proof.
  intros R L. cbn [parseIPv6Loop].
  destruct (Nat.leb_spec 16 (length acc)); [exfalso; lia|].
  destruct (scanHex_appendHex g [chColon; chColon] R (stopsHex_colon _))
    as (off & ->).
  reflexivity.
Qed.

(** The last group of the text. *)
Lemma loop_step_end (m : nat) (g : Z) (acc : list byte) (e : option nat) :
  0 <= g < 65536 -> (length acc < 16)%nat ->
  parseIPv6Loop (S m) (appendHex g ++ []) acc e
  = finish6 (acc ++ putUint16 g) e.
Proof.
  intros R L. cbn [parseIPv6Loop].
  destruct (Nat.leb_spec 16 (length acc)); [exfalso; lia|].
  destruct (scanHex_appendHex g [] R I) as (off & ->).
  reflexivity.
Qed.

(** [ParseAddr] takes an address whose first mark is a colon for IPv6. *)
Lemma parseAddrScan_colon (pre : list byte) :
  forall all rest,
  Forall plainChar pre ->
  parseAddrScan all (pre ++ chColon :: rest) = parseIPv6 all.
Proof.
  induction pre as [|c pre IH]; intros all rest F; cbn [app parseAddrScan].
  - reflexivity.
  - inversion F as [|? ? (Hc & Hd & Hp) F']; subst.
    rewrite Hd, Hc, Hp. apply IH, F'.
Qed.

Lemma parseAddrScan_dot (pre : list byte) :
  forall all rest,
  Forall plainChar pre ->
  parseAddrScan all (pre ++ chDot :: rest)
    = option_map (fun f => v4InV6Prefix ++ f) (parseIPv4Fields all).
Proof.
  induction pre as [|c pre IH]; intros all rest F; cbn [app parseAddrScan].
  - reflexivity.
  - inversion F as [|? ? (Hc & Hd & Hp) F']; subst.
    rewrite Hd, Hc, Hp. apply IH, F'.
Qed.

Lemma noPercent_app (s t : list byte) :
  noPercent s -> noPercent t -> noPercent (s ++ t).
Proof.
  unfold noPercent. intros Hs Ht. rewrite existsb_app, Hs, Ht. reflexivity.
Qed.

Lemma noPercent_appendHex (g : Z) : 0 <= g < 65536 -> noPercent (appendHex g).
Proof.
  intros R. destruct (appendHex_head g R) as (c & tl & -> & Hc & F).
  assert (A : Forall plainChar (c :: tl)) by (constructor; assumption).
  clear Hc F. unfold noPercent.
  induction A as [|x l (_ & _ & Hp) A IH]; cbn; [reflexivity|].
  rewrite Hp. exact IH.
Qed.

(** The text of [appendTo6] holds no zone. *)
Lemma noPercent_groupsFrom (ip : list byte) (zs ze : nat) (n : nat) :
  forall i, noPercent (groupsFrom ip zs ze n i).
Proof.
  induction n as [|n IH]; intros i; cbn [groupsFrom]; [reflexivity|].
  destruct (8 <=? i)%nat; [reflexivity|].
  destruct (i =? zs)%nat.
  - apply (noPercent_app [chColon; chColon]); [reflexivity|].
    destruct (8 <=? ze)%nat; [reflexivity|].
    apply noPercent_app; [apply noPercent_appendHex, v6u16_range | apply IH].
  - apply noPercent_app; [destruct (0 <? i)%nat; reflexivity|].
    apply noPercent_app; [apply noPercent_appendHex, v6u16_range | apply IH].
Qed.

(** [parseIPv6] on a text that does not start with a colon. *)
Lemma parseIPv6_plain_head (c : byte) (s : list byte) :
  Byte.eqb c chColon = false ->
  noPercent (c :: s) ->
  parseIPv6 (c :: s) = parseIPv6Loop 8 (c :: s) [] None.
Proof.
  intros Hc Hp. unfold parseIPv6. unfold noPercent in Hp. rewrite Hp.
  destruct s; [reflexivity|]. rewrite Hc. reflexivity.
Qed.

Lemma parseIPv6_group_head (g : Z) (rest : list byte) :
  0 <= g < 65536 ->
  noPercent (appendHex g ++ rest) ->
  parseIPv6 (appendHex g ++ rest) = parseIPv6Loop 8 (appendHex g ++ rest) [] None.
Proof.
  intros R. destruct (appendHex_head g R) as (c & tl & -> & (Hc & _) & _).
  cbn [app]. apply parseIPv6_plain_head, Hc.
Qed.

(** [parseIPv6] on a text that starts with the double colon and goes on
    with a group. *)
Lemma parseIPv6_ellipsis_head (g : Z) (rest : list byte) :
  0 <= g < 65536 ->
  noPercent (chColon :: chColon :: appendHex g ++ rest) ->
  parseIPv6 (chColon :: chColon :: appendHex g ++ rest)
    = parseIPv6Loop 8 (appendHex g ++ rest) [] (Some 0%nat).
Proof.
  intros R Hp. unfold parseIPv6. unfold noPercent in Hp. rewrite Hp.
  change (Byte.eqb chColon chColon) with true. cbn [andb].
  destruct (appendHex_head g R) as (c & tl & -> & _). reflexivity.
Qed.

End ParseSteps.

Section ZeroRun.
Import NetIP.

Lemma zeroRunEnd_spec (ip : list byte) (n : nat) :
  forall j,
  (j <= zeroRunEnd ip n j)%nat /\
  (zeroRunEnd ip n j = j \/ zeroRunEnd ip n j <= 8)%nat /\
  (forall k, (j <= k < zeroRunEnd ip n j)%nat -> v6u16 ip k = 0).
Proof.
  induction n as [|n IH]; intros j; cbn [zeroRunEnd].
  - repeat split; auto. intros k Hk. lia.
  - destruct (Nat.ltb_spec j 8); cbn [andb].
    + destruct (Z.eqb_spec (v6u16 ip j) 0) as [Hz|Hz].
      * destruct (IH (S j)) as (A & B & C).
        repeat split; [lia | right; lia |].
        intros k Hk. destruct (Nat.eq_dec k j) as [->|]; [exact Hz|].
        apply C. lia.
      * repeat split; auto. intros k Hk. lia.
    + repeat split; auto. intros k Hk. lia.
Qed.

Lemma longestZeroRun_spec (ip : list byte) : zeroRun ip (longestZeroRun ip).
Proof.
  unfold longestZeroRun.
  assert (G : forall l st, zeroRun ip st ->
    zeroRun ip (fold_left
      (fun (st : nat * nat) (i : nat) =>
         let '(zeroStart, zeroEnd) := st in
         let j := zeroRunEnd ip 8 i in
         let l := (j - i)%nat in
         if (2 <=? l)%nat && (zeroEnd - zeroStart <? l)%nat then (i, j) else st)
      l st)).
  { induction l as [|i l IH]; intros st Hst; cbn [fold_left]; [exact Hst|].
    apply IH. destruct st as [zs ze].
    destruct (zeroRunEnd_spec ip 8 i) as (A & B & C).
    destruct (Nat.leb_spec 2 (zeroRunEnd ip 8 i - i)); cbn [andb]; [|exact Hst].
    destruct (ze - zs <? zeroRunEnd ip 8 i - i)%nat; [|exact Hst].
    right. cbn [fst snd]. repeat split; [lia | lia | exact C]. }
  apply G. now left.
Qed.

End ZeroRun.

Section TextRoundTrip.
Import NetIP.

Lemma appendHex_plain (g : Z) : 0 <= g < 65536 -> Forall plainChar (appendHex g).
Proof.
  intros R. destruct (appendHex_head g R) as (c & tl & -> & Hc & F).
  constructor; assumption.
Qed.

Lemma parseAddrScan_colon_head (all rest : list byte) :
  parseAddrScan all (chColon :: rest) = parseIPv6 all.
Proof. reflexivity. Qed.

Ltac parse_side :=
  first [ apply v6u16_range
        | apply appendHex_plain, v6u16_range
        | assumption
        | cbn [length app putUint16 Nat.add]; lia ].

Ltac parse_groups :=
  repeat first
    [ rewrite loop_step_colon by parse_side
    | rewrite loop_step_ellipsis by parse_side
    | rewrite loop_step_ellipsis_end by parse_side
    | rewrite loop_step_end by parse_side ].

Ltac zero_at Z3 k :=
  try (let H := fresh in
       assert (H := v6u16_zero _ k (Z3 k ltac:(lia)));
       cbn [nth Nat.mul Nat.add] in H; destruct H as [? ?]; subst).

Ltac parse_text :=
  let Hp := fresh "Hp" in
  cbn [groupsFrom Nat.leb Nat.eqb Nat.ltb app]; intros Hp;
  first [ rewrite parseAddrScan_colon by parse_side
        | rewrite parseAddrScan_colon_head ];
  first [ rewrite parseIPv6_group_head by parse_side
        | rewrite parseIPv6_ellipsis_head by parse_side
        | idtac ];
  parse_groups;
  rewrite ?putUint16_v6u16;
  reflexivity.

(** The text of a 16-byte address parses back to the address. *)
Lemma parseIPv6_string6 (ip : list byte) :
  length ip = 16%nat -> parseAddrScan (string6 ip) (string6 ip) = Some ip.
Proof.
  intros L.
  do 16 (destruct ip as [|? ip]; [discriminate L|]).
  destruct ip; [clear L | discriminate L].
  assert (Hp : noPercent (string6 [b; b0; b1; b2; b3; b4; b5; b6; b7; b8; b9; b10; b11; b12; b13; b14])).
  { unfold string6. destruct (longestZeroRun _). apply noPercent_groupsFrom. }
  revert Hp. unfold string6.
  pose proof (longestZeroRun_spec
                [b; b0; b1; b2; b3; b4; b5; b6; b7; b8; b9; b10; b11; b12; b13; b14]) as Z.
  destruct (longestZeroRun _) as [zs ze].
  destruct Z as [Z | (Z1 & Z2 & Z3)]; cbn [fst snd] in *.
  - injection Z as -> ->. parse_text.
  - destruct zs as [|[|[|[|[|[|[|zs]]]]]]]; [..|exfalso; lia];
      destruct ze as [|[|[|[|[|[|[|[|[|ze]]]]]]]]]; try (exfalso; lia);
      zero_at Z3 0%nat; zero_at Z3 1%nat; zero_at Z3 2%nat; zero_at Z3 3%nat;
      zero_at Z3 4%nat; zero_at Z3 5%nat; zero_at Z3 6%nat; zero_at Z3 7%nat;
      clear Z1 Z2 Z3; parse_text.
Qed.

End TextRoundTrip.

Section DottedDecimal.
Import NetIP.

(** The decimal digits of a byte, read by the loop of
    [parseIPv4Fields]: the value is back in [val]. *)
Lemma parseIPv4Loop_decimal (a : byte) :
  forall (tail : list byte) (first prevDot : bool) (pos : nat)
         (fields : list byte),
  exists digLen,
    parseIPv4Loop (appendDecimal (byte_to_Z a) ++ tail) first prevDot
                  0 pos 0 fields
    = parseIPv4Loop tail false false (byte_to_Z a) pos digLen fields.
Proof.
  intros tail first prevDot pos fields.
  destruct a; eexists; reflexivity.
Qed.

Lemma appendDecimal_plain (a : byte) :
  Forall plainChar (appendDecimal (byte_to_Z a)) /\
  exists c tl, appendDecimal (byte_to_Z a) = c :: tl.
Proof.
  destruct a; (split; [repeat constructor | eexists; eexists; reflexivity]).
Qed.

(** A dot between two numbers. *)
Lemma parseIPv4Loop_dot (b : byte) (rest : list byte) (val : Z) (pos : nat)
      (digLen : Z) (fields : list byte) :
  (pos < 3)%nat ->
  parseIPv4Loop (chDot :: appendDecimal (byte_to_Z b) ++ rest)
                false false val pos digLen fields
  = parseIPv4Loop (appendDecimal (byte_to_Z b) ++ rest)
                  false true 0 (S pos) 0 (fields ++ [byte_of_Z val]).
Proof.
  intros P. destruct (appendDecimal_plain b) as (_ & c & tl & ->).
  cbn [parseIPv4Loop app].
  change (isDigit chDot) with false. change (Byte.eqb chDot chDot) with true.
  cbn [orb]. destruct (Nat.eqb_spec pos 3); [exfalso; lia | reflexivity].
Qed.

(** Dotted decimal parses back to the four bytes. *)
Lemma parseIPv4Fields_string4 (a b c d : byte) :
  parseIPv4Fields (string4 [a; b; c; d]) = Some [a; b; c; d].
Proof.
  unfold parseIPv4Fields, string4. cbn [nth app].
  rewrite <- (app_nil_r (appendDecimal (byte_to_Z d))).
  destruct (parseIPv4Loop_decimal a
              (chDot :: appendDecimal (byte_to_Z b) ++
               chDot :: appendDecimal (byte_to_Z c) ++
               chDot :: appendDecimal (byte_to_Z d) ++ [])
              true false 0%nat []) as (k1 & ->).
  rewrite parseIPv4Loop_dot by lia.
  destruct (parseIPv4Loop_decimal b
              (chDot :: appendDecimal (byte_to_Z c) ++
               chDot :: appendDecimal (byte_to_Z d) ++ [])
              false true 1%nat ([] ++ [byte_of_Z (byte_to_Z a)])) as (k2 & ->).
  rewrite parseIPv4Loop_dot by lia.
  destruct (parseIPv4Loop_decimal c
              (chDot :: appendDecimal (byte_to_Z d) ++ [])
              false true 2%nat
              (([] ++ [byte_of_Z (byte_to_Z a)]) ++ [byte_of_Z (byte_to_Z b)]))
    as (k3 & ->).
  rewrite parseIPv4Loop_dot by lia.
  destruct (parseIPv4Loop_decimal d [] false true 3%nat
              ((([] ++ [byte_of_Z (byte_to_Z a)]) ++ [byte_of_Z (byte_to_Z b)])
                 ++ [byte_of_Z (byte_to_Z c)])) as (k4 & ->).
  cbn [parseIPv4Loop Nat.ltb Nat.leb app]. rewrite !byte_of_to_Z. reflexivity.
Qed.

Lemma parseAddrScan_string4 (a b c d : byte) :
  parseAddrScan (string4 [a; b; c; d]) (string4 [a; b; c; d])
    = Some (v4InV6Prefix ++ [a; b; c; d]).
Proof.
  assert (E : parseAddrScan (string4 [a; b; c; d]) (string4 [a; b; c; d])
              = option_map (fun f => v4InV6Prefix ++ f)
                           (parseIPv4Fields (string4 [a; b; c; d]))).
  { unfold string4 at 2. cbn [nth app].
    apply parseAddrScan_dot. apply appendDecimal_plain. }
  rewrite E, parseIPv4Fields_string4. reflexivity.
Qed.

End DottedDecimal.

Section AddressText.
Import NetIP.

(** [net.ParseIP(ip.String())] for a 4-byte address is its 16-byte,
    IPv4-mapped form. *)
Lemma ParseIP_String_4 (ip : list byte) :
  length ip = 4%nat -> ParseIP (String ip) = v4InV6Prefix ++ ip.
Proof.
  intros L.
  do 4 (destruct ip as [|? ip]; [discriminate L|]).
  destruct ip; [clear L | discriminate L].
  unfold ParseIP, String. cbn [len length Z.of_nat Z.eqb Pos.of_succ_nat
    Pos.succ Pos.eqb negb andb To4].
  rewrite parseAddrScan_string4. reflexivity.
Qed.

(** [net.ParseIP(ip.String())] for a 16-byte address is the address. *)
Lemma ParseIP_String_16 (ip : list byte) :
  length ip = 16%nat -> ParseIP (String ip) = ip.
Proof.
  intros L. unfold ParseIP, String.
  assert (L16 : len ip = 16) by (unfold len; rewrite L; reflexivity).
  rewrite L16. cbn [Z.eqb Pos.eqb negb andb].
  destruct (len (To4 ip) =? 4) eqn:E4.
  - unfold To4 in *. rewrite L16 in *. cbn [Z.eqb Pos.eqb andb] in *.
    do 16 (destruct ip as [|? ip]; [discriminate L|]).
    destruct ip; [clear L | discriminate L].
    destruct (allZero _ && _ && _) eqn:EZ; [|discriminate E4].
    unfold allZero, sub in EZ.
    change (Z.to_nat (10 - 0)) with 10%nat in EZ.
    change (Z.to_nat 0) with 0%nat in EZ.
    cbn [firstn skipn forallb nth] in EZ.
    repeat match goal with
           | H : (_ && _)%bool = true |- _ => apply andb_prop in H; destruct H
           end.
    repeat match goal with
           | H : Byte.eqb _ _ = true |- _ => apply Byte.byte_dec_bl in H
           end.
    subst.
    change (sub _ 12 16) with [b11; b12; b13; b14].
    rewrite parseAddrScan_string4. reflexivity.
  - rewrite parseIPv6_string6 by exact L. reflexivity.
Qed.

Lemma To4_ParseIP_String (ip : list byte) :
  length ip = 4%nat -> To4 (ParseIP (String ip)) = ip.
Proof.
  intros L. rewrite ParseIP_String_4 by exact L.
  do 4 (destruct ip as [|? ip]; [discriminate L|]).
  destruct ip; [reflexivity | discriminate L].
Qed.

Lemma To16_ParseIP_String (ip : list byte) :
  length ip = 16%nat -> To16 (ParseIP (String ip)) = ip.
Proof.
  intros L. rewrite ParseIP_String_16 by exact L.
  unfold To16. unfold len. rewrite L. reflexivity.
Qed.

End AddressText.

(** ** The address codec *)

Section AddressCodec.
Import UDP.

Lemma len_cons {A : Type} (x : A) (s : list A) : len (x :: s) = 1 + len s.
Proof. unfold len. cbn [length]. lia. Qed.

Lemma len_nil {A : Type} : len (@nil A) = 0.
Proof. reflexivity. Qed.

Lemma sub_all_from (s : list byte) (lo : Z) :
  0 <= lo -> sub s lo (len s) = skipn (Z.to_nat lo) s.
Proof.
  intros H. unfold sub. apply firstn_all2. rewrite length_skipn.
  unfold len. lia.
Qed.

Lemma sub_middle (p s t : list byte) (lo hi : Z) :
  lo = len p -> hi = len p + len s -> sub (p ++ s ++ t) lo hi = s.
Proof.
  intros -> ->. unfold sub, len.
  rewrite Nat2Z.id, skipn_app, Nat.sub_diag, skipn_all. cbn [app skipn].
  replace (Z.to_nat (Z.of_nat (length p) + Z.of_nat (length s)
                     - Z.of_nat (length p))) with (length s) by lia.
  rewrite firstn_app, Nat.sub_diag, firstn_all. cbn. apply app_nil_r.
Qed.

Lemma skipn_prefix (p s : list byte) (n : nat) :
  n = length p -> skipn n (p ++ s) = s.
Proof.
  intros ->. rewrite skipn_app, Nat.sub_diag, skipn_all. reflexivity.
Qed.

(** The port written by [PutUint16] and read back by [Uint16]. *)
Lemma Uint16_putUint16 (port : Z) :
  0 <= port < 65536 -> Uint16 (putUint16 port) = Done port.
Proof.
  intros R. rewrite Uint16_ok by reflexivity. cbn [putUint16 nth].
  rewrite be_putUint16 by exact R. reflexivity.
Qed.

(** What [buildUDPReply] writes for an address: its wire bytes. *)
Lemma encode_wire (ta : TargetAddress) (port : Z) (payload : list byte) :
  wellFormed ta ->
  encode ta port payload
    = [x00; x00; x00; tagOf ta] ++ wireOf ta ++ putUint16 port ++ payload.
Proof.
  intros W. unfold encode, buildUDPReply.
  destruct ta as [a|a|name]; cbn [tagOf textOf wireOf wellFormed] in *.
  - change (Byte.eqb ipv4Address ipv4Address) with true. cbn iota.
    rewrite To4_ParseIP_String by exact W.
    rewrite <- !app_assoc. reflexivity.
  - change (Byte.eqb ipv6Address ipv4Address) with false.
    change (Byte.eqb ipv6Address domainName) with false.
    change (Byte.eqb ipv6Address ipv6Address) with true. cbn iota.
    rewrite To16_ParseIP_String by exact W.
    rewrite <- !app_assoc. reflexivity.
  - change (Byte.eqb domainName ipv4Address) with false.
    change (Byte.eqb domainName domainName) with true. cbn iota.
    rewrite <- !app_assoc. reflexivity.
Qed.

Lemma decode_header (tag : byte) (addr : list byte) (text : list byte)
      (hl : Z) (port : Z) (payload : list byte) :
  0 <= port < 65536 ->
  hl = 4 + len addr + 2 ->
  decodeAddress ([x00; x00; x00; tag] ++ addr ++ putUint16 port ++ payload) tag
    = Done (text, hl) ->
  decodeTarget ([x00; x00; x00; tag] ++ addr ++ putUint16 port ++ payload)
    = Done (mkHeader tag text hl port payload).
Proof.
  intros R Hl D. unfold decodeTarget.
  set (data := [x00; x00; x00; tag] ++ addr ++ putUint16 port ++ payload) in *.
  assert (Ld : len data = 4 + len addr + 2 + len payload).
  { subst data. rewrite !len_app.
    change (len [x00; x00; x00; tag]) with 4.
    change (len (putUint16 port)) with 2. lia. }
  pose proof (len_nonneg addr). pose proof (len_nonneg payload).
  rewrite index_ok by lia.
  change (nth (Z.to_nat 3) data x00) with tag. cbn [obind].
  rewrite D. cbn [obind].
  rewrite slice_ok by lia. cbn [obind].
  assert (P : sub data (hl - 2) (hl - 2 + 2) = putUint16 port).
  { subst data. rewrite app_assoc.
    apply sub_middle; rewrite len_app; change (len (putUint16 port)) with 2;
      change (len [x00; x00; x00; tag]) with 4; lia. }
  rewrite P, Uint16_putUint16 by exact R. cbn [obind].
  unfold sliceFrom. rewrite slice_ok by lia. cbn [obind].
  rewrite sub_all_from by lia.
  subst data.
  replace ([x00; x00; x00; tag] ++ addr ++ putUint16 port ++ payload)
    with (([x00; x00; x00; tag] ++ addr ++ putUint16 port) ++ payload)
    by (rewrite <- !app_assoc; reflexivity).
  rewrite skipn_prefix; [reflexivity|].
  rewrite !length_app. cbn [length putUint16]. unfold len in *. lia.
Qed.


(** The decoder on an encoded address. *)
Lemma decodeTarget_encode (ta : TargetAddress) (port : Z) (payload : list byte) :
  wellFormed ta ->
  0 <= port < 65536 ->
  decodeTarget (encode ta port payload)
    = Done (mkHeader (tagOf ta) (textOf ta) (4 + len (wireOf ta) + 2)
                     port payload).
Proof.
  intros W R. rewrite (encode_wire ta port payload W).
  apply decode_header; [exact R | reflexivity |].
  unfold decodeAddress.
  set (data := [x00; x00; x00; tagOf ta] ++ wireOf ta ++ putUint16 port ++ payload).
  assert (Ld : len data = 4 + len (wireOf ta) + 2 + len payload).
  { subst data. rewrite !len_app.
    change (len [x00; x00; x00; tagOf ta]) with 4.
    change (len (putUint16 port)) with 2. lia. }
  pose proof (len_nonneg payload).
  destruct ta as [a|a|name]; cbn [tagOf textOf wireOf wellFormed] in *.
  - change (Byte.eqb ipv4Address ipv4Address) with true. cbn iota.
    assert (La : len a = 4) by (unfold len; rewrite W; reflexivity).
    destruct (Z.ltb_spec (len data) 10); [exfalso; lia|].
    rewrite slice_ok by lia. cbn [obind].
    assert (S : sub data 4 8 = a).
    { subst data. apply sub_middle; [reflexivity | rewrite La; reflexivity]. }
    rewrite S, La. reflexivity.
  - change (Byte.eqb ipv6Address ipv4Address) with false.
    change (Byte.eqb ipv6Address domainName) with false.
    change (Byte.eqb ipv6Address ipv6Address) with true. cbn iota.
    assert (La : len a = 16) by (unfold len; rewrite W; reflexivity).
    destruct (Z.ltb_spec (len data) 22); [exfalso; lia|].
    rewrite slice_ok by lia. cbn [obind].
    assert (S : sub data 4 20 = a).
    { subst data. apply sub_middle; [reflexivity | rewrite La; reflexivity]. }
    rewrite S, La. reflexivity.
  - change (Byte.eqb domainName ipv4Address) with false.
    change (Byte.eqb domainName domainName) with true. cbn iota.
    pose proof (len_nonneg name) as Ln.
    rewrite len_cons in Ld.
    destruct (Z.ltb_spec (len data) 5); [exfalso; lia|].
    rewrite index_ok by lia.
    change (nth (Z.to_nat 4) data x00) with (byte_of_Z (len name)).
    cbn [obind]. rewrite byte_to_of_Z, Z.mod_small by lia.
    destruct (Z.ltb_spec (len data) (7 + len name)); [exfalso; lia|].
    rewrite slice_ok by lia. cbn [obind].
    assert (S : sub data 5 (5 + len name) = name).
    { subst data.
      change ([x00; x00; x00; domainName] ++
              (byte_of_Z (len name) :: name) ++ putUint16 port ++ payload)
        with ([x00; x00; x00; domainName; byte_of_Z (len name)] ++
              name ++ putUint16 port ++ payload).
      apply sub_middle; reflexivity. }
    rewrite S, len_cons. f_equal. f_equal. lia.
Qed.



(** The boundaries of the domain length, on the wire: one byte and 255
    bytes, each with an empty payload. *)
Lemma domain_length_boundaries :
  let long := repeat x61 255 in
  decodeTarget (encode (Domain [x61]) 443 [])
    = Done (mkHeader domainName [x61] 8 443 []) /\
  decodeTarget (encode (Domain long) 443 [])
    = Done (mkHeader domainName long 262 443 []).
Proof. cbv zeta. split; vm_compute; reflexivity. Qed.

End AddressCodec.

(** ** The datagram relay *)

Section DatagramRelay.
Import UDP.

Lemma firstn_plus (a b : nat) :
  forall s : list byte, firstn (a + b) s = firstn a s ++ firstn b (skipn a s).
Proof.
  induction a as [|a IH]; intros [|x s]; cbn [Nat.add firstn skipn app];
    try reflexivity.
  - destruct b; reflexivity.
  - f_equal. apply IH.
Qed.

Lemma sub_split (s : list byte) (lo mid hi : Z) :
  0 <= lo -> lo <= mid -> mid <= hi ->
  sub s lo hi = sub s lo mid ++ sub s mid hi.
Proof.
  intros H0 H1 H2. unfold sub.
  replace (Z.to_nat (hi - lo)) with (Z.to_nat (mid - lo) + Z.to_nat (hi - mid))%nat
    by lia.
  rewrite firstn_plus. f_equal. rewrite skipn_skipn. do 2 f_equal. lia.
Qed.

Lemma sub_one (s : list byte) (i : Z) :
  0 <= i < len s -> sub s i (i + 1) = [nth (Z.to_nat i) s x00].
Proof.
  intros H. unfold sub, len in *.
  replace (Z.to_nat (i + 1 - i)) with 1%nat by lia.
  assert (G : forall n (t : list byte), (n < length t)%nat ->
                firstn 1 (skipn n t) = [nth n t x00]).
  { induction n as [|n IH]; intros [|x t] L; cbn in *; try lia; auto.
    apply IH. lia. }
  apply G. lia.
Qed.

Lemma sub_two (s : list byte) (i : Z) :
  0 <= i -> i + 2 <= len s ->
  sub s i (i + 2) = [nth (Z.to_nat i) s x00; nth (Z.to_nat (i + 1)) s x00].
Proof.
  intros H0 H1. rewrite (sub_split s i (i + 1) (i + 2)) by lia.
  rewrite sub_one by lia.
  replace (i + 2) with (i + 1 + 1) by lia. rewrite sub_one by lia.
  reflexivity.
Qed.

(** What the switch on the address type leaves, by address type. *)
Lemma decodeAddress_inv (data : list byte) (t : byte) (a : list byte) (hl : Z) :
  5 <= len data ->
  decodeAddress data t = Done (a, hl) ->
  (t = ipv4Address /\ hl = 10 /\ 10 <= len data /\
   a = NetIP.String (sub data 4 8)) \/
  (t = domainName /\ hl = 7 + byte_to_Z (nth 4 data x00) /\ hl <= len data /\
   a = sub data 5 (5 + byte_to_Z (nth 4 data x00))) \/
  (t = ipv6Address /\ hl = 22 /\ 22 <= len data /\
   a = NetIP.String (sub data 4 20)).
Proof.
  intros L. unfold decodeAddress.
  destruct (Byte.eqb t ipv4Address) eqn:E4.
  { apply Byte.byte_dec_bl in E4.
    destruct (Z.ltb_spec (len data) 10); [discriminate|].
    rewrite slice_ok by lia. cbn [obind]. intros E. injection E as <- <-.
    left. auto. }
  destruct (Byte.eqb t domainName) eqn:E3.
  { apply Byte.byte_dec_bl in E3.
    destruct (Z.ltb_spec (len data) 5); [discriminate|].
    rewrite index_ok by lia. cbn [obind].
    change (Z.to_nat 4) with 4%nat.
    pose proof (byte_to_Z_range (nth 4 data x00)).
    destruct (Z.ltb_spec (len data) (7 + byte_to_Z (nth 4 data x00)));
      [discriminate|].
    rewrite slice_ok by lia. cbn [obind]. intros E. injection E as <- <-.
    right; left. auto. }
  destruct (Byte.eqb t ipv6Address) eqn:E6.
  { apply Byte.byte_dec_bl in E6.
    destruct (Z.ltb_spec (len data) 22); [discriminate|].
    rewrite slice_ok by lia. cbn [obind]. intros E. injection E as <- <-.
    right; right. auto. }
  discriminate.
Qed.

(** The header [buildUDPReply] writes from the decoded variables is the
    header of the packet, byte for byte from the address type on. *)
Lemma buildUDPReply_same_header (data : list byte) (h : header)
      (reply : list byte) :
  5 <= len data ->
  decodeTarget data = Done h ->
  buildUDPReply (targetAddr h) (targetPort h) (addrType h) reply
    = [x00; x00; x00] ++ sub data 3 (headerLen h) ++ reply.
Proof.
  intros L D.
  destruct (decodeTarget_cases data L) as [E | (h' & E & B & Ht & Hp & _)];
    rewrite D in E; [discriminate|].
  injection E as <-.
  unfold decodeTarget in D. rewrite index_ok in D by lia.
  change (Z.to_nat 3) with 3%nat in D. cbn [obind] in D.
  destruct (decodeAddress data (nth 3 data x00)) as [[a hl]| |] eqn:DA;
    cbn [obind] in D; try discriminate.
  assert (Ha : a = targetAddr h /\ hl = headerLen h).
  { destruct (slice data (hl - 2) (hl - 2 + 2)) as [pb| |]; cbn [obind] in D;
      try discriminate.
    destruct (Uint16 pb); cbn [obind] in D; try discriminate.
    destruct (sliceFrom data hl); cbn [obind] in D; try discriminate.
    injection D as <-. auto. }
  destruct Ha as [-> ->]. clear D.
  assert (P : putUint16 (targetPort h)
              = sub data (headerLen h - 2) (headerLen h)).
  { assert (S2 := sub_two data (headerLen h - 2)).
    replace (headerLen h - 2 + 2) with (headerLen h) in S2 by lia.
    replace (headerLen h - 2 + 1) with (headerLen h - 1) in S2 by lia.
    rewrite Hp, putUint16_be, S2 by lia. reflexivity. }
  assert (T : sub data 3 4 = [addrType h]).
  { change 4 with (3 + 1). rewrite sub_one by lia. rewrite Ht. reflexivity. }
  unfold buildUDPReply. rewrite P.
  destruct (decodeAddress_inv _ _ _ _ L DA)
    as [(E & Hl & L' & A) | [(E & Hl & L' & A) | (E & Hl & L' & A)]];
    rewrite <- Ht in E; rewrite E.
  - change (Byte.eqb ipv4Address ipv4Address) with true. cbn iota.
    rewrite A, To4_ParseIP_String
      by (unfold sub; rewrite length_firstn, length_skipn; unfold len in *; lia).
    rewrite (sub_split data 3 4 (headerLen h)) by lia.
    rewrite (sub_split data 4 (headerLen h - 2) (headerLen h)) by lia.
    rewrite T, E, Hl. rewrite <- !app_assoc. reflexivity.
  - change (Byte.eqb domainName ipv4Address) with false.
    change (Byte.eqb domainName domainName) with true. cbn iota.
    pose proof (byte_to_Z_range (nth 4 data x00)).
    rewrite (sub_split data 3 4 (headerLen h)) by lia.
    rewrite (sub_split data 4 5 (headerLen h)) by lia.
    rewrite (sub_split data 5 (headerLen h - 2) (headerLen h)) by lia.
    rewrite T, E. change 5 with (4 + 1) at 1. rewrite sub_one by lia.
    change (Z.to_nat 4) with 4%nat.
    rewrite A, len_sub by lia.
    replace (5 + byte_to_Z (nth 4 data x00) - 5)
      with (byte_to_Z (nth 4 data x00)) by lia.
    rewrite byte_of_to_Z.
    replace (headerLen h - 2) with (5 + byte_to_Z (nth 4 data x00)) by lia.
    rewrite <- !app_assoc. reflexivity.
  - change (Byte.eqb ipv6Address ipv4Address) with false.
    change (Byte.eqb ipv6Address domainName) with false.
    change (Byte.eqb ipv6Address ipv6Address) with true. cbn iota.
    rewrite A, To16_ParseIP_String
      by (unfold sub; rewrite length_firstn, length_skipn; unfold len in *; lia).
    rewrite (sub_split data 3 4 (headerLen h)) by lia.
    rewrite (sub_split data 4 (headerLen h - 2) (headerLen h)) by lia.
    rewrite T, E, Hl. rewrite <- !app_assoc. reflexivity.
Qed.



End DatagramRelay.

(* ================================================================== *)
(** * Further properties *)

(** ** Datagrams: malformed envelopes, replies, sockets *)

Section DatagramEdges.
Import UDP.

(** X1.  An envelope that is too short, has a reserved or fragment byte that
    is not zero, or an address type other than 0x01, 0x03, 0x04 is
    dropped by [processUDPPacket] before any socket is touched: nothing
    is dialed, nothing forwarded, nothing sent back. *)
Theorem malformed_envelope_is_dropped_silently
        (net : UDPNet) (data : list byte) (clientAddr : UDPAddr) :
  len data < 10 \/
  nth 0 data x00 <> x00 \/ nth 1 data x00 <> x00 \/ nth 2 data x00 <> x00 \/
  (nth 3 data x00 <> ipv4Address /\ nth 3 data x00 <> domainName /\
   nth 3 data x00 <> ipv6Address) ->
  processUDPPacket net data clientAddr = Done [].
Proof.
  intros H. unfold processUDPPacket.
  assert (D : parseUDPPacket data = Dropped \/
              exists h, parseUDPPacket data = Done h /\ False).
  { unfold parseUDPPacket.
    destruct (checkEnvelope_cases data) as [-> | (-> & L & E0 & E1 & E2)];
      [now left|].
    cbn [obind].
    destruct H as [H | [H | [H | [H | (N4 & N3 & N6)]]]];
      try (exfalso; lia); try contradiction.
    left. unfold decodeTarget. rewrite index_ok by lia.
    change (Z.to_nat 3) with 3%nat. cbn [obind].
    unfold decodeAddress.
    destruct (Byte.eqb (nth 3 data x00) ipv4Address) eqn:E4;
      [apply Byte.byte_dec_bl in E4; contradiction|].
    destruct (Byte.eqb (nth 3 data x00) domainName) eqn:E3;
      [apply Byte.byte_dec_bl in E3; contradiction|].
    destruct (Byte.eqb (nth 3 data x00) ipv6Address) eqn:E6;
      [apply Byte.byte_dec_bl in E6; contradiction|].
    reflexivity. }
  destruct D as [-> | (h & _ & [])]. reflexivity.
Qed.

Lemma malformed_envelope_is_dropped_silently_witness :
  processUDPPacket
    (mkUDPNet (fun _ => true) (fun _ => true) (fun _ _ => true)
              (fun _ _ => Some [x6f; x6b]) (fun _ _ => true))
    [x00; x00; x01; x01; x5d; xb8; xd8; x22; x00; x35; x68; x69]
    (mkUDPAddr [x7f; x00; x00; x01] 40000)
  = Done [].
Proof.
  apply (malformed_envelope_is_dropped_silently
           (mkUDPNet (fun _ => true) (fun _ => true) (fun _ _ => true)
                     (fun _ _ => Some [x6f; x6b]) (fun _ _ => true))
           [x00; x00; x01; x01; x5d; xb8; xd8; x22; x00; x35; x68; x69]
           (mkUDPAddr [x7f; x00; x00; x01] 40000)).
  right; right; right; left. discriminate.
Defined.

Lemma repliesTo_app (a b : list event) :
  repliesTo (a ++ b) = repliesTo a ++ repliesTo b.
Proof. unfold repliesTo. apply flat_map_app. Qed.

(** X2.  Whatever the packet and whatever the network does,
    [processUDPPacket] sends at most one datagram on the relay socket,
    and only to the sender of the packet, and only when the packet was
    accepted and the destination's datagram was read: no failure is
    answered. *)
Theorem at_most_one_reply_and_only_to_the_sender
        (net : UDPNet) (data : list byte) (clientAddr : UDPAddr) :
  exists evs,
    processUDPPacket net data clientAddr = Done evs /\
    (repliesTo evs = [] \/
     exists h datagram reply,
       parseUDPPacket data = Done h /\
       tempRead net (hostPort (targetAddr h) (targetPort h)) (payload h)
         = Some datagram /\
       repliesTo evs = [(reply, clientAddr)]).
Proof.
  unfold processUDPPacket.
  destruct (parseUDPPacket_cases data) as [-> | (h & P & _)].
  { exists []. split; [reflexivity | now left]. }
  rewrite P. eexists. split; [reflexivity|].
  unfold forward.
  destruct (resolveUDPAddr net _); cbn [negb]; [|now left].
  destruct (dialUDP net _); cbn [negb]; [|now left].
  destruct (tempWrite net _ _); cbn [negb]; [|now left].
  destruct (tempRead net _ _) as [datagram|] eqn:R; [|now left].
  right. exists h, datagram. eexists. split; [reflexivity|].
  split; [exact R|]. reflexivity.
Qed.

(** X3.  Once the dial of the destination has succeeded, whatever happens
    next (write error, timeout, reply), the calls of
    [processUDPPacket] start with that dial and end with the close of
    the socket it opened, which is closed once. *)
Theorem ephemeral_socket_is_closed
        (net : UDPNet) (data : list byte) (clientAddr : UDPAddr) (h : header) :
  parseUDPPacket data = Done h ->
  resolveUDPAddr net (hostPort (targetAddr h) (targetPort h)) = true ->
  dialUDP net (hostPort (targetAddr h) (targetPort h)) = true ->
  exists calls,
    processUDPPacket net data clientAddr
      = Done (EvDialUDP (hostPort (targetAddr h) (targetPort h)) :: calls
              ++ [EvClose (hostPort (targetAddr h) (targetPort h))]) /\
    Forall (fun e => match e with
                     | EvClose _ | EvDialUDP _ => False
                     | _ => True
                     end) calls.
Proof.
  intros P Hr Hd. unfold processUDPPacket. rewrite P.
  unfold forward. rewrite Hr, Hd. cbn [negb].
  destruct (tempWrite net _ _); cbn [negb].
  - destruct (tempRead net _ _) as [datagram|].
    + eexists [_; _; _; _]. split; [reflexivity|]. repeat constructor.
    + eexists [_; _; _]. split; [reflexivity|]. repeat constructor.
  - eexists [_]. split; [reflexivity|]. repeat constructor.
Qed.

Lemma ephemeral_socket_is_closed_witness :
  let net := mkUDPNet (fun _ => true) (fun _ => true) (fun _ _ => false)
                      (fun _ _ => None) (fun _ _ => true) in
  let data := [x00; x00; x00; x01; x5d; xb8; xd8; x22; x00; x35; x68; x69] in
  let target := [x39; x33; x2e; x31; x38; x34; x2e; x32; x31; x36;
                 x2e; x33; x34; x3a; x35; x33] in
  exists calls,
    processUDPPacket net data (mkUDPAddr [x7f; x00; x00; x01] 40000)
      = Done (EvDialUDP target :: calls ++ [EvClose target]) /\
    Forall (fun e => match e with
                     | EvClose _ | EvDialUDP _ => False
                     | _ => True
                     end) calls.
Proof.
  cbv zeta.
  apply (ephemeral_socket_is_closed
           (mkUDPNet (fun _ => true) (fun _ => true) (fun _ _ => false)
                     (fun _ _ => None) (fun _ _ => true))
           [x00; x00; x00; x01; x5d; xb8; xd8; x22; x00; x35; x68; x69]
           (mkUDPAddr [x7f; x00; x00; x01] 40000)
           (mkHeader x01 [x39; x33; x2e; x31; x38; x34; x2e; x32; x31; x36;
                          x2e; x33; x34] 10 53 [x68; x69]));
    reflexivity.
Defined.

(** X4.  Encoding what the parser decoded gives the packet back: for every
    packet [processUDPPacket] accepts, [buildUDPReply] on the decoded
    address type, address, port and payload is the packet itself, byte
    for byte. *)
Theorem reencoding_an_accepted_packet_reproduces_it
        (data : list byte) (h : header) :
  parseUDPPacket data = Done h ->
  buildUDPReply (targetAddr h) (targetPort h) (addrType h) (payload h) = data.
Proof.
  intros P.
  destruct (parseUDPPacket_cases data) as [E | (h' & E & L & B & _ & _ & Hp)];
    rewrite P in E; [discriminate|]. injection E as <-.
  unfold parseUDPPacket in P.
  destruct (checkEnvelope_cases data) as [E | (E & _ & E0 & E1 & E2)];
    rewrite E in P; [discriminate|]. cbn [obind] in P.
  rewrite (buildUDPReply_same_header data h (payload h) ltac:(lia) P).
  rewrite Hp.
  assert (Z3 : [x00; x00; x00] = sub data 0 3).
  { rewrite (sub_split data 0 1 3), (sub_split data 1 2 3) by lia.
    change 1 with (0 + 1) at 1. rewrite sub_one by lia.
    change 2 with (1 + 1) at 1. rewrite sub_one by lia.
    change 3 with (2 + 1). rewrite sub_one by lia.
    change (Z.to_nat 0) with 0%nat. change (Z.to_nat 1) with 1%nat.
    change (Z.to_nat 2) with 2%nat. rewrite E0, E1, E2. reflexivity. }
  rewrite Z3, app_assoc, <- sub_split by lia.
  unfold sub. rewrite Z.sub_0_r. cbn [Z.to_nat skipn].
  apply firstn_skipn.
Qed.

Lemma reencoding_an_accepted_packet_reproduces_it_witness :
  buildUDPReply [x61; x62; x63] 53 domainName [x68; x69]
  = [x00; x00; x00; x03; x03; x61; x62; x63; x00; x35; x68; x69].
Proof.
  apply (reencoding_an_accepted_packet_reproduces_it
           [x00; x00; x00; x03; x03; x61; x62; x63; x00; x35; x68; x69]
           (mkHeader domainName [x61; x62; x63] 10 53 [x68; x69])).
  reflexivity.
Defined.

(** X5.  The whole parser on an encoded envelope: it is accepted exactly
    when it holds ten bytes or more, and then the header is the
    address, port and payload that were encoded. *)
Theorem parser_accepts_encoded_envelopes_from_ten_bytes
        (ta : TargetAddress) (port : Z) (payload : list byte) :
  wellFormed ta ->
  0 <= port < 65536 ->
  parseUDPPacket (encode ta port payload)
    = if 4 + len (wireOf ta) + 2 + len payload <? 10 then Dropped
      else Done (mkHeader (tagOf ta) (textOf ta) (4 + len (wireOf ta) + 2)
                          port payload).
Proof.
  intros W R. unfold parseUDPPacket.
  pose proof (decodeTarget_encode ta port payload W R) as D.
  rewrite (encode_wire ta port payload W) in *.
  set (data := [x00; x00; x00; tagOf ta] ++ wireOf ta ++ putUint16 port ++ payload) in *.
  assert (Ld : len data = 4 + len (wireOf ta) + 2 + len payload).
  { subst data. rewrite !len_app.
    change (len [x00; x00; x00; tagOf ta]) with 4.
    change (len (putUint16 port)) with 2. lia. }
  unfold checkEnvelope. rewrite Ld.
  destruct (Z.ltb_spec (4 + len (wireOf ta) + 2 + len payload) 10);
    [reflexivity|].
  rewrite !index_ok by lia. cbn [obind]. exact D.
Qed.

Lemma parser_accepts_encoded_envelopes_from_ten_bytes_witness :
  parseUDPPacket (encode (Domain [x61; x62]) 53 [x68])
  = Done (mkHeader domainName [x61; x62] 9 53 [x68]).
Proof.
  apply (parser_accepts_encoded_envelopes_from_ten_bytes
           (Domain [x61; x62]) 53 [x68]).
  - cbn. unfold len. cbn. lia.
  - lia.
Defined.

End DatagramEdges.

(** ** Greeting and request: versions, commands, writes *)

Section HandshakeAndRequestEdges.
Import TCP.
Local Open Scope conn_scope.

(** X6.  [handshake] writes nothing but its reply: when it returns nil it
    has written 0x05 0x00 once; when the write fails that attempt is
    its only call; on every other error, and while it waits for bytes,
    it has written nothing. *)
Theorem handshake_writes_only_its_reply (w : World) :
  exists new,
    trace (snd (handshake w)) = trace w ++ new /\
    match fst (handshake w) with
    | Ok _ => new = [EvWrite Control [x05; x00] true]
    | Err ErrWrite => new = [EvWrite Control [x05; x00] false]
    | Err _ => new = []
    | Blocked => new = []
    end.
Proof.
  destruct (handshake w) as [r w'] eqn:E. cbn [fst snd].
  unfold handshake in E. unfold bind at 1 in E.
  destruct (readOr_cases ErrReadHandshake Control 2 w) as [Q R].
  destruct (readOr ErrReadHandshake Control 2 w) as [[buf|e|] w1];
    cbn [fst snd] in *.
  2:{ injection E as <- <-. destruct Q as (-> & _).
      destruct R as [R|[R|R]]; try discriminate. injection R as ->.
      exists []. rewrite app_nil_r. auto. }
  2:{ injection E as <- <-. destruct Q as (-> & _).
      exists []. rewrite app_nil_r. auto. }
  destruct (negb (Byte.eqb (nth 0 buf x00) socks5Version)).
  { unfold fail in E. injection E as <- <-. destruct Q as (-> & _).
    exists []. rewrite app_nil_r. auto. }
  unfold bind at 1 in E.
  destruct (readOr_cases ErrReadMethods Control (byte_to_Z (nth 1 buf x00)) w1)
    as [Q1 R1].
  destruct (readOr ErrReadMethods Control (byte_to_Z (nth 1 buf x00)) w1)
    as [[m|e|] w2]; cbn [fst snd] in *.
  2:{ injection E as <- <-. destruct (quiet_trans _ _ _ Q Q1) as (-> & _).
      destruct R1 as [R1|[R1|R1]]; try discriminate. injection R1 as ->.
      exists []. rewrite app_nil_r. auto. }
  2:{ injection E as <- <-. destruct (quiet_trans _ _ _ Q Q1) as (-> & _).
      exists []. rewrite app_nil_r. auto. }
  destruct (writeOr_control ErrWrite [socks5Version; noAuth] w2)
    as (ok & w3 & Hw & Ht & _).
  destruct (quiet_trans _ _ _ Q Q1) as (Hq & _).
  rewrite Hw in E. exists [EvWrite Control [x05; x00] ok].
  destruct ok; injection E as <- <-; rewrite Ht, Hq; auto.
Qed.

(** X7.  A version byte other than 0x05 ends [handshake], and likewise
    [handleRequest], with "unsupported SOCKS version": nothing is
    written, and nothing is read beyond the two bytes of the greeting,
    respectively the four bytes of the request header. *)
Theorem other_versions_are_refused_silently
        (w : World) (version b1 b2 b3 : byte) (rest : list byte) :
  version <> socks5Version ->
  pending (control w) = version :: b1 :: b2 :: b3 :: rest ->
  fst (handshake w) = Err (ErrVersion version) /\
  trace (snd (handshake w)) = trace w /\
  pending (control (snd (handshake w))) = b2 :: b3 :: rest /\
  fst (handleRequest w) = Err (ErrVersion version) /\
  trace (snd (handleRequest w)) = trace w /\
  pending (control (snd (handleRequest w))) = rest.
Proof.
  intros Hv Hp.
  assert (Ev : Byte.eqb version socks5Version = false).
  { destruct (Byte.eqb version socks5Version) eqn:E; [|reflexivity].
    apply Byte.byte_dec_bl in E. contradiction. }
  assert (H1 : handshake w
               = (Err (ErrVersion version),
                  setConn Control (mkConn (b2 :: b3 :: rest) (eof (control w))
                                          (writeErrs (control w))) w)).
  { unfold handshake. unfold bind at 1.
    rewrite (readOr_take ErrReadHandshake Control w 2 [version; b1]
               (b2 :: b3 :: rest) Hp eq_refl).
    cbn [nth]. rewrite Ev. reflexivity. }
  assert (H2 : handleRequest w
               = (Err (ErrVersion version),
                  setConn Control (mkConn rest (eof (control w))
                                          (writeErrs (control w))) w)).
  { unfold handleRequest. unfold bind at 1.
    rewrite (readOr_take ErrReadRequest Control w 4 [version; b1; b2; b3]
               rest Hp eq_refl).
    cbn [nth]. rewrite Ev. reflexivity. }
  rewrite H1, H2. cbn. auto 10.
Qed.

Lemma other_versions_are_refused_silently_witness :
  let w := start [x04; x01; x00; x50; x5d; xb8] false 1080 (fun _ => true) in
  fst (handshake w) = Err (ErrVersion x04) /\
  trace (snd (handshake w)) = trace w /\
  pending (control (snd (handshake w))) = [x00; x50; x5d; xb8] /\
  fst (handleRequest w) = Err (ErrVersion x04) /\
  trace (snd (handleRequest w)) = trace w /\
  pending (control (snd (handleRequest w))) = [x5d; xb8].
Proof.
  apply (other_versions_are_refused_silently
           (start [x04; x01; x00; x50; x5d; xb8] false 1080 (fun _ => true))
           x04 x01 x00 x50 [x5d; xb8]).
  - discriminate.
  - reflexivity.
Defined.

(** X8.  A request whose command is neither CONNECT nor UDP ASSOCIATE is
    answered 0x07 whatever its address type, fails with "unsupported
    command", and its address and port are left unread. *)
Theorem unsupported_command_is_answered_0x07
        (w : World) (cmd rsv addrType : byte) (rest : list byte) :
  cmd <> connectCmd ->
  cmd <> udpAssociate ->
  pending (control w) = socks5Version :: cmd :: rsv :: addrType :: rest ->
  exists ok,
    fst (handleRequest w) = Err (ErrUnsupportedCommand cmd) /\
    trace (snd (handleRequest w))
      = trace w ++ [EvWrite Control (connectionReply x07 zeroAddr 0) ok] /\
    pending (control (snd (handleRequest w))) = rest.
Proof.
  intros Nc Nu Hp.
  destruct (handleRequest w) as [r w'] eqn:E. cbn [fst snd].
  unfold handleRequest in E. unfold bind at 1 in E.
  rewrite (readOr_take ErrReadRequest Control w 4
             [socks5Version; cmd; rsv; addrType] rest Hp eq_refl) in E.
  cbn [nth] in E. change (Byte.eqb socks5Version socks5Version) with true in E.
  cbn [negb] in E. unfold bind at 1 in E.
  destruct (Byte.eqb cmd connectCmd) eqn:Ec;
    [apply Byte.byte_dec_bl in Ec; contradiction|].
  destruct (Byte.eqb cmd udpAssociate) eqn:Eu;
    [apply Byte.byte_dec_bl in Eu; contradiction|].
  unfold bind, errOf, fail in E. unfold sendReply in E.
  match type of E with context [writeOr ?e Control ?b ?w0] =>
    destruct (writeOr_control e b w0) as (ok & w2 & Hs & Ht & Hpe & _)
  end.
  rewrite Hs in E. exists ok.
  destruct ok; injection E as <- <-; rewrite Ht, Hpe; cbn; auto.
Qed.

Lemma unsupported_command_is_answered_0x07_witness :
  let w := start [x05; x04; x00; x01; x7f; x00] false 1080 (fun _ => true) in
  exists ok,
    fst (handleRequest w) = Err (ErrUnsupportedCommand x04) /\
    trace (snd (handleRequest w))
      = trace w ++ [EvWrite Control (connectionReply x07 zeroAddr 0) ok] /\
    pending (control (snd (handleRequest w))) = [x7f; x00].
Proof.
  apply (unsupported_command_is_answered_0x07
           (start [x05; x04; x00; x01; x7f; x00] false 1080 (fun _ => true))
           x04 x00 x01 [x7f; x00]); [discriminate | discriminate | reflexivity].
Defined.

End HandshakeAndRequestEdges.

(** ** Requests: CONNECT, replies *)

Section ConnectAndAssociate.
Import UDP.
Import TCP.
Local Open Scope conn_scope.

(** Reading the address of a request: the bytes of the address are
    taken off the stream and its text is what is kept. *)
Lemma read_target_address (ta : TargetAddress) (tail : list byte) (w : World) :
  wellFormed ta ->
  pending (control w) = wireOf ta ++ tail ->
  (if Byte.eqb (tagOf ta) ipv4Address then
     addr <- readOr ErrReadIPv4 Control 4 ;; ret (NetIP.String addr)
   else if Byte.eqb (tagOf ta) domainName then
     lenBuf <- readOr ErrReadDomainLength Control 1 ;;
     domain <- readOr ErrReadDomain Control (byte_to_Z (nth 0 lenBuf x00)) ;;
     ret domain
   else if Byte.eqb (tagOf ta) ipv6Address then
     addr <- readOr ErrReadIPv6 Control 16 ;; ret (NetIP.String addr)
   else
     errOf (sendReply x08) ;;; fail (ErrUnsupportedAddressType (tagOf ta))) w
  = (Ok (textOf ta),
     setConn Control (mkConn tail (eof (control w)) (writeErrs (control w))) w).
Proof.
  intros W Hp.
  destruct ta as [a|a|name]; cbn [tagOf textOf wireOf wellFormed] in *.
  - change (Byte.eqb ipv4Address ipv4Address) with true. cbn iota.
    unfold bind, ret.
    rewrite (readOr_take ErrReadIPv4 Control w 4 a tail Hp)
      by (unfold len; rewrite W; reflexivity).
    reflexivity.
  - change (Byte.eqb ipv6Address ipv4Address) with false.
    change (Byte.eqb ipv6Address domainName) with false.
    change (Byte.eqb ipv6Address ipv6Address) with true. cbn iota.
    unfold bind, ret.
    rewrite (readOr_take ErrReadIPv6 Control w 16 a tail Hp)
      by (unfold len; rewrite W; reflexivity).
    reflexivity.
  - change (Byte.eqb domainName ipv4Address) with false.
    change (Byte.eqb domainName domainName) with true. cbn iota.
    unfold bind, ret.
    rewrite (readOr_take ErrReadDomainLength Control w 1
               [byte_of_Z (len name)] (name ++ tail) Hp eq_refl).
    cbn [nth]. pose proof (len_nonneg name).
    rewrite byte_to_of_Z, Z.mod_small by lia.
    rewrite (readOr_take ErrReadDomain Control _ (len name) name tail)
      by (rewrite ?getConn_setConn; reflexivity).
    rewrite !getConn_setConn. cbn [eof writeErrs].
    destruct w; reflexivity.
Qed.

(** X9.  A complete CONNECT request, for each address type: the address and
    the port are read off the stream, the destination dialed is the
    text of the address, a colon and the port in decimal; when the dial
    fails the reply is 0x05 and the error "failed to connect"; when it
    succeeds the reply is 0x00 and the connection is returned, unless
    that reply cannot be written, in which case the destination is
    closed and the write error returned.  What follows the request on
    the stream is left for the relay. *)
Theorem connect_request_dials_the_decoded_target
        (w : World) (rsv : byte) (ta : TargetAddress) (port : Z)
        (rest : list byte) :
  wellFormed ta ->
  0 <= port < 65536 ->
  pending (control w)
    = [socks5Version; connectCmd; rsv; tagOf ta]
        ++ wireOf ta ++ putUint16 port ++ rest ->
  exists ok,
    let target := hostPort (textOf ta) port in
    fst (handleRequest w)
      = (if dialOK w target
         then if ok : bool then Ok (RealTarget target) else Err ErrWrite
         else Err (ErrConnect target)) /\
    trace (snd (handleRequest w))
      = trace w ++
        [EvDial target (dialOK w target);
         EvWrite Control
           (connectionReply (if dialOK w target then x00 else x05) zeroAddr 0)
           ok] ++
        (if dialOK w target && negb ok then [EvClose Target] else []) /\
    pending (control (snd (handleRequest w))) = rest.
Proof.
  intros W R Hp. cbv zeta.
  destruct (handleRequest w) as [r w'] eqn:E. cbn [fst snd].
  unfold handleRequest in E. unfold bind at 1 in E.
  rewrite (readOr_take ErrReadRequest Control w 4
             [socks5Version; connectCmd; rsv; tagOf ta]
             (wireOf ta ++ putUint16 port ++ rest) Hp eq_refl) in E.
  cbn [nth] in E. change (Byte.eqb socks5Version socks5Version) with true in E.
  change (Byte.eqb connectCmd connectCmd) with true in E.
  cbn [negb] in E. unfold bind at 1, ret at 1 in E.
  unfold bind at 1 in E.
  rewrite (read_target_address ta (putUint16 port ++ rest)) in E
    by (rewrite ?getConn_setConn; auto).
  unfold bind at 1 in E.
  rewrite (readOr_take ErrReadPort Control _ 2 (putUint16 port) rest) in E
    by (rewrite ?getConn_setConn; reflexivity).
  cbn [putUint16 nth] in E. rewrite (be_putUint16 port R) in E.
  unfold bind at 1, dial in E.
  match type of E with context [dialOK ?w0 _] =>
    change (dialOK w0) with (dialOK w) in E
  end.
  destruct (dialOK w (hostPort (textOf ta) port)); cbn [negb andb] in *.
  - unfold bind at 1, errOf in E.
    match type of E with context [sendReply ?rep ?w0] =>
      destruct (sendReply_event rep w0) as (ok & w2 & Hs & Ht & _);
      pose proof (writeOr_control ErrWrite
        [socks5Version; rep; x00; x01; x00; x00; x00; x00; x00; x00] w0)
        as (ok' & w2' & Hs' & _ & Hpe & _)
    end.
    unfold sendReply in Hs. rewrite Hs in Hs'.
    assert (ok' = ok /\ w2' = w2) as [-> ->].
    { destruct ok, ok'; injection Hs' as ?; try discriminate; subst; auto. }
    unfold sendReply in E. rewrite Hs in E. exists ok.
    destruct ok.
    + unfold ret in E. injection E as <- <-.
      rewrite Ht, Hpe. cbn. rewrite <- app_assoc. auto.
    + unfold bind, connClose, fail in E. injection E as <- <-.
      cbn. rewrite Ht, Hpe. cbn. rewrite <- !app_assoc. auto.
  - unfold bind, errOf, fail in E.
    match type of E with context [sendReply ?rep ?w0] =>
      destruct (sendReply_event rep w0) as (ok & w2 & Hs & Ht & _);
      pose proof (writeOr_control ErrWrite
        [socks5Version; rep; x00; x01; x00; x00; x00; x00; x00; x00] w0)
        as (ok' & w2' & Hs' & _ & Hpe & _)
    end.
    unfold sendReply in Hs. rewrite Hs in Hs'.
    assert (ok' = ok /\ w2' = w2) as [-> ->].
    { destruct ok, ok'; injection Hs' as ?; try discriminate; subst; auto. }
    unfold sendReply in E. rewrite Hs in E. exists ok.
    destruct ok; injection E as <- <-; rewrite Ht, Hpe; cbn;
      rewrite <- app_assoc; auto.
Qed.

Lemma connect_request_dials_the_decoded_target_witness :
  let w := start [x05; x01; x00; x03; x03; x61; x2e; x62; x01; xbb; x16; x03]
                 false 1080 (fun _ => false) in
  exists ok,
    let target := [x61; x2e; x62; x3a; x34; x34; x33] in
    fst (handleRequest w) = Err (ErrConnect target) /\
    trace (snd (handleRequest w))
      = trace w ++
        [EvDial target false;
         EvWrite Control (connectionReply x05 zeroAddr 0) ok] ++ [] /\
    pending (control (snd (handleRequest w))) = [x16; x03].
Proof.
  apply (connect_request_dials_the_decoded_target
           (start [x05; x01; x00; x03; x03; x61; x2e; x62; x01; xbb; x16; x03]
                  false 1080 (fun _ => false))
           x00 (Domain [x61; x2e; x62]) 443 [x16; x03]).
  - cbn. unfold len. cbn. lia.
  - lia.
  - reflexivity.
Defined.

(** X10.  [handleRequest] returns a connection exactly when its last call is
    the delivered success reply (reply code 0x00): after a failure
    reply, or a success reply that could not be written, it returns an
    error; it never closes the control connection and never writes more
    than one reply. *)
Theorem a_connection_is_returned_only_after_a_delivered_success_reply
        (w : World) :
  exists new,
    trace (snd (handleRequest w)) = trace w ++ new /\
    (length (writesOn Control new) <= 1)%nat /\
    ~ In (EvClose Control) new /\
    match fst (handleRequest w) with
    | Ok _ =>
        exists before port,
          new = before ++
                [EvWrite Control (connectionReply x00 zeroAddr port) true]
    | Err _ | Blocked =>
        forall b, In (EvWrite Control b true) new ->
                  nth 1 b x00 <> x00
    end.
Proof.
  destruct (handleRequest w) as [r w'] eqn:E. cbn [fst snd].
  destruct (handleRequest_path _ _ _ E) as (new & Ht & P).
  exists new. split; [exact Ht|].
  inversion P; subst; cbn [writesOn flat_map app length].
  all: split; [lia|].
  all: split; [cbn; intuition discriminate|].
  all: try (intros b [Hb|[Hb|[Hb|[]]]]; try discriminate;
            injection Hb as <- ?; subst; cbn; discriminate).
  all: try (intros b [Hb|[Hb|[]]]; try discriminate;
            injection Hb as <- ?; subst; cbn; discriminate).
  all: try (intros b [Hb|[]]; try discriminate;
            injection Hb as <- ?; subst; cbn; discriminate).
  all: try (intros b []).
  - exists [EvDial t true], 0. reflexivity.
  - exists [], (uint16 (udpPort w)). reflexivity.
Qed.

End ConnectAndAssociate.

(** ** Requests: UDP ASSOCIATE *)

Section AssociateRequest.
Import UDP.
Import TCP.
Local Open Scope conn_scope.

(** The discarded reads of [handleUDPAssociate] on a complete address. *)
Lemma discard_target_address (ta : TargetAddress) (tail : list byte) (w : World) :
  wellFormed ta ->
  pending (control w) = wireOf ta ++ tail ->
  (if Byte.eqb (tagOf ta) ipv4Address then
     readFull Control 4 ;;; ret tt
   else if Byte.eqb (tagOf ta) domainName then
     '(lenBuf, _) <- readFull Control 1 ;;
     readFull Control (byte_to_Z (nth 0 lenBuf x00)) ;;; ret tt
   else if Byte.eqb (tagOf ta) ipv6Address then
     readFull Control 16 ;;; ret tt
   else ret tt) w
  = (Ok tt,
     setConn Control (mkConn tail (eof (control w)) (writeErrs (control w))) w).
Proof.
  intros W Hp.
  destruct ta as [a|a|name]; cbn [tagOf textOf wireOf wellFormed] in *.
  - change (Byte.eqb ipv4Address ipv4Address) with true. cbn iota.
    unfold bind, ret.
    rewrite (readFull_take Control w 4 a tail Hp)
      by (unfold len; rewrite W; reflexivity).
    reflexivity.
  - change (Byte.eqb ipv6Address ipv4Address) with false.
    change (Byte.eqb ipv6Address domainName) with false.
    change (Byte.eqb ipv6Address ipv6Address) with true. cbn iota.
    unfold bind, ret.
    rewrite (readFull_take Control w 16 a tail Hp)
      by (unfold len; rewrite W; reflexivity).
    reflexivity.
  - change (Byte.eqb domainName ipv4Address) with false.
    change (Byte.eqb domainName domainName) with true. cbn iota.
    unfold bind, ret.
    rewrite (readFull_take Control w 1
               [byte_of_Z (len name)] (name ++ tail) Hp eq_refl).
    cbn [nth]. pose proof (len_nonneg name).
    rewrite byte_to_of_Z, Z.mod_small by lia.
    rewrite (readFull_take Control _ (len name) name tail)
      by (rewrite ?getConn_setConn; reflexivity).
    rewrite !getConn_setConn. cbn [eof writeErrs].
    destruct w; reflexivity.
Qed.

(** X11.  A complete UDP ASSOCIATE request, for each address type: the
    address and the port the client named are read and dropped, the
    reply is the success reply with address 0.0.0.0 and the port of
    the relay socket, which the client reads back from its last two
    bytes; what follows the request stays unread on the control
    connection. *)
Theorem udp_associate_advertises_the_relay_port
        (w : World) (rsv p1 p2 : byte) (ta : TargetAddress)
        (rest : list byte) :
  wellFormed ta ->
  0 <= udpPort w < 65536 ->
  pending (control w)
    = [socks5Version; udpAssociate; rsv; tagOf ta]
        ++ wireOf ta ++ [p1; p2] ++ rest ->
  exists ok reply,
    fst (handleRequest w)
      = (if ok : bool then Ok DummyConn else Err ErrUDPAssociateReply) /\
    trace (snd (handleRequest w)) = trace w ++ [EvWrite Control reply ok] /\
    reply = [x05; x00; x00; x01; x00; x00; x00; x00] ++ sub reply 8 10 /\
    Uint16 (sub reply 8 10) = Done (udpPort w) /\
    pending (control (snd (handleRequest w))) = rest.
Proof.
  intros W R Hp.
  destruct (handleRequest w) as [r w'] eqn:E. cbn [fst snd].
  unfold handleRequest in E. unfold bind at 1 in E.
  rewrite (readOr_take ErrReadRequest Control w 4
             [socks5Version; udpAssociate; rsv; tagOf ta]
             (wireOf ta ++ [p1; p2] ++ rest) Hp eq_refl) in E.
  cbn [nth] in E. change (Byte.eqb socks5Version socks5Version) with true in E.
  change (Byte.eqb udpAssociate connectCmd) with false in E.
  change (Byte.eqb udpAssociate udpAssociate) with true in E.
  cbn [negb] in E. unfold bind at 1 in E. unfold bind at 1 in E.
  unfold handleUDPAssociate in E. unfold bind at 1 in E.
  rewrite (discard_target_address ta ([p1; p2] ++ rest)) in E
    by (rewrite ?getConn_setConn; auto).
  unfold bind at 1 in E.
  rewrite (readFull_take Control _ 2 [p1; p2] rest) in E
    by (rewrite ?getConn_setConn; reflexivity).
  unfold bind at 1, getUDPPort in E. unfold bind at 1 in E.
  match type of E with context [writeOr ?e Control ?b ?w0] =>
    destruct (writeOr_control e b w0) as (ok & w2 & Hs & Ht & Hpe & _)
  end.
  rewrite Hs in E. cbn [udpPort setConn] in *.
  unfold uint16 in *. rewrite Z.mod_small in * by exact R.
  exists ok. eexists.
  destruct ok; unfold ret in E; injection E as <- <-.
  all: rewrite Ht, Hpe; cbn [trace setConn control pending].
  all: split; [reflexivity|]; split; [reflexivity|].
  all: split; [reflexivity|]; split; [|reflexivity].
  all: change (sub _ 8 10) with (putUint16 (udpPort w));
       apply Uint16_putUint16, R.
Qed.

Lemma udp_associate_advertises_the_relay_port_witness :
  let w := start [x05; x03; x00; x03; x02; x61; x62; x00; x00; x78]
                 false 1080 (fun _ => true) in
  exists ok reply,
    fst (handleRequest w)
      = (if ok : bool then Ok DummyConn else Err ErrUDPAssociateReply) /\
    trace (snd (handleRequest w)) = trace w ++ [EvWrite Control reply ok] /\
    reply = [x05; x00; x00; x01; x00; x00; x00; x00] ++ sub reply 8 10 /\
    Uint16 (sub reply 8 10) = Done 1080 /\
    pending (control (snd (handleRequest w))) = [x78].
Proof.
  apply (udp_associate_advertises_the_relay_port
           (start [x05; x03; x00; x03; x02; x61; x62; x00; x00; x78]
                  false 1080 (fun _ => true))
           x00 x00 x00 (Domain [x61; x62]) [x78]).
  - cbn. unfold len. cbn. lia.
  - cbn. lia.
  - reflexivity.
Defined.

End AssociateRequest.

(** ** relay: the two streams *)

Section StreamRelay.
Import TCP.
Import Streams.
Local Open Scope conn_scope.

Ltac turn_done :=
  repeat split; auto;
  try (symmetry; apply firstn_skipn);
  try tauto;
  try match goal with
      | H : _ /\ _ |- _ => destruct H; discriminate
      end;
  try discriminate.

Lemma written_app (c : connId) (a b : list event) :
  written c (a ++ b) = written c a ++ written c b.
Proof.
  unfold written, writesOn. rewrite flat_map_app, concat_app. reflexivity.
Qed.

(** One turn of the copy towards the destination: what it takes off the
    client's stream is what it hands to [Write] on the destination. *)
Lemma copy_to_target_turn (t : list byte) (w : World) :
  exists moved new,
    trace (snd (copyTurn (connRead Control) (targetWrite (RealTarget t)) w))
      = trace w ++ new /\
    written Target new = moved /\ written Control new = [] /\
    pending (control w)
      = moved ++ pending (control (snd (copyTurn (connRead Control)
                                   (targetWrite (RealTarget t)) w))) /\
    pending (target (snd (copyTurn (connRead Control)
                            (targetWrite (RealTarget t)) w)))
      = pending (target w) /\
    eof (control (snd (copyTurn (connRead Control)
                         (targetWrite (RealTarget t)) w)))
      = eof (control w) /\
    eof (target (snd (copyTurn (connRead Control)
                        (targetWrite (RealTarget t)) w)))
      = eof (target w) /\
    (writesSucceed w ->
     writesSucceed (snd (copyTurn (connRead Control)
                           (targetWrite (RealTarget t)) w)) /\
     (fst (copyTurn (connRead Control) (targetWrite (RealTarget t)) w) = true ->
      eof (control w) = true)).
Proof.
  unfold copyTurn, connRead, targetWrite, copyWrite, connWrite, writesSucceed.
  cbn [getConn].
  destruct (pending (control w)) as [|x p] eqn:Hp.
  - exists [], []. rewrite app_nil_r.
    destruct (eof (control w)) eqn:He; cbn [fst snd]; rewrite ?Hp, ?He;
      repeat split; auto; try tauto; discriminate.
  - cbn [setConn getConn control target pending eof writeErrs emit trace fst snd].
    set (b := firstn (Z.to_nat 32768) (x :: p)).
    destruct (writeErrs (target w)) as [|[] l] eqn:Hw;
      cbn [negb tl setConn getConn control target pending eof writeErrs
           emit trace fst snd].
    + assert (Hb : (len b =? len b) = true) by apply Z.eqb_refl.
      rewrite Hb. cbn [negb fst snd control target pending eof writeErrs trace].
      exists b, [EvWrite Target b true].
      unfold written. cbn. rewrite app_nil_r.
      turn_done.
    + exists b, [EvWrite Target b false].
      unfold written. cbn. rewrite app_nil_r.
      turn_done.
    + assert (Hb : (len b =? len b) = true) by apply Z.eqb_refl.
      rewrite Hb. cbn [negb fst snd control target pending eof writeErrs trace].
      exists b, [EvWrite Target b true].
      unfold written. cbn. rewrite app_nil_r.
      turn_done.
Qed.

(** One turn of the copy towards the client, from a dialed
    destination. *)
Lemma copy_to_client_turn (t : list byte) (w : World) :
  exists moved new,
    trace (snd (copyTurn (targetRead (RealTarget t)) (copyWrite Control) w))
      = trace w ++ new /\
    written Control new = moved /\ written Target new = [] /\
    pending (target w)
      = moved ++ pending (target (snd (copyTurn (targetRead (RealTarget t))
                                  (copyWrite Control) w))) /\
    pending (control (snd (copyTurn (targetRead (RealTarget t))
                             (copyWrite Control) w)))
      = pending (control w) /\
    eof (control (snd (copyTurn (targetRead (RealTarget t))
                         (copyWrite Control) w)))
      = eof (control w) /\
    eof (target (snd (copyTurn (targetRead (RealTarget t))
                        (copyWrite Control) w)))
      = eof (target w) /\
    (writesSucceed w ->
     writesSucceed (snd (copyTurn (targetRead (RealTarget t))
                           (copyWrite Control) w)) /\
     (fst (copyTurn (targetRead (RealTarget t)) (copyWrite Control) w) = true ->
      eof (target w) = true)).
Proof.
  unfold copyTurn, targetRead, connRead, copyWrite, connWrite, writesSucceed.
  cbn [getConn].
  destruct (pending (target w)) as [|x p] eqn:Hp.
  - exists [], []. rewrite app_nil_r.
    destruct (eof (target w)) eqn:He; cbn [fst snd]; rewrite ?Hp, ?He;
      repeat split; auto; try tauto; discriminate.
  - cbn [setConn getConn control target pending eof writeErrs emit trace fst snd].
    set (b := firstn (Z.to_nat 32768) (x :: p)).
    destruct (writeErrs (control w)) as [|[] l] eqn:Hw;
      cbn [negb tl setConn getConn control target pending eof writeErrs
           emit trace fst snd].
    + assert (Hb : (len b =? len b) = true) by apply Z.eqb_refl.
      rewrite Hb. cbn [negb fst snd control target pending eof writeErrs trace].
      exists b, [EvWrite Control b true].
      unfold written. cbn. rewrite app_nil_r.
      turn_done.
    + exists b, [EvWrite Control b false].
      unfold written. cbn. rewrite app_nil_r.
      turn_done.
    + assert (Hb : (len b =? len b) = true) by apply Z.eqb_refl.
      rewrite Hb. cbn [negb fst snd control target pending eof writeErrs trace].
      exists b, [EvWrite Control b true].
      unfold written. cbn. rewrite app_nil_r.
      turn_done.
Qed.

Lemma clientSends_closed (b : list byte) (w : World) :
  eof (control w) = true -> peerSends Control b w = w.
Proof. unfold peerSends. cbn [getConn]. intros ->. reflexivity. Qed.

Lemma targetSends_closed (b : list byte) (w : World) :
  eof (target w) = true -> peerSends Target b w = w.
Proof. unfold peerSends. cbn [getConn]. intros ->. reflexivity. Qed.

Lemma clientSends_open (b : list byte) (w : World) :
  eof (control w) = false ->
  peerSends Control b w
  = setConn Control (mkConn (pending (control w) ++ b) false
                            (writeErrs (control w))) w.
Proof. unfold peerSends. cbn [getConn]. intros ->. reflexivity. Qed.

Lemma targetSends_open (b : list byte) (w : World) :
  eof (target w) = false ->
  peerSends Target b w
  = setConn Target (mkConn (pending (target w) ++ b) false
                           (writeErrs (target w))) w.
Proof. unfold peerSends. cbn [getConn]. intros ->. reflexivity. Qed.

(** The streams through [relay] on a dialed connection, for every
    schedule and whatever the goroutines have done before: of what
    the peers send, a first part is accepted (all of it until the peer
    closes), and what was accepted is what has been handed to [Write]
    on the other side followed by what is still unread. *)
Lemma relayRun_streams (sched : list action) (t : list byte) :
  forall (d1 d2 : bool) (w : World),
  exists new fromClient restC fromTarget restT,
    trace (snd (relayRun sched (RealTarget t) d1 d2 w)) = trace w ++ new /\
    clientBytes sched = fromClient ++ restC /\
    pending (control w) ++ fromClient
      = written Target new
        ++ pending (control (snd (relayRun sched (RealTarget t) d1 d2 w))) /\
    (eof (control w) = true -> fromClient = []) /\
    targetBytes sched = fromTarget ++ restT /\
    pending (target w) ++ fromTarget
      = written Control new
        ++ pending (target (snd (relayRun sched (RealTarget t) d1 d2 w))) /\
    (eof (target w) = true -> fromTarget = []).
Proof.
  induction sched as [|a sched IH]; intros d1 d2 w; cbn [relayRun].
  - exists [], [], [], [], []. cbn. rewrite !app_nil_r. auto 10.
  - destruct a; cbn [clientBytes targetBytes flat_map];
      fold (clientBytes sched); fold (targetBytes sched).
    + (* the client sends *)
      destruct (eof (control w)) eqn:He.
      * rewrite (clientSends_closed b w He).
        destruct (IH d1 d2 w) as (new & fc & rc & ft & rt & Ht & Hc & Hpc & Hec
                                  & Hg & Hpt & Het).
        rewrite (Hec He) in *.
        exists new, [], (b ++ clientBytes sched), ft, rt. auto 10.
      * rewrite (clientSends_open b w He).
        set (w1 := setConn Control _ w).
        destruct (IH d1 d2 w1) as (new & fc & rc & ft & rt & Ht & Hc & Hpc & Hec
                                   & Hg & Hpt & Het).
        exists new, (b ++ fc), rc, ft, rt.
        subst w1. cbn [setConn control target pending eof trace] in *.
        rewrite Hc, <- Hpc, <- !app_assoc. repeat split; auto. discriminate.
    + (* the client closes *)
      destruct (IH d1 d2 (peerCloses Control w))
        as (new & fc & rc & ft & rt & Ht & Hc & Hpc & Hec & Hg & Hpt & Het).
      unfold peerCloses in *.
      cbn [getConn setConn control target pending eof trace] in *.
      rewrite (Hec eq_refl) in *.
      exists new, [], (clientBytes sched), ft, rt. auto 10.
    + (* the destination sends *)
      destruct (eof (target w)) eqn:He.
      * rewrite (targetSends_closed b w He).
        destruct (IH d1 d2 w) as (new & fc & rc & ft & rt & Ht & Hc & Hpc & Hec
                                  & Hg & Hpt & Het).
        rewrite (Het He) in *.
        exists new, fc, rc, [], (b ++ targetBytes sched). auto 10.
      * rewrite (targetSends_open b w He).
        set (w1 := setConn Target _ w).
        destruct (IH d1 d2 w1) as (new & fc & rc & ft & rt & Ht & Hc & Hpc & Hec
                                   & Hg & Hpt & Het).
        exists new, fc, rc, (b ++ ft), rt.
        subst w1. cbn [setConn control target pending eof trace] in *.
        rewrite Hg, <- Hpt, <- !app_assoc. repeat split; auto. discriminate.
    + (* the destination closes *)
      destruct (IH d1 d2 (peerCloses Target w))
        as (new & fc & rc & ft & rt & Ht & Hc & Hpc & Hec & Hg & Hpt & Het).
      unfold peerCloses in *.
      cbn [getConn setConn control target pending eof trace] in *.
      rewrite (Het eq_refl) in *.
      exists new, fc, rc, [], (targetBytes sched). auto 10.
    + (* a turn of the copy to the destination *)
      destruct d1; [apply IH|].
      destruct (copy_to_target_turn t w)
        as (moved & n1 & T1 & W1 & W2 & P1 & P2 & E1 & E2 & _).
      destruct (copyTurn (connRead Control) (targetWrite (RealTarget t)) w)
        as [fin w1]. cbn [fst snd] in *.
      destruct (IH fin d2 w1)
        as (new & fc & rc & ft & rt & Ht & Hc & Hpc & Hec & Hg & Hpt & Het).
      exists (n1 ++ new), fc, rc, ft, rt.
      rewrite E1 in Hec. rewrite E2 in Het.
      rewrite !written_app, W1, W2, Ht, T1, <- !app_assoc. cbn [app].
      rewrite <- Hpc, <- Hpt, P1, P2, <- ?app_assoc. auto 10.
    + (* a turn of the copy to the client *)
      destruct d2; [apply IH|].
      destruct (copy_to_client_turn t w)
        as (moved & n1 & T1 & W1 & W2 & P1 & P2 & E1 & E2 & _).
      destruct (copyTurn (targetRead (RealTarget t)) (copyWrite Control) w)
        as [fin w1]. cbn [fst snd] in *.
      destruct (IH d1 fin w1)
        as (new & fc & rc & ft & rt & Ht & Hc & Hpc & Hec & Hg & Hpt & Het).
      exists (n1 ++ new), fc, rc, ft, rt.
      rewrite E1 in Hec. rewrite E2 in Het.
      rewrite !written_app, W1, W2, Ht, T1, <- !app_assoc. cbn [app].
      rewrite <- Hpc, <- Hpt, P1, P2, <- ?app_assoc. auto 10.
    + (* relay receives *)
      destruct (d1 || d2); [|apply IH].
      exists [], [], (clientBytes sched), [], (targetBytes sched).
      cbn. rewrite !app_nil_r. auto 10.
Qed.

(** X12.  [relay] between the client and a dialed destination neither
    invents, loses, repeats nor reorders bytes: in each direction,
    what has been handed to [Write] on one side, followed by what is
    still unread on the other, is the beginning of what that side
    had sent. *)
Theorem relay_hands_each_stream_on_in_order
        (sched : list action) (t : list byte) (w : World) :
  exists new restC restT,
    trace (snd (relay sched (RealTarget t) w)) = trace w ++ new /\
    pending (control w) ++ clientBytes sched
      = written Target new
        ++ pending (control (snd (relay sched (RealTarget t) w))) ++ restC /\
    pending (target w) ++ targetBytes sched
      = written Control new
        ++ pending (target (snd (relay sched (RealTarget t) w))) ++ restT.
Proof.
  unfold relay.
  destruct (relayRun_streams sched t false false w)
    as (new & fc & rc & ft & rt & Ht & Hc & Hpc & _ & Hg & Hpt & _).
  exists new, rc, rt. rewrite Hc, Hg, !app_assoc, Hpc, Hpt. auto.
Qed.

End StreamRelay.

(** ** relay: when it returns *)

Section RelayEnds.
Import TCP.
Import Streams.
Local Open Scope conn_scope.

Lemma peerSends_keeps (c c' : connId) (b : list byte) (w : World) :
  writeErrs (getConn c' (peerSends c b w)) = writeErrs (getConn c' w) /\
  eof (getConn c' (peerSends c b w)) = eof (getConn c' w).
Proof.
  unfold peerSends. destruct (eof (getConn c w)) eqn:He; [auto|].
  destruct c, c'; cbn in *; auto.
Qed.

Lemma peerCloses_keeps (c c' : connId) (w : World) :
  writeErrs (getConn c' (peerCloses c w)) = writeErrs (getConn c' w) /\
  (eof (getConn c' w) = true -> eof (getConn c' (peerCloses c w)) = true).
Proof.
  unfold peerCloses. destruct c, c'; cbn; auto.
Qed.

Lemma relayRun_ends_at_eof (sched : list action) (t : list byte) :
  forall (d1 d2 : bool) (w : World),
  writesSucceed w ->
  (d1 = true -> eof (control w) = true) ->
  (d2 = true -> eof (target w) = true) ->
  fst (relayRun sched (RealTarget t) d1 d2 w) = Ok tt ->
  eof (control (snd (relayRun sched (RealTarget t) d1 d2 w))) = true \/
  eof (target (snd (relayRun sched (RealTarget t) d1 d2 w))) = true.
Proof.
  induction sched as [|a sched IH]; intros d1 d2 w [Hc Ht] H1 H2;
    cbn [relayRun].
  - discriminate.
  - destruct a.
    + destruct (peerSends_keeps Control Control b w) as [A1 A2].
      destruct (peerSends_keeps Control Target b w) as [A3 A4].
      cbn [getConn] in *.
      apply IH; [split|..]; rewrite ?A1, ?A2, ?A3, ?A4; auto.
    + destruct (peerCloses_keeps Control Control w) as [A1 A2].
      destruct (peerCloses_keeps Control Target w) as [A3 A4].
      cbn [getConn] in *.
      apply IH; [split|..]; rewrite ?A1, ?A3; auto.
    + destruct (peerSends_keeps Target Control b w) as [A1 A2].
      destruct (peerSends_keeps Target Target b w) as [A3 A4].
      cbn [getConn] in *.
      apply IH; [split|..]; rewrite ?A1, ?A2, ?A3, ?A4; auto.
    + destruct (peerCloses_keeps Target Control w) as [A1 A2].
      destruct (peerCloses_keeps Target Target w) as [A3 A4].
      cbn [getConn] in *.
      apply IH; [split|..]; rewrite ?A1, ?A3; auto.
    + destruct d1; [apply IH; unfold writesSucceed; auto|].
      destruct (copy_to_target_turn t w)
        as (moved & n1 & _ & _ & _ & _ & _ & E1 & E2 & F).
      destruct (F (conj Hc Ht)) as [W F'].
      destruct (copyTurn (connRead Control) (targetWrite (RealTarget t)) w)
        as [fin w1]. cbn [fst snd] in *.
      apply IH; rewrite ?E1, ?E2; auto.
    + destruct d2; [apply IH; unfold writesSucceed; auto|].
      destruct (copy_to_client_turn t w)
        as (moved & n1 & _ & _ & _ & _ & _ & E1 & E2 & F).
      destruct (F (conj Hc Ht)) as [W F'].
      destruct (copyTurn (targetRead (RealTarget t)) (copyWrite Control) w)
        as [fin w1]. cbn [fst snd] in *.
      apply IH; rewrite ?E1, ?E2; auto.
    + destruct d1; [cbn; auto|].
      destruct d2; [cbn; auto|].
      cbn [orb]. apply IH; unfold writesSucceed; auto.
Qed.

(** X13.  When no [Write] fails, [relay] on a dialed connection returns
    only after the end of one of the two streams: the client or the
    destination has closed. *)
Theorem relay_returns_only_after_a_peer_closed
        (sched : list action) (t : list byte) (w : World) :
  writesSucceed w ->
  fst (relay sched (RealTarget t) w) = Ok tt ->
  eof (control (snd (relay sched (RealTarget t) w))) = true \/
  eof (target (snd (relay sched (RealTarget t) w))) = true.
Proof.
  intros Hw Hr. unfold relay in *.
  apply relayRun_ends_at_eof; auto; discriminate.
Qed.

Lemma relay_returns_only_after_a_peer_closed_witness :
  let w := mkWorld (mkConn [x47; x45; x54] false []) (mkConn [] false [])
                   (fun _ => true) 1080 [] in
  let sched := [CopyToTarget; TargetCloses; CopyToClient; Receive] in
  fst (relay sched (RealTarget [x61]) w) = Ok tt /\
  (eof (control (snd (relay sched (RealTarget [x61]) w))) = true \/
   eof (target (snd (relay sched (RealTarget [x61]) w))) = true).
Proof.
  cbv zeta. split; [reflexivity|].
  apply relay_returns_only_after_a_peer_closed.
  - split; reflexivity.
  - reflexivity.
Defined.

End RelayEnds.

(** ** relay: closed streams and associations *)

Section RelayDrains.
Import TCP.
Import Streams.
Local Open Scope conn_scope.








(** X16.  As long as the client sends nothing on the control connection
    of an association, [relay] writes nothing, and it returns only
    once the client has closed the connection. *)
Theorem association_lasts_until_the_client_closes
        (sched : list action) (w : World) :
  clientSilent sched ->
  pending (control w) = [] ->
  trace (snd (relay sched DummyConn w)) = trace w /\
  (fst (relay sched DummyConn w) = Ok tt ->
   eof (control (snd (relay sched DummyConn w))) = true).
Proof.
  intros S Hp. unfold relay.
  apply idle_association_is_silent; auto. discriminate.
Qed.

Lemma association_lasts_until_the_client_closes_witness :
  let w := mkWorld (mkConn [] false []) (mkConn [] false [])
                   (fun _ => true) 1080 [] in
  let sched := [CopyToTarget; CopyToClient; Receive; ClientCloses;
                CopyToClient; Receive] in
  trace (snd (relay sched DummyConn w)) = [] /\
  (fst (relay sched DummyConn w) = Ok tt ->
   eof (control (snd (relay sched DummyConn w))) = true).
Proof.
  cbv zeta.
  apply (association_lasts_until_the_client_closes
           [CopyToTarget; CopyToClient; Receive; ClientCloses;
            CopyToClient; Receive]
           (mkWorld (mkConn [] false []) (mkConn [] false [])
                    (fun _ => true) 1080 [])).
  - repeat constructor.
  - reflexivity.
Defined.

End RelayDrains.

(** ** handleConnection: what it closes *)

Section SessionCloses.
Import TCP.
Import Streams.
Local Open Scope conn_scope.

Lemma closes_app (a b : list event) : closes (a ++ b) = closes a ++ closes b.
Proof. unfold closes. apply flat_map_app. Qed.

Lemma closes_writes (l : list event) : Forall isWrite l -> closes l = [].
Proof.
  induction 1 as [|e l He _ IH]; [reflexivity|].
  destruct e; try contradiction. exact IH.
Qed.

(** The calls to [Close] on the paths of [handleRequest]: none, but
    for the dialed connection when the success reply could not be
    written. *)
Lemma requestPath_closes (cmd addrType : byte) (port : Z)
      (r : result targetConn) (new : list event) :
  requestPath cmd addrType port r new ->
  match r with
  | Ok (RealTarget t) => closes new = [] /\ In (EvDial t true) new
  | Ok DummyConn => closes new = []
  | Blocked => closes new = []
  | Err _ => closes new = [] \/
             closes new = [Target] /\ exists t, In (EvDial t true) new
  end.
Proof.
  intros P. inversion P; subst; cbn; auto.
  right. split; eauto.
Qed.

(** X17.  [handleConnection] returns no error.  When it returns, its last
    call closes the client connection, and the calls to [Close] are, in
    order: the client connection alone; the dialed connection and the
    client connection; or, after an association, the client connection
    twice, [dummyConn] having the [Close] of the connection it embeds.
    As long as it has not returned it has closed nothing. *)
Theorem session_close_discipline (sched : list action) (w : World) :
  exists new,
    trace (snd (handleConnection sched w)) = trace w ++ new /\
    (fst (handleConnection sched w) = Blocked /\ closes new = [] \/
     fst (handleConnection sched w) = Ok tt /\
     (exists before, new = before ++ [EvClose Control]) /\
     (closes new = [Control] \/
      closes new = [Target; Control] /\ (exists t, In (EvDial t true) new) \/
      closes new = [Control; Control])).
Proof.
  destruct (handleConnection sched w) as [r w'] eqn:E. cbn [fst snd].
  unfold handleConnection in E. unfold bind at 1, errOf in E.
  destruct (handshake w) as [rh w1] eqn:Eh.
  destruct (handshake_path _ _ _ Eh) as (nh & Hh & Fh).
  pose proof (closes_writes _ Fh) as Ch.
  destruct rh as [[]|eh|].
  2:{ unfold connClose in E. injection E as <- <-. cbn [emit trace].
      exists (nh ++ [EvClose Control]). rewrite Hh, <- app_assoc.
      split; [reflexivity|]. right. split; [reflexivity|].
      split; [eauto|]. left. rewrite closes_app, Ch. reflexivity. }
  2:{ injection E as <- <-. exists nh. auto. }
  unfold bind at 1, attempt in E.
  destruct (handleRequest w1) as [rr w2] eqn:Er.
  destruct (handleRequest_path _ _ _ Er) as (nr & Hr & P).
  apply requestPath_closes in P.
  destruct rr as [tc|er|].
  2:{ unfold connClose in E. injection E as <- <-. cbn [emit trace].
      exists (nh ++ nr ++ [EvClose Control]). rewrite Hr, Hh, <- !app_assoc.
      split; [reflexivity|]. right. split; [reflexivity|].
      split; [exists (nh ++ nr); rewrite <- app_assoc; reflexivity|].
      rewrite !closes_app, Ch. cbn [app].
      destruct P as [P|[P (t & D)]]; rewrite P; [left; reflexivity|].
      right; left. split; [reflexivity|].
      exists t. apply in_or_app. right. apply in_or_app. auto. }
  2:{ injection E as <- <-. exists (nh ++ nr). rewrite Hr, Hh, <- app_assoc.
      split; [reflexivity|]. left. split; [reflexivity|].
      rewrite closes_app, Ch, P. reflexivity. }
  unfold bind at 1, relay in E.
  destruct (relayRun_writes sched tc false false w2) as (nl & Hl & Fl & Rl).
  pose proof (closes_writes _ Fl) as Cl.
  destruct (relayRun sched tc false false w2) as [rl w3]. cbn [fst snd] in *.
  destruct rl as [[]|el|]; [| destruct Rl; discriminate |].
  2:{ injection E as <- <-. exists (nh ++ nr ++ nl).
      rewrite Hl, Hr, Hh, <- !app_assoc.
      split; [reflexivity|]. left. split; [reflexivity|].
      rewrite !closes_app, Ch, Cl.
      destruct tc; [destruct P as [P _]|]; rewrite P; reflexivity. }
  unfold bind, targetClose, connClose in E.
  destruct tc as [t|]; injection E as <- <-; cbn [emit trace].
  - destruct P as [P D].
    exists (nh ++ nr ++ nl ++ [EvClose Target; EvClose Control]).
    rewrite Hl, Hr, Hh, <- !app_assoc.
    split; [reflexivity|]. right. split; [reflexivity|].
    split.
    + exists (nh ++ nr ++ nl ++ [EvClose Target]).
      rewrite <- !app_assoc. reflexivity.
    + right; left. rewrite !closes_app, Ch, Cl, P.
      split; [reflexivity|].
      exists t. apply in_or_app. right. apply in_or_app. auto.
  - exists (nh ++ nr ++ nl ++ [EvClose Control; EvClose Control]).
    rewrite Hl, Hr, Hh, <- !app_assoc.
    split; [reflexivity|]. right. split; [reflexivity|].
    split.
    + exists (nh ++ nr ++ nl ++ [EvClose Control]).
      rewrite <- !app_assoc. reflexivity.
    + right; right. rewrite !closes_app, Ch, Cl, P. reflexivity.
Qed.

End SessionCloses.

(** ** The dispatcher before UDP ASSOCIATE *)

Section TwoDispatchers.
Import TCP.
Local Open Scope conn_scope.

Lemma nth_firstn_lt (A : Type) (i n : nat) (l : list A) (d : A) :
  (i < n)%nat -> nth i (firstn n l) d = nth i l d.
Proof.
  revert n l. induction i as [|i IH]; intros [|n] [|x l] H; cbn;
    try reflexivity; try lia.
  apply IH. lia.
Qed.

(** X18.  The dispatcher of the stream-only file and the one with UDP
    ASSOCIATE do the same on every request whose command byte is not
    0x03: the same result, the same calls, the same bytes read. *)
Theorem dispatchers_agree_but_for_udp_associate (w : World) :
  nth 1 (pending (control w)) x00 <> udpAssociate ->
  TcpOnly.handleRequest w = TCP.handleRequest w.
Proof.
  intros Hc. unfold TcpOnly.handleRequest, TCP.handleRequest.
  unfold bind at 1. symmetry. unfold bind at 1. symmetry.
  destruct (readOr_cases ErrReadRequest Control 4 w) as [_ R].
  destruct (readOr ErrReadRequest Control 4 w) as [[buf|e|] w1];
    cbn [fst snd] in *; try reflexivity.
  destruct R as [R|[R|R]]; try discriminate.
  assert (Hb : buf = firstn (Z.to_nat 4) (pending (control w)))
    by (injection R as R; exact R).
  assert (Hn : nth 1 buf x00 = nth 1 (pending (control w)) x00).
  { rewrite Hb. apply nth_firstn_lt. change (Z.to_nat 4) with 4%nat. lia. }
  destruct (negb (Byte.eqb (nth 0 buf x00) socks5Version)); [reflexivity|].
  destruct (Byte.eqb (nth 1 buf x00) connectCmd) eqn:Ec; cbn [negb].
  - reflexivity.
  - destruct (Byte.eqb (nth 1 buf x00) udpAssociate) eqn:Eu.
    { apply Byte.byte_dec_bl in Eu. rewrite Hn in Eu. contradiction. }
    unfold bind, errOf, fail.
    destruct (sendReply x07 w1) as [[[]|e|] w2]; reflexivity.
Qed.

Lemma dispatchers_agree_but_for_udp_associate_witness :
  let w := start [x05; x01; x00; x01; x5d; xb8; xd8; x22; x00; x50]
                 false 1080 (fun _ => true) in
  TcpOnly.handleRequest w = TCP.handleRequest w.
Proof.
  apply dispatchers_agree_but_for_udp_associate. discriminate.
Defined.

(** X19.  The stream-only dispatcher answers UDP ASSOCIATE like any
    command it does not know: reply 0x07, error "unsupported command",
    the address and port of the request left unread. *)
Theorem stream_only_dispatcher_refuses_udp_associate
        (w : World) (cmd rsv addrType : byte) (rest : list byte) :
  cmd <> connectCmd ->
  pending (control w) = socks5Version :: cmd :: rsv :: addrType :: rest ->
  exists ok,
    fst (TcpOnly.handleRequest w) = Err (ErrUnsupportedCommand cmd) /\
    trace (snd (TcpOnly.handleRequest w))
      = trace w ++ [EvWrite Control (connectionReply x07 zeroAddr 0) ok] /\
    pending (control (snd (TcpOnly.handleRequest w))) = rest.
Proof.
  intros Nc Hp.
  destruct (TcpOnly.handleRequest w) as [r w'] eqn:E. cbn [fst snd].
  unfold TcpOnly.handleRequest in E. unfold bind at 1 in E.
  rewrite (readOr_take ErrReadRequest Control w 4
             [socks5Version; cmd; rsv; addrType] rest Hp eq_refl) in E.
  cbn [nth] in E. change (Byte.eqb socks5Version socks5Version) with true in E.
  cbn [negb] in E.
  destruct (Byte.eqb cmd connectCmd) eqn:Ec;
    [apply Byte.byte_dec_bl in Ec; contradiction|].
  cbn [negb] in E.
  unfold bind, errOf, fail in E. unfold sendReply in E.
  match type of E with context [writeOr ?e Control ?b ?w0] =>
    destruct (writeOr_control e b w0) as (ok & w2 & Hs & Ht & Hpe & _)
  end.
  rewrite Hs in E. exists ok.
  destruct ok; injection E as <- <-; rewrite Ht, Hpe; cbn; auto.
Qed.

Lemma stream_only_dispatcher_refuses_udp_associate_witness :
  let w := start [x05; x03; x00; x01; x00; x00; x00; x00; x00; x00]
                 false 1080 (fun _ => true) in
  exists ok,
    fst (TcpOnly.handleRequest w) = Err (ErrUnsupportedCommand x03) /\
    trace (snd (TcpOnly.handleRequest w))
      = trace w ++ [EvWrite Control (connectionReply x07 zeroAddr 0) ok] /\
    pending (control (snd (TcpOnly.handleRequest w)))
      = [x00; x00; x00; x00; x00; x00].
Proof.
  apply (stream_only_dispatcher_refuses_udp_associate
           (start [x05; x03; x00; x01; x00; x00; x00; x00; x00; x00]
                  false 1080 (fun _ => true))
           x03 x00 x01 [x00; x00; x00; x00; x00; x00]);
    [discriminate | reflexivity].
Defined.

End TwoDispatchers.

(** ** Dial targets as text: net.SplitHostPort *)

Section DialTargets.
Import NetIP.
Import NetAddr.

Lemma eqb_false_of_neq (x c : byte) : x <> c -> Byte.eqb x c = false.
Proof.
  intros H. destruct (Byte.eqb x c) eqn:E; [|reflexivity].
  apply Byte.byte_dec_bl in E. contradiction.
Qed.

Lemma eqb_same (c : byte) : Byte.eqb c c = true.
Proof. apply Byte.byte_dec_lb. reflexivity. Qed.

Lemma indexByte_absent (c : byte) (s : list byte) :
  ~ In c s -> indexByte c s = None.
Proof.
  induction s as [|x s IH]; intros H; cbn; [reflexivity|].
  rewrite eqb_false_of_neq by (intros ->; apply H; now left).
  rewrite IH; [reflexivity|]. intros K. apply H. now right.
Qed.

Lemma indexByte_present (c : byte) (s : list byte) :
  In c s -> exists i, indexByte c s = Some i.
Proof.
  induction s as [|x s IH]; intros H; cbn; [destruct H|].
  destruct (Byte.eqb x c) eqn:E; [eauto|].
  destruct H as [->|H].
  - rewrite eqb_same in E. discriminate.
  - destruct (IH H) as (i & ->). cbn. eauto.
Qed.

Lemma lastIndexByte_absent (c : byte) (s : list byte) :
  ~ In c s -> lastIndexByte c s = None.
Proof.
  induction s as [|x s IH]; intros H; cbn; [reflexivity|].
  rewrite IH by (intros K; apply H; now right).
  rewrite eqb_false_of_neq by (intros ->; apply H; now left). reflexivity.
Qed.

(** The last occurrence of a character that does not come again. *)
Lemma lastIndexByte_app (c : byte) (a b : list byte) :
  ~ In c b -> lastIndexByte c (a ++ c :: b) = Some (length a).
Proof.
  intros H. induction a as [|x a IH]; cbn.
  - rewrite (lastIndexByte_absent c b H), eqb_same. reflexivity.
  - rewrite IH. reflexivity.
Qed.

Lemma skipn_past (A : Type) (a : list A) (c : A) (b : list A) :
  skipn (S (length a)) (a ++ c :: b) = b.
Proof. induction a as [|x a IH]; [reflexivity | exact IH]. Qed.

Lemma digit_cases (n : Z) : In (digit n) digits.
Proof.
  unfold digit. generalize (Z.to_nat n) as k. intros k.
  do 16 (destruct k as [|k]; [cbn; tauto|]).
  cbn. destruct k; tauto.
Qed.

(** A character of ["0123456789abcdef"] is no colon and no bracket. *)
Lemma digit_no_separator (n : Z) :
  digit n <> chColon /\ digit n <> chOpen /\ digit n <> chClose.
Proof.
  pose proof (digit_cases n) as H. revert H.
  generalize (digit n). intros d H. cbn in H.
  repeat (destruct H as [<-|H]; [repeat split; discriminate|]).
  destruct H.
Qed.

Lemma decimalAux_chars (c : byte) (fuel : nat) :
  forall (n : Z) (acc : list byte),
  (forall k, digit k <> c) -> ~ In c acc -> ~ In c (decimalAux fuel n acc).
Proof.
  induction fuel as [|fuel IH]; intros n acc D H; cbn [decimalAux]; auto.
  assert (K : ~ In c (digit (n mod 10) :: acc)).
  { intros [E|E]; [apply (D _ E) | apply (H E)]. }
  destruct (n <? 10); auto.
Qed.

(** [%d] writes digits only. *)
Lemma decimal_chars (p : Z) :
  ~ In chColon (decimal p) /\ ~ In chOpen (decimal p) /\
  ~ In chClose (decimal p).
Proof.
  unfold decimal.
  repeat split; apply decimalAux_chars; auto;
    intros k; apply (digit_no_separator k).
Qed.

(** X20.  A target text built as ["%s:%d"] is taken apart again by
    [net.SplitHostPort] into the address and the port in decimal,
    provided the address text holds no colon and no square bracket,
    like a dotted IPv4 address or a host name. *)
Theorem target_text_splits_into_host_and_port
        (host : list byte) (port : Z) :
  ~ In chColon host -> ~ In chOpen host -> ~ In chClose host ->
  SplitHostPort (hostPort host port) = inl (host, decimal port).
Proof.
  intros Hc Ho Hl.
  destruct (decimal_chars port) as (Dc & Do & Dl).
  unfold SplitHostPort, hostPort. cbn [app].
  rewrite (lastIndexByte_app chColon host (decimal port) Dc).
  unfold splitHost.
  assert (H0 : Byte.eqb (nth 0 (host ++ chColon :: decimal port) x00) chOpen
               = false).
  { destruct host as [|x host]; [reflexivity|]. cbn.
    apply eqb_false_of_neq. intros ->. apply Ho. now left. }
  rewrite H0.
  rewrite firstn_app, Nat.sub_diag, firstn_all. cbn [firstn].
  rewrite app_nil_r, (indexByte_absent _ _ Hc).
  rewrite !skipn_O.
  rewrite indexByte_absent.
  2:{ intros K. apply in_app_or in K. destruct K as [K|[K|K]];
        [apply (Ho K) | discriminate | apply (Do K)]. }
  rewrite indexByte_absent.
  2:{ intros K. apply in_app_or in K. destruct K as [K|[K|K]];
        [apply (Hl K) | discriminate | apply (Dl K)]. }
  rewrite skipn_past. reflexivity.
Qed.

Lemma target_text_splits_into_host_and_port_witness :
  SplitHostPort (hostPort [x61; x2e; x62] 443)
  = inl ([x61; x2e; x62], decimal 443).
Proof.
  apply target_text_splits_into_host_and_port;
    cbn; intros H; repeat (destruct H as [H|H]; [discriminate|]); exact H.
Defined.

Lemma appendHex_starts_with_digit (x : Z) (rest : list byte) :
  exists k tail, appendHex x ++ rest = digit k :: tail.
Proof.
  unfold appendHex.
  destruct (4096 <=? x); [cbn; eauto|].
  destruct (256 <=? x); [cbn; eauto|].
  destruct (16 <=? x); cbn; eauto.
Qed.

(** The first two turns of the second loop of [appendTo6]. *)
Lemma groupsFrom_first (ip : list byte) (zs ze n : nat) :
  groupsFrom ip zs ze (S n) 0
  = if (0 =? zs)%nat
    then [chColon; chColon] ++
         (if (8 <=? ze)%nat then []
          else appendHex (v6u16 ip ze) ++ groupsFrom ip zs ze n (S ze))
    else appendHex (v6u16 ip 0) ++ groupsFrom ip zs ze n 1.
Proof. reflexivity. Qed.

Lemma groupsFrom_second (ip : list byte) (zs ze n : nat) :
  groupsFrom ip zs ze (S n) 1
  = if (1 =? zs)%nat
    then [chColon; chColon] ++
         (if (8 <=? ze)%nat then []
          else appendHex (v6u16 ip ze) ++ groupsFrom ip zs ze n (S ze))
    else [chColon] ++ appendHex (v6u16 ip 1) ++ groupsFrom ip zs ze n 2.
Proof. reflexivity. Qed.

(** The text of a 16-byte address begins with a digit or a colon and
    holds a colon. *)
Lemma string6_shape (ip : list byte) :
  In chColon (string6 ip) /\
  Byte.eqb (nth 0 (string6 ip) x00) chOpen = false /\
  string6 ip <> [].
Proof.
  unfold string6. destruct (longestZeroRun ip) as [zs ze].
  rewrite groupsFrom_first.
  destruct (0 =? zs)%nat.
  - cbn. repeat split; auto. discriminate.
  - destruct (appendHex_starts_with_digit (v6u16 ip 0)
                (groupsFrom ip zs ze 7 1)) as (k & tail & E).
    assert (C : In chColon (groupsFrom ip zs ze 7 1)).
    { rewrite groupsFrom_second. destruct (1 =? zs)%nat; cbn; auto. }
    repeat split.
    + apply in_or_app. now right.
    + rewrite E. cbn. apply eqb_false_of_neq. apply digit_no_separator.
    + rewrite E. discriminate.
Qed.

(** X21.  For an IPv6 address that is not an IPv4-mapped one, the target
    text built as ["%s:%d"] is refused by [net.SplitHostPort] with
    "too many colons in address": the address is written without
    square brackets. *)
Theorem ipv6_target_text_has_too_many_colons (addr : list byte) (port : Z) :
  len addr = 16 ->
  To4 addr = [] ->
  SplitHostPort (hostPort (NetIP.String addr) port) = inr TooManyColons.
Proof.
  intros L T.
  assert (S6 : NetIP.String addr = string6 addr).
  { unfold NetIP.String. rewrite L, T. reflexivity. }
  rewrite S6.
  destruct (string6_shape addr) as (C & O & N).
  destruct (decimal_chars port) as (Dc & _).
  unfold SplitHostPort, hostPort. cbn [app].
  rewrite (lastIndexByte_app chColon (string6 addr) (decimal port) Dc).
  unfold splitHost.
  assert (H0 : nth 0 (string6 addr ++ chColon :: decimal port) x00
               = nth 0 (string6 addr) x00).
  { destruct (string6 addr); [contradiction|reflexivity]. }
  rewrite H0, O.
  rewrite firstn_app, Nat.sub_diag, firstn_all. cbn [firstn].
  rewrite app_nil_r.
  destruct (indexByte_present _ _ C) as (i & ->). reflexivity.
Qed.

Lemma ipv6_target_text_has_too_many_colons_witness :
  SplitHostPort
    (hostPort (NetIP.String [x20; x01; x0d; xb8; x00; x00; x00; x00;
                             x00; x00; x00; x00; x00; x00; x00; x01]) 443)
  = inr TooManyColons.
Proof.
  apply ipv6_target_text_has_too_many_colons; reflexivity.
Defined.

End DialTargets.

(** ** The receive loop of the datagram relay *)

Section ReceiveLoop.
Import UDP.
Import UDPRelay.

Variable net : UDPNet.

Lemma length_newBuffer : length newBuffer = Z.to_nat 65535.
Proof. unfold newBuffer, zeros. apply repeat_length. Qed.

(** [ReadFromUDP] keeps the length of the buffer, and the slice
    [buffer[:n]] read at once is the datagram, cut at 65535 bytes. *)
Lemma readFromUDP_slice (buf datagram : list byte) :
  length buf = Z.to_nat 65535 ->
  length (snd (readFromUDP buf datagram)) = Z.to_nat 65535 /\
  firstn (fst (readFromUDP buf datagram)) (snd (readFromUDP buf datagram))
  = firstn (Z.to_nat 65535) datagram.
Proof.
  intros L. unfold readFromUDP. cbn [fst snd]. rewrite L.
  set (n := Nat.min (length datagram) (Z.to_nat 65535)).
  assert (Hn : length (firstn n datagram) = n).
  { rewrite length_firstn. subst n. lia. }
  split.
  - rewrite length_app, Hn, length_skipn, L. subst n. lia.
  - rewrite firstn_app, Hn, Nat.sub_diag, firstn_O, app_nil_r.
    rewrite firstn_firstn, Nat.min_id.
    subst n. destruct (Nat.le_ge_cases (length datagram) (Z.to_nat 65535)).
    + rewrite Nat.min_l by assumption.
      rewrite !firstn_all2; auto.
    + rewrite Nat.min_r by assumption. reflexivity.
Qed.

Lemma readFromUDP_fits (buf datagram : list byte) :
  (length datagram <= length buf)%nat ->
  readFromUDP buf datagram
  = (length datagram, datagram ++ skipn (length datagram) buf).
Proof.
  intros H. unfold readFromUDP. rewrite (Nat.min_l _ _ H), firstn_all.
  reflexivity.
Qed.

Lemma takeTask_head (t : task) (ts : list task) :
  takeTask (taskId t) (t :: ts) = Some (t, ts).
Proof. cbn. rewrite Nat.eqb_refl. reflexivity. Qed.

Lemma turn_arrives (buf : list byte) (k : nat) (ws : list task)
      (done : list (nat * outcome (list event)))
      (d : list byte) (c : UDPAddr) :
  turn net (mkLoop buf k ws done false) (Arrives d c)
  = mkLoop (snd (readFromUDP buf d)) (S k)
           (ws ++ [mkTask k (fst (readFromUDP buf d)) c]) done false.
Proof. unfold turn. cbn. reflexivity. Qed.

Lemma turn_runs (buf : list byte) (k : nat) (ws rest : list task)
      (done : list (nat * outcome (list event))) (id : nat) (t : task) :
  takeTask id ws = Some (t, rest) ->
  exists evs,
    processUDPPacket net (firstn (taskLen t) buf) (taskAddr t) = Done evs /\
    turn net (mkLoop buf k ws done false) (Runs id)
    = mkLoop buf k rest (done ++ [(taskId t, Done evs)]) false.
Proof.
  intros T.
  destruct (processUDPPacket_no_panic net (firstn (taskLen t) buf) (taskAddr t))
    as (evs & E).
  exists evs. split; [exact E|].
  unfold turn. cbn [crashed waiting buffer started handled].
  rewrite T, E. reflexivity.
Qed.

Lemma prompt_run (packets : list (list byte * UDPAddr)) :
  forall (from : nat) (buf : list byte)
         (done : list (nat * outcome (list event))),
  length buf = Z.to_nat 65535 ->
  exists buf',
    length buf' = Z.to_nat 65535 /\
    fold_left (turn net) (prompt from packets) (mkLoop buf from [] done false)
    = mkLoop buf' (from + length packets) []
             (done ++
              combine (seq from (length packets))
                (map (fun p => processUDPPacket net
                                 (firstn (Z.to_nat 65535) (fst p)) (snd p))
                     packets))
             false.
Proof.
  induction packets as [|[d c] packets IH]; intros from buf done L.
  - exists buf. cbn. rewrite Nat.add_0_r, app_nil_r. auto.
  - cbn [prompt fold_left].
    destruct (readFromUDP_slice buf d L) as [L1 F1].
    rewrite turn_arrives. cbn [app].
    destruct (turn_runs (snd (readFromUDP buf d)) (S from)
                [mkTask from (fst (readFromUDP buf d)) c] [] done from
                (mkTask from (fst (readFromUDP buf d)) c))
      as (evs & E & T).
    { apply (takeTask_head (mkTask from (fst (readFromUDP buf d)) c)). }
    rewrite T. cbn [taskId taskLen taskAddr] in *. rewrite F1 in E.
    destruct (IH (S from) (snd (readFromUDP buf d))
                 (done ++ [(from, Done evs)]) L1)
      as (buf' & L' & R).
    exists buf'. split; [exact L'|]. rewrite R.
    cbn [length seq map combine fst snd].
    rewrite E, <- app_assoc. cbn [app].
    f_equal. lia.
Qed.

(** X22.  When every datagram is handled before the next one is read,
    each goroutine works on the datagram it was started for, cut at
    the 65535 bytes of the buffer, for the sender it came from; no
    goroutine is left over. *)
Theorem datagrams_handled_at_once_are_handled_as_received
        (packets : list (list byte * UDPAddr)) :
  handled (handleUDPRelay net (prompt 0 packets))
  = combine (seq 0 (length packets))
      (map (fun p => processUDPPacket net (firstn (Z.to_nat 65535) (fst p))
                                      (snd p))
           packets) /\
  waiting (handleUDPRelay net (prompt 0 packets)) = [] /\
  crashed (handleUDPRelay net (prompt 0 packets)) = false.
Proof.
  unfold handleUDPRelay, initial.
  destruct (prompt_run packets 0 newBuffer [] length_newBuffer)
    as (buf' & _ & ->).
  cbn [handled waiting crashed app]. auto.
Qed.

(** X23.  The goroutines share the one buffer of the loop.  A datagram
    that is not handled before the next one is read is overwritten:
    its goroutine then works on the beginning of the later datagram,
    in the length of its own, and replies to its own sender. *)
Theorem unhandled_datagram_is_overwritten_by_the_next
        (d1 d2 : list byte) (c1 c2 : UDPAddr) :
  (length d1 <= length d2)%nat ->
  (length d2 <= Z.to_nat 65535)%nat ->
  handled (handleUDPRelay net [Arrives d1 c1; Arrives d2 c2; Runs 0; Runs 1])
  = [(0%nat, processUDPPacket net (firstn (length d1) d2) c1);
     (1%nat, processUDPPacket net d2 c2)].
Proof.
  intros H1 H2. unfold handleUDPRelay, initial.
  pose proof length_newBuffer as L. revert L.
  generalize newBuffer. intros buf L.
  cbn [fold_left].
  rewrite turn_arrives, (readFromUDP_fits buf d1) by lia.
  cbn [fst snd app].
  set (b1 := d1 ++ skipn (length d1) buf).
  assert (Lb1 : length b1 = Z.to_nat 65535).
  { subst b1. rewrite length_app, length_skipn. lia. }
  rewrite turn_arrives, (readFromUDP_fits b1 d2) by lia.
  cbn [fst snd app].
  set (t0 := mkTask 0 (length d1) c1).
  set (t1 := mkTask 1 (length d2) c2).
  set (b2 := d2 ++ skipn (length d2) b1).
  destruct (turn_runs b2 2 [t0; t1] [t1] [] 0 t0 eq_refl) as (e0 & E0 & T0).
  rewrite T0.
  destruct (turn_runs b2 2 [t1] [] ([] ++ [(taskId t0, Done e0)]) 1 t1 eq_refl)
    as (e1 & E1 & T1).
  rewrite T1. cbn [handled app taskId].
  subst t0 t1 b2. cbn [taskLen taskAddr] in *.
  rewrite firstn_app in E0, E1.
  replace (length d1 - length d2)%nat with 0%nat in E0 by lia.
  rewrite firstn_O, app_nil_r in E0.
  rewrite Nat.sub_diag, firstn_O, app_nil_r, firstn_all in E1.
  rewrite E0, E1. reflexivity.
Qed.

(** X24.  The receive loop never ends by a panic, whatever arrives and
    in whatever order the goroutines run: every goroutine that ran
    has returned, and every goroutine started is still to run or has
    run. *)
Theorem receive_loop_never_panics (sched : list step) :
  crashed (handleUDPRelay net sched) = false /\
  Forall (fun h => exists evs, snd h = Done evs)
         (handled (handleUDPRelay net sched)) /\
  (length (waiting (handleUDPRelay net sched))
   + length (handled (handleUDPRelay net sched))
   = started (handleUDPRelay net sched))%nat.
Proof.
  unfold handleUDPRelay.
  assert (G : forall st,
             crashed st = false ->
             Forall (fun h => exists evs, snd h = Done evs) (handled st) ->
             (length (waiting st) + length (handled st) = started st)%nat ->
             crashed (fold_left (turn net) sched st) = false /\
             Forall (fun h => exists evs, snd h = Done evs)
                    (handled (fold_left (turn net) sched st)) /\
             (length (waiting (fold_left (turn net) sched st))
              + length (handled (fold_left (turn net) sched st))
              = started (fold_left (turn net) sched st))%nat).
  { induction sched as [|a sched' IH]; intros st C F N; cbn [fold_left];
      [auto|].
    destruct st as [buf k ws done cr]. cbn in C. subst cr.
    cbn [handled waiting started] in *.
    destruct a as [d c| |id].
    - rewrite turn_arrives. apply IH; cbn; auto.
      rewrite length_app. cbn. lia.
    - apply IH; cbn; auto.
    - destruct (takeTask id ws) as [[t rest]|] eqn:T.
      + destruct (turn_runs buf k ws rest done id t T) as (evs & _ & ->).
        assert (Lr : length ws = S (length rest)).
        { clear - T. revert t rest T.
          induction ws as [|x ws IHw]; intros t rest T; [discriminate|].
          cbn in T. destruct (taskId x =? id)%nat.
          - injection T as <- <-. reflexivity.
          - destruct (takeTask id ws) as [[t' r']|]; [|discriminate].
            injection T as <- <-. cbn. f_equal. eapply IHw. reflexivity. }
        apply IH; cbn; auto.
        * apply Forall_app. split; [exact F|].
          constructor; [cbn; eauto | constructor].
        * rewrite length_app. cbn. lia.
      + assert (E : turn net (mkLoop buf k ws done false) (Runs id)
                    = mkLoop buf k ws done false).
        { unfold turn. cbn. rewrite T. reflexivity. }
        rewrite E. apply IH; cbn; auto. }
  apply G; cbn; auto.
Qed.

End ReceiveLoop.

Lemma unhandled_datagram_is_overwritten_by_the_next_witness :
  let net := UDP.mkUDPNet (fun _ => true) (fun _ => true) (fun _ _ => true)
                      (fun _ _ => None) (fun _ _ => true) in
  let c1 := UDP.mkUDPAddr [x0a; x00; x00; x01] 4000 in
  let c2 := UDP.mkUDPAddr [x0a; x00; x00; x02] 4001 in
  let d1 := [x00; x00; x00; x01; x7f; x00; x00; x01; x00; x35; x61] in
  let d2 := [x00; x00; x00; x01; x08; x08; x08; x08; x00; x35; x62; x63] in
  UDPRelay.handled (UDPRelay.handleUDPRelay net
             [UDPRelay.Arrives d1 c1; UDPRelay.Arrives d2 c2;
              UDPRelay.Runs 0; UDPRelay.Runs 1])
  = [(0%nat, UDP.processUDPPacket net (firstn (length d1) d2) c1);
     (1%nat, UDP.processUDPPacket net d2 c2)].
Proof.
  cbv zeta.
  apply unhandled_datagram_is_overwritten_by_the_next.
  - cbn. lia.
  - apply Nat.leb_le. vm_compute. reflexivity.
Defined.

(** ** A whole CONNECT session *)

Section WholeSession.
Import UDP.
Import TCP.
Import Streams.
Local Open Scope conn_scope.

(** A [Write] that is not set to fail changes nothing but the list of
    calls. *)
Lemma writeOr_succeeds (e : error) (b : list byte) (w : World) :
  writeErrs (control w) = [] ->
  exists w',
    writeOr e Control b w = (Ok tt, w') /\
    trace w' = trace w ++ [EvWrite Control b true] /\
    control w' = control w /\ target w' = target w /\
    dialOK w' = dialOK w /\ udpPort w' = udpPort w.
Proof.
  intros H. unfold writeOr, bind, connWrite. cbn [getConn]. rewrite H.
  eexists. split; [reflexivity|]. cbn.
  repeat split. destruct (control w) as [p c we]. cbn in *. subst we.
  reflexivity.
Qed.

Lemma handshake_run (w : World) (nMethods : byte) (methods rest : list byte) :
  writeErrs (control w) = [] ->
  pending (control w) = socks5Version :: nMethods :: methods ++ rest ->
  len methods = byte_to_Z nMethods ->
  exists w1,
    handshake w = (Ok tt, w1) /\
    trace w1 = trace w ++ [EvWrite Control [x05; x00] true] /\
    control w1 = mkConn rest (eof (control w)) [] /\
    target w1 = target w /\ dialOK w1 = dialOK w.
Proof.
  intros Hw Hp Hn. unfold handshake, bind.
  rewrite (readOr_take ErrReadHandshake Control w 2 [socks5Version; nMethods]
                       (methods ++ rest) Hp eq_refl).
  cbn [nth]. change (Byte.eqb socks5Version socks5Version) with true.
  cbn [negb].
  rewrite (readOr_take ErrReadMethods Control _ _ methods rest)
    by (rewrite ?getConn_setConn; auto).
  rewrite !getConn_setConn. cbn [eof writeErrs getConn].
  match goal with |- context [writeOr ?e Control ?b ?w0] =>
    destruct (writeOr_succeeds e b w0) as (w1 & -> & Ht & Hc & Hg & Hd & _);
      [cbn; exact Hw|]
  end.
  exists w1. split; [reflexivity|]. rewrite Ht, Hc, Hg, Hd. cbn.
  rewrite Hw. auto.
Qed.

Lemma connect_run (w : World) (rsv : byte) (ta : TargetAddress) (port : Z)
      (rest : list byte) :
  writeErrs (control w) = [] ->
  wellFormed ta ->
  0 <= port < 65536 ->
  pending (control w)
    = [socks5Version; connectCmd; rsv; tagOf ta]
        ++ wireOf ta ++ putUint16 port ++ rest ->
  dialOK w (hostPort (textOf ta) port) = true ->
  exists w2,
    handleRequest w = (Ok (RealTarget (hostPort (textOf ta) port)), w2) /\
    trace w2 = trace w ++
               [EvDial (hostPort (textOf ta) port) true;
                EvWrite Control (connectionReply x00 zeroAddr 0) true] /\
    control w2 = mkConn rest (eof (control w)) [] /\
    target w2 = target w.
Proof.
  intros Hw W R Hp Hd.
  unfold handleRequest. unfold bind at 1.
  rewrite (readOr_take ErrReadRequest Control w 4
             [socks5Version; connectCmd; rsv; tagOf ta]
             (wireOf ta ++ putUint16 port ++ rest) Hp eq_refl).
  cbn [nth]. change (Byte.eqb socks5Version socks5Version) with true.
  change (Byte.eqb connectCmd connectCmd) with true.
  cbn [negb]. unfold bind at 1, ret at 1.
  unfold bind at 1.
  rewrite (read_target_address ta (putUint16 port ++ rest))
    by (rewrite ?getConn_setConn; auto).
  unfold bind at 1.
  rewrite (readOr_take ErrReadPort Control _ 2 (putUint16 port) rest)
    by (rewrite ?getConn_setConn; reflexivity).
  cbn [putUint16 nth]. rewrite (be_putUint16 port R).
  unfold bind at 1, dial.
  rewrite !getConn_setConn. cbn [eof writeErrs getConn setConn control
                                 target dialOK udpPort trace emit].
  rewrite Hd. cbn [negb]. unfold bind at 1, errOf, sendReply.
  match goal with |- context [writeOr ?e Control ?b ?w0] =>
    destruct (writeOr_succeeds e b w0) as (w2 & -> & Ht & Hc & Hg & _);
      [cbn; exact Hw|]
  end.
  exists w2. split; [reflexivity|]. rewrite Ht, Hc, Hg. cbn.
  rewrite Hw, <- app_assoc. auto.
Qed.

(** X25.  A whole CONNECT session with a reachable destination and no
    failing [Write]: the server answers the greeting, dials, answers
    the request, and from then on only relays.  What the client had
    sent after its request, before any answer, goes to the destination
    first, followed in order by what it sends later; the same holds
    from the destination to the client; and when [relay] returns the
    dialed connection and the client connection are closed, in that
    order. *)
Theorem connect_session_relays_what_follows_the_request
        (sched : list action) (w : World) (nMethods rsv : byte)
        (methods early : list byte) (ta : TargetAddress) (port : Z) :
  writesSucceed w ->
  len methods = byte_to_Z nMethods ->
  wellFormed ta ->
  0 <= port < 65536 ->
  pending (control w)
    = [socks5Version; nMethods] ++ methods
        ++ [socks5Version; connectCmd; rsv; tagOf ta]
        ++ wireOf ta ++ putUint16 port ++ early ->
  dialOK w (hostPort (textOf ta) port) = true ->
  exists relayed restC restT,
    trace (snd (handleConnection sched w))
      = trace w
        ++ [EvWrite Control [x05; x00] true;
            EvDial (hostPort (textOf ta) port) true;
            EvWrite Control (connectionReply x00 zeroAddr 0) true]
        ++ relayed
        ++ match fst (handleConnection sched w) with
           | Ok _ => [EvClose Target; EvClose Control]
           | _ => []
           end /\
    Forall isWrite relayed /\
    early ++ clientBytes sched
      = written Target relayed
        ++ pending (control (snd (handleConnection sched w))) ++ restC /\
    pending (target w) ++ targetBytes sched
      = written Control relayed
        ++ pending (target (snd (handleConnection sched w))) ++ restT.
Proof.
  intros [Hc Ht] Hn W R Hp Hd.
  destruct (handshake_run w nMethods methods
              ([socks5Version; connectCmd; rsv; tagOf ta]
                 ++ wireOf ta ++ putUint16 port ++ early) Hc)
    as (w1 & H1 & T1 & C1 & G1 & D1); [exact Hp | exact Hn |].
  destruct (connect_run w1 rsv ta port early) as (w2 & H2 & T2 & C2 & G2);
    [rewrite C1; reflexivity | exact W | exact R | rewrite C1; reflexivity
    | rewrite D1; exact Hd |].
  destruct (relayRun_streams sched (hostPort (textOf ta) port) false false w2)
    as (new & fc & rc & ft & rt & Hs & Hcb & Hpc & _ & Htb & Hpt & _).
  destruct (relayRun_writes sched (RealTarget (hostPort (textOf ta) port))
                            false false w2) as (new' & Hs' & F & Rl).
  assert (new' = new) as ->
    by (rewrite Hs in Hs'; apply app_inv_head in Hs'; auto).
  rewrite C2 in Hpc. rewrite G2, G1 in Hpt. cbn [pending] in Hpc.
  destruct (relayRun sched (RealTarget (hostPort (textOf ta) port))
                     false false w2) as [rl w3] eqn:Er.
  cbn [fst snd] in *.
  assert (HC : handleConnection sched w
               = match rl with
                 | Ok _ => (Ok tt, emit (EvClose Control)
                                        (emit (EvClose Target) w3))
                 | Err e => (Err e, w3)
                 | Blocked => (Blocked, w3)
                 end).
  { unfold handleConnection, bind, errOf, attempt, relay.
    rewrite H1, H2, Er. destruct rl as [[]|e|]; reflexivity. }
  rewrite HC. exists new, rc, rt.
  destruct rl as [[]|e|]; [| destruct Rl; discriminate |];
    cbn [fst snd emit trace control target];
    rewrite Hs, T2, T1, Hcb, Htb, !app_assoc, Hpc, Hpt, <- !app_assoc;
    cbn [app]; rewrite ?app_nil_r; auto.
Qed.

Lemma connect_session_relays_what_follows_the_request_witness :
  let w := start [x05; x01; x00;
                  x05; x01; x00; x01; x5d; xb8; xd8; x22; x00; x50;
                  x47; x45; x54]
                 false 1080 (fun _ => true) in
  let sched := [CopyToTarget; TargetSends [x4f; x4b]; CopyToClient;
                TargetCloses; CopyToClient; Receive] in
  exists relayed restC restT,
    trace (snd (handleConnection sched w))
      = trace w
        ++ [EvWrite Control [x05; x00] true;
            EvDial (hostPort (textOf (IPv4 [x5d; xb8; xd8; x22])) 80) true;
            EvWrite Control (connectionReply x00 zeroAddr 0) true]
        ++ relayed
        ++ match fst (handleConnection sched w) with
           | Ok _ => [EvClose Target; EvClose Control]
           | _ => []
           end /\
    Forall isWrite relayed /\
    [x47; x45; x54] ++ clientBytes sched
      = written Target relayed
        ++ pending (control (snd (handleConnection sched w))) ++ restC /\
    pending (target w) ++ targetBytes sched
      = written Control relayed
        ++ pending (target (snd (handleConnection sched w))) ++ restT.
Proof.
  cbv zeta.
  apply (connect_session_relays_what_follows_the_request
           _ _ x01 x00 [x00] [x47; x45; x54] (IPv4 [x5d; xb8; xd8; x22]) 80).
  - split; reflexivity.
  - reflexivity.
  - reflexivity.
  - lia.
  - reflexivity.
  - reflexivity.
Defined.

End WholeSession.
